(** * CMYK simulator: the pixel pipeline of colorEngine.js, worker.js,
      main-demo.js and main.js, with the file intake, the hover picker and
      the split view around it, embedded and verified.

    Numbers.  JavaScript numbers are modelled as exact rationals [Q]; the
    bytes of a [Uint8ClampedArray] and the results of [Math.round] are
    integers [Z]; loop counters and array indices are [nat].  The only
    transcendental operation of the program, [Math.sin(Math.PI * v)], is an
    operation of the class [MathLib]: every theorem holds for every
    implementation of it.

    Buffers.  A [Uint8ClampedArray] is a [list Z].  A write
    [a[i] = v] is stdpp's [<[i:=v]>] after clamping to 0..255 (a typed array
    ignores a write past its end, as stdpp's insert does).  A read [a[i]]
    is [get a i]; past the end JavaScript yields [undefined], for which the
    embedding has no value and reads 0.  The loops read past the end only
    on a buffer whose length is not a multiple of 4, which the pixel data
    of an image never is; the statements about what is read and written
    assume that shape, [rgba_shaped].

    Files.  Each source file is a module of its own, translated on its own:
    [Worker] (worker.js), [ColorEngine] (colorEngine.js), [MainDemo]
    (main-demo.js), [InlineWorker] (the handler of the worker inlined in
    main.js), [FileHandler] (fileHandler.js), [WorkerCode] (the functions
    of the worker inlined in main.js) and [Main] (the page of main.js).
    The ink values of one pixel, computed inline in the loop bodies, are
    the functions [inks].

    Geometry.  Sizes and positions on the page are rationals, and a
    division is the exact one; wherever a statement depends on a quotient
    it assumes the divisor positive, as the width and the height of a
    displayed canvas are. *)

From Stdlib Require Import QArith Qround Qabs ZArith Lia Lqa List String Bool DecimalString.
From stdpp Require Import base list.

Local Open Scope Q_scope.

(** ** JavaScript arithmetic on rationals *)

(** [Math.round]: the nearest integer, ties towards +infinity. *)
Definition js_round (x : Q) : Z := Qfloor (x + (1#2)).

Definition Qltb (x y : Q) : bool := negb (Qle_bool y x).
Definition Qgtb (x y : Q) : bool := Qltb y x.
Definition Qgeb (x y : Q) : bool := Qle_bool y x.

(** [Math.max] and [Math.min] on two and three arguments. *)
Definition js_max (x y : Q) : Q := if Qle_bool x y then y else x.
Definition js_min (x y : Q) : Q := if Qle_bool x y then x else y.
Definition js_max3 (x y z : Q) : Q := js_max (js_max x y) z.
Definition js_min3 (x y z : Q) : Q := js_min (js_min x y) z.

(** The interface to the host's math library: [sin_pi v] stands for
    [Math.sin(Math.PI * v)]. *)
Class MathLib := { sin_pi : Q -> Q }.

(** A concrete instance (Bhaskara's rational approximation of the sine),
    used to run the definitions. *)
Definition bhaskara : MathLib :=
  {| sin_pi := fun v => (16 * v * (1 - v)) / (5 - 4 * v * (1 - v)) |}.

(** Decimal rendering of an integer inside a template string. *)
Definition show_Z (z : Z) : string := NilZero.string_of_int (Z.to_int z).

(** ** Typed arrays *)

Definition get (a : list Z) (i : nat) : Z := default 0%Z (a !! i).

(** Conversion applied by a [Uint8ClampedArray] to an integer it stores. *)
Definition clamp8 (v : Z) : Z := Z.max 0 (Z.min 255 v).

Definition put (a : list Z) (i : nat) (v : Z) : list Z := <[i := clamp8 v]> a.

(** [new Uint8ClampedArray(n)]: [n] zero bytes. *)
Definition new_array (n : nat) : list Z := replicate n 0%Z.

(** The number of iterations of [for (i = 0; i < bound; i++)]. *)
Definition loop_count (bound : Q) : nat := Z.to_nat (Qceiling bound).

(** The values of [i] in [for (i = 0; i < bound; i += rate)]; [fuel]
    bounds the number of iterations. *)
Fixpoint strided (fuel : nat) (i : nat) (rate : nat) (bound : Q) : list nat :=
  match fuel with
  | O => []
  | S fuel' =>
      if Qltb (inject_Z (Z.of_nat i)) bound
      then i :: strided fuel' (i + rate) rate bound
      else []
  end.

(** An RGBA buffer: four bytes per pixel. *)
Definition rgba_shaped (a : list Z) : Prop := (length a mod 4 = 0)%nat.

(** ** Data model *)

Inductive paper := coated | uncoated | newsprint.

Record profile := {
  prof_name : string;
  prof_dotGain : Q;
  inkLimit : Z;
  gamutReduction : Q;
  shadowGain : Q;
  highlightGain : Q
}.

Record settings := {
  paperType : paper;
  set_dotGain : Q;
  showC : bool;
  showM : bool;
  showY : bool;
  showK : bool;
  gamutOverlay : bool
}.

Record cmyk := { ch_c : Q; ch_m : Q; ch_y : Q; ch_k : Q }.
Record rgb := { ch_r : Z; ch_g : Z; ch_b : Z }.

Inductive level := safe | caution | danger.
Record risk := { risk_level : level; risk_label : string; risk_message : string }.

(** The running statistics and the two output buffers of the pixel loop,
    with the progress notifications posted so far (latest first). *)
Record loop_state := {
  outputPixels : list Z;
  gamutPixels : list Z;
  totalTAC : Q;
  maxTAC : Q;
  outOfGamutCount : nat;
  processedCount : nat;
  progress : list Z
}.

(** The quantized colour buckets, in insertion order (the order in which a
    JavaScript object enumerates string keys like "32,0,64"). *)
Definition buckets := list ((Z * Z * Z) * nat).

Definition key_eqb (a b : Z * Z * Z) : bool :=
  let '(r1, g1, b1) := a in
  let '(r2, g2, b2) := b in
  ((r1 =? r2)%Z && (g1 =? g2)%Z && (b1 =? b2)%Z)%bool.

(** [buckets[key] = (buckets[key] || 0) + 1]. *)
Fixpoint bump (key : Z * Z * Z) (bs : buckets) : buckets :=
  match bs with
  | [] => [(key, 1%nat)]
  | (k', n) :: rest =>
      if key_eqb key k' then (k', S n) :: rest else (k', n) :: bump key rest
  end.

(** [entries.sort((a, b) => b[1] - a[1])]: stable, descending by count. *)
Fixpoint insert_desc (x : (Z * Z * Z) * nat) (l : buckets) : buckets :=
  match l with
  | [] => [x]
  | e :: rest =>
      if (snd e <? snd x)%nat then x :: e :: rest else e :: insert_desc x rest
  end.

Definition sort_desc (l : buckets) : buckets :=
  fold_left (fun acc x => insert_desc x acc) l [].

(** [Math.round(v / 32) * 32] on a byte. *)
Definition quantize (v : Z) : Z := (js_round (inject_Z v / 32) * 32)%Z.

(** A division that reports a zero denominator ([x / 0] is not a finite
    number in JavaScript). *)
Definition checked_div (x d : Q) : option Q :=
  if Qeq_bool d 0 then None else Some (x / d).

(** The value [255 * (1 - x) * (1 - k)] that [cmykToRgb] hands to
    [Math.round]. *)
Definition unrounded (x k : Q) : Q := 255 * (1 - x) * (1 - k).

(** The statistics record; [D] is the type of a dominant-colour entry.  A
    property the object does not have is [None]. *)
Record stats (D : Type) := {
  st_avgTAC : Z;
  st_maxTAC : Z;
  st_outOfGamutCount : option nat;
  st_outOfGamutPercent : Q;
  st_dominantColors : list D;
  st_risk : risk;
  st_inkLimit : Z
}.
Arguments st_avgTAC {D}.
Arguments st_maxTAC {D}.
Arguments st_outOfGamutCount {D}.
Arguments st_outOfGamutPercent {D}.
Arguments st_dominantColors {D}.
Arguments st_risk {D}.
Arguments st_inkLimit {D}.

Record result (D : Type) := {
  res_outputPixels : list Z;
  res_gamutPixels : list Z;
  res_stats : stats D
}.
Arguments res_outputPixels {D}.
Arguments res_gamutPixels {D}.
Arguments res_stats {D}.

(** The loop state before the first pixel. *)
Definition initial (len : nat) : loop_state :=
  {| outputPixels := new_array len; gamutPixels := new_array len;
     totalTAC := 0; maxTAC := 0; outOfGamutCount := 0; processedCount := 0;
     progress := [] |}.

(** [processedCount > 0 ? total / processedCount : 0] and
    [processedCount > 0 ? (count / processedCount) * 100 : 0]. *)
Definition average (st : loop_state) : Q :=
  if (0 <? processedCount st)%nat
  then totalTAC st / inject_Z (Z.of_nat (processedCount st)) else 0.

Definition gamutPercent (st : loop_state) : Q :=
  if (0 <? processedCount st)%nat
  then (inject_Z (Z.of_nat (outOfGamutCount st))
        / inject_Z (Z.of_nat (processedCount st))) * 100
  else 0.

(** *** The hover picker, the file intake and the split view *)

(** What the picker shows of one pixel: the four inks and their total, in
    percent. *)
Record swatch := { sw_c : Z; sw_m : Z; sw_y : Z; sw_k : Z; sw_tac : Z }.

(** The two properties of a [File] that the code reads. *)
Record file := { file_size : Z; file_type : string }.

(** Width and height of the canvas an image is drawn on, with the
    [wasResized] flag. *)
Record sized := { sz_width : Z; sz_height : Z; wasResized : bool }.

(** A position in the image, as the coordinate mappers return it. *)
Record coords := { co_x : Z; co_y : Z; co_valid : bool }.

(** An [ImageData]: its width and its bytes. *)
Record imageData := { img_width : Z; img_data : list Z }.

(** [a[i]] at an index computed from coordinates; an element read outside
    the array is [undefined], rendered [None]. *)
Definition at_index (a : list Z) (i : Z) : option Z :=
  if (i <? 0)%Z then None else a !! Z.to_nat i.

(** The four properties of a pixel read from an [ImageData]. *)
Record pixel := { px_r : option Z; px_g : option Z; px_b : option Z; px_a : option Z }.

(** The split view: the position of the divider in percent of the image
    width, and whether the handle is being dragged. *)
Record split := { splitPos : Q; isDragging : bool }.

(** The bounding rectangle of the displayed canvas, as far as the code
    reads it. *)
Record rect := { rect_left : Q; rect_width : Q; rect_height : Q }.

(** The events the split handle listens to. *)
Inductive split_event :=
| MouseDown
| TouchStart
| MouseMove (clientX : Q) (r : rect)
| TouchMove (clientX : Q) (r : rect)
| MouseUp
| TouchEnd
| ArrowLeft (shiftKey : bool)
| ArrowRight (shiftKey : bool).

(** ** worker.js *)

Module Worker.

Definition PAPER_PROFILES (p : paper) : profile :=
  match p with
  | coated =>
      {| prof_name := "Coated"; prof_dotGain := 0.15; inkLimit := 300;
         gamutReduction := 0; shadowGain := 0.8; highlightGain := 0.4 |}
  | uncoated =>
      {| prof_name := "Uncoated"; prof_dotGain := 0.22; inkLimit := 280;
         gamutReduction := 0.08; shadowGain := 1.0; highlightGain := 0.5 |}
  | newsprint =>
      {| prof_name := "Newsprint"; prof_dotGain := 0.30; inkLimit := 240;
         gamutReduction := 0.18; shadowGain := 1.3; highlightGain := 0.6 |}
  end.

Definition rgbToCmyk (r g b : Q) : cmyk :=
  let k := 1 - js_max3 r g b in
  if Qgeb k 1 then {| ch_c := 0; ch_m := 0; ch_y := 0; ch_k := 1 |}
  else
    let denom := 1 - k in
    {| ch_c := (1 - r - k) / denom;
       ch_m := (1 - g - k) / denom;
       ch_y := (1 - b - k) / denom;
       ch_k := k |}.

(** The same function with every division checked: [None] as soon as one is
    executed with a zero denominator. *)
Definition rgbToCmyk_checked (r g b : Q) : option cmyk :=
  let k := 1 - js_max3 r g b in
  if Qgeb k 1 then Some {| ch_c := 0; ch_m := 0; ch_y := 0; ch_k := 1 |}
  else
    let denom := 1 - k in
    c ← checked_div (1 - r - k) denom;
    m ← checked_div (1 - g - k) denom;
    y ← checked_div (1 - b - k) denom;
    Some {| ch_c := c; ch_m := m; ch_y := y; ch_k := k |}.

Definition cmykToRgb (c m y k : Q) : rgb :=
  {| ch_r := js_round (255 * (1 - c) * (1 - k));
     ch_g := js_round (255 * (1 - m) * (1 - k));
     ch_b := js_round (255 * (1 - y) * (1 - k)) |}.

Section WithMath.
Context {M : MathLib}.

Definition applyDotGain (value gain shadowGain highlightGain : Q) : Q :=
  if Qle_bool value 0 then 0
  else if Qgeb value 1 then 1
  else
    let midtoneBoost := sin_pi value in
    let positionalWeight :=
      if Qltb value 0.5
      then highlightGain + (shadowGain - highlightGain) * (value * 2)
      else shadowGain - (shadowGain - highlightGain) * ((value - 0.5) * 2) in
    js_min 1 (js_max 0 (value + gain * midtoneBoost * positionalWeight)).

End WithMath.

Definition isOutOfGamut (r g b : Z) (paperType : paper) : bool :=
  let profile := PAPER_PROFILES paperType in
  let rn := inject_Z r / 255 in
  let gn := inject_Z g / 255 in
  let bn := inject_Z b / 255 in
  let max := js_max3 rn gn bn in
  let min := js_min3 rn gn bn in
  let lightness := (max + min) / 2 in
  let saturation :=
    if Qeq_bool max min then 0
    else (max - min) / (if Qgtb lightness 0.5 then 2 - max - min else max + min) in
  let hue :=
    if negb (Qeq_bool max min) then
      let d := max - min in
      if Qeq_bool max rn then ((gn - bn) / d + (if Qltb gn bn then 6 else 0)) / 6
      else if Qeq_bool max gn then ((bn - rn) / d + 2) / 6
      else ((rn - gn) / d + 4) / 6
    else 0 in
  let gamutThreshold := 0.82 - gamutReduction profile in
  let isNeonGreen := Qgtb hue 0.22 && Qltb hue 0.42 && Qgtb saturation 0.7 in
  let isElectricBlue :=
    Qgtb hue 0.55 && Qltb hue 0.72 && Qgtb saturation 0.75 && Qgtb lightness 0.3 in
  let isBrightOrange := Qgtb hue 0.05 && Qltb hue 0.12 && Qgtb saturation 0.85 in
  let gamutThreshold :=
    if isNeonGreen || isElectricBlue || isBrightOrange
    then gamutThreshold - 0.12 else gamutThreshold in
  if Qltb lightness 0.08 || Qgtb lightness 0.94 then false
  else Qgtb saturation gamutThreshold.

(** One entry of the dominant-colour list. *)
Record dominant := {
  dom_r : Z; dom_g : Z; dom_b : Z;
  dom_c : Z; dom_m : Z; dom_y : Z; dom_k : Z
}.

(** The body of the sampling loop at pixel [i]. *)
Definition count_sample (pixels : list Z) (bs : buckets) (i : nat) : buckets :=
  let idx := (i * 4)%nat in
  if (get pixels (idx + 3) <? 128)%Z then bs
  else
    let r := quantize (get pixels idx) in
    let g := quantize (get pixels (idx + 1)) in
    let b := quantize (get pixels (idx + 2)) in
    bump (r, g, b) bs.

Definition to_dominant (e : (Z * Z * Z) * nat) : dominant :=
  let '((r, g, b), _) := e in
  let c := rgbToCmyk (inject_Z r / 255) (inject_Z g / 255) (inject_Z b / 255) in
  {| dom_r := r; dom_g := g; dom_b := b;
     dom_c := js_round (ch_c c * 100);
     dom_m := js_round (ch_m c * 100);
     dom_y := js_round (ch_y c * 100);
     dom_k := js_round (ch_k c * 100) |}.

Definition extractDominantColors (pixels : list Z) (sampleRate : nat) : list dominant :=
  let total := inject_Z (Z.of_nat (length pixels)) / 4 in
  let bs :=
    fold_left (count_sample pixels)
      (strided (length pixels) 0 sampleRate total) [] in
  map to_dominant (take 5 (sort_desc bs)).

(** The three stages that produce the ink values of one pixel. *)
Definition converted (r g b : Z) : cmyk :=
  rgbToCmyk (inject_Z r / 255) (inject_Z g / 255) (inject_Z b / 255).

Section Pipeline.
Context {M : MathLib}.

Definition shifted (gain : Q) (profile : profile) (raw : cmyk) : cmyk :=
  {| ch_c := applyDotGain (ch_c raw) gain (shadowGain profile) (highlightGain profile);
     ch_m := applyDotGain (ch_m raw) gain (shadowGain profile) (highlightGain profile);
     ch_y := applyDotGain (ch_y raw) gain (shadowGain profile) (highlightGain profile);
     ch_k := applyDotGain (ch_k raw) gain (shadowGain profile) (highlightGain profile) |}.

Definition inflated (profile : profile) (t : cmyk) : cmyk :=
  if Qgtb (gamutReduction profile) 0 then
    {| ch_c := js_min 1 (ch_c t + ch_c t * gamutReduction profile * 0.5);
       ch_m := js_min 1 (ch_m t + ch_m t * gamutReduction profile * 0.3);
       ch_y := js_min 1 (ch_y t + ch_y t * gamutReduction profile * 0.3);
       ch_k := ch_k t |}
  else t.

Definition inks (r g b : Z) (s : settings) : cmyk :=
  let profile := PAPER_PROFILES (paperType s) in
  inflated profile (shifted (set_dotGain s) profile (converted r g b)).

Definition totalCoverage (i : cmyk) : Q := (ch_c i + ch_m i + ch_y i + ch_k i) * 100.

(** [i % progressInterval === 0]; [i % 0] is NaN, which equals nothing. *)
Definition progress_due (i : nat) (progressInterval : Z) : bool :=
  if (progressInterval =? 0)%Z then false
  else (Z.of_nat i mod progressInterval =? 0)%Z.

(** The body of the pixel loop at pixel [i]. *)
Definition step (pixels : list Z) (s : settings) (pixelCount : Q)
    (progressInterval : Z) (st : loop_state) (i : nat) : loop_state :=
  let posted :=
    if progress_due i progressInterval
    then js_round ((inject_Z (Z.of_nat i) / pixelCount) * 100) :: progress st
    else progress st in
  let idx := (i * 4)%nat in
  let r := get pixels idx in
  let g := get pixels (idx + 1) in
  let b := get pixels (idx + 2) in
  let a := get pixels (idx + 3) in
  if (a =? 0)%Z then
    {| outputPixels :=
         put (put (put (put (outputPixels st) idx 255) (idx + 1) 255)
                (idx + 2) 255) (idx + 3) 255;
       gamutPixels := put (gamutPixels st) (idx + 3) 0;
       totalTAC := totalTAC st; maxTAC := maxTAC st;
       outOfGamutCount := outOfGamutCount st;
       processedCount := processedCount st;
       progress := posted |}
  else
    let ink := inks r g b s in
    let tac := totalCoverage ink in
    let oog := isOutOfGamut r g b (paperType s) in
    let fc := if showC s then ch_c ink else 0 in
    let fm := if showM s then ch_m ink else 0 in
    let fy := if showY s then ch_y ink else 0 in
    let fk := if showK s then ch_k ink else 0 in
    let rgb := cmykToRgb fc fm fy fk in
    {| outputPixels :=
         put (put (put (put (outputPixels st) idx (ch_r rgb)) (idx + 1) (ch_g rgb))
                (idx + 2) (ch_b rgb)) (idx + 3) a;
       gamutPixels :=
         if gamutOverlay s && oog then
           put (put (put (put (gamutPixels st) idx 220) (idx + 1) 38)
                  (idx + 2) 38) (idx + 3) 150
         else put (gamutPixels st) (idx + 3) 0;
       totalTAC := totalTAC st + tac;
       maxTAC := if Qgtb tac (maxTAC st) then tac else maxTAC st;
       outOfGamutCount := if oog then S (outOfGamutCount st) else outOfGamutCount st;
       processedCount := S (processedCount st);
       progress := posted |}.

(** The state after the whole loop. *)
Definition run_loop (pixels : list Z) (s : settings) : loop_state :=
  let pixelCount := inject_Z (Z.of_nat (length pixels)) / 4 in
  let progressInterval := Qfloor (pixelCount / 20) in
  fold_left (step pixels s pixelCount progressInterval)
    (seq 0 (loop_count pixelCount)) (initial (length pixels)).

(** The risk assessment, written inline at the end of [processImage]. *)
Definition assess (profile : profile) (maxTAC outOfGamutPercent : Q) : risk :=
  let limit := inkLimit profile in
  if Qgtb maxTAC (inject_Z limit + 30) || Qgtb outOfGamutPercent 25 then
    {| risk_level := danger; risk_label := "High Risk";
       risk_message :=
         "Max ink coverage (" ++ show_Z (js_round maxTAC) ++ "%) exceeds the "
         ++ show_Z limit ++ "% limit for " ++ prof_name profile
         ++ " paper. Printer may reject the file." |}
  else if Qgtb maxTAC (inject_Z limit) || Qgtb outOfGamutPercent 10 then
    {| risk_level := caution; risk_label := "Caution";
       risk_message :=
         "Some areas approach the " ++ show_Z limit ++ "% ink limit for "
         ++ prof_name profile ++ " paper. Review highlighted regions." |}
  else
    {| risk_level := safe; risk_label := "Looking Good";
       risk_message :=
         "Ink coverage is within acceptable range for " ++ prof_name profile
         ++ " paper. Always verify with ICC soft proof before final production." |}.

(** What [processImage] returns, with the progress notifications it posted
    on the way (in posting order). *)
Definition processImage (pixels : list Z) (s : settings) : list Z * result dominant :=
  let profile := PAPER_PROFILES (paperType s) in
  let st := run_loop pixels s in
  let avgTAC := average st in
  let outOfGamutPercent := gamutPercent st in
  let risk := assess profile (maxTAC st) outOfGamutPercent in
  let dominantColors := extractDominantColors pixels 8 in
  (rev (progress st),
   {| res_outputPixels := outputPixels st;
      res_gamutPixels := gamutPixels st;
      res_stats :=
        {| st_avgTAC := js_round avgTAC;
           st_maxTAC := js_round (maxTAC st);
           st_outOfGamutCount := Some (outOfGamutCount st);
           st_outOfGamutPercent := inject_Z (js_round (outOfGamutPercent * 10)) / 10;
           st_dominantColors := dominantColors;
           st_risk := risk;
           st_inkLimit := inkLimit profile |} |}).

End Pipeline.

(** *** The message handler *)

(** The [pixels] property of a request: a typed array, an [ArrayBuffer]
    (what arrives after a transfer), or nothing. *)
Inductive payload := Typed (a : list Z) | Buffer (a : list Z) | Missing.

Record request := {
  req_type : string;
  req_pixels : payload;
  req_settings : settings
}.

Inductive message :=
| Progress (percent : Z)
| Result (r : result dominant)
| Error (text : string).

(** [pixels instanceof Uint8ClampedArray ? pixels : new Uint8ClampedArray(pixels)];
    the array made from nothing is empty. *)
Definition pixelArray (p : payload) : list Z :=
  match p with
  | Typed a => a
  | Buffer a => a
  | Missing => []
  end.

Section Handler.
Context {M : MathLib}.

(** The [try] block: the messages it posts, or the text of the [Error] it
    throws. *)
Definition try_block (e : request) : string + list message :=
  let pixelArray := pixelArray (req_pixels e) in
  if (length pixelArray =? 0)%nat then
    inl "No pixel data received. Image may not have loaded correctly."%string
  else
    let '(percents, result) := processImage pixelArray (req_settings e) in
    inr (map Progress percents ++ [Result result]).

(** Every message the handler posts for one request, in order. *)
Definition onmessage (e : request) : list message :=
  if negb (String.eqb (req_type e) "process") then []
  else
    match try_block e with
    | inr posted => posted
    | inl text =>
        [Error (if String.eqb text EmptyString then "Unknown processing error"%string else text)]
    end.

End Handler.

End Worker.

(** ** colorEngine.js *)

Module ColorEngine.

(** The [description] of a profile is display text and is left out. *)
Definition PAPER_PROFILES (p : paper) : profile :=
  match p with
  | coated =>
      {| prof_name := "Coated"; prof_dotGain := 15; inkLimit := 300;
         gamutReduction := 0; shadowGain := 0.8; highlightGain := 0.4 |}
  | uncoated =>
      {| prof_name := "Uncoated"; prof_dotGain := 22; inkLimit := 280;
         gamutReduction := 0.08; shadowGain := 1.0; highlightGain := 0.5 |}
  | newsprint =>
      {| prof_name := "Newsprint"; prof_dotGain := 30; inkLimit := 240;
         gamutReduction := 0.18; shadowGain := 1.3; highlightGain := 0.6 |}
  end.

Definition rgbToCmyk (r g b : Q) : cmyk :=
  let k := 1 - js_max3 r g b in
  if Qeq_bool k 1 then {| ch_c := 0; ch_m := 0; ch_y := 0; ch_k := 1 |}
  else
    let denom := 1 - k in
    {| ch_c := (1 - r - k) / denom;
       ch_m := (1 - g - k) / denom;
       ch_y := (1 - b - k) / denom;
       ch_k := k |}.

(** The same function with every division checked. *)
Definition rgbToCmyk_checked (r g b : Q) : option cmyk :=
  let k := 1 - js_max3 r g b in
  if Qeq_bool k 1 then Some {| ch_c := 0; ch_m := 0; ch_y := 0; ch_k := 1 |}
  else
    let denom := 1 - k in
    c ← checked_div (1 - r - k) denom;
    m ← checked_div (1 - g - k) denom;
    y ← checked_div (1 - b - k) denom;
    Some {| ch_c := c; ch_m := m; ch_y := y; ch_k := k |}.

Definition cmykToRgb (c m y k : Q) : rgb :=
  {| ch_r := js_round (255 * (1 - c) * (1 - k));
     ch_g := js_round (255 * (1 - m) * (1 - k));
     ch_b := js_round (255 * (1 - y) * (1 - k)) |}.

Section WithMath.
Context {M : MathLib}.

Definition applyDotGain (value gain shadowGain highlightGain : Q) : Q :=
  if Qle_bool value 0 then 0
  else if Qgeb value 1 then 1
  else
    let midtoneBoost := sin_pi value in
    let positionalWeight :=
      if Qltb value 0.5
      then highlightGain + (shadowGain - highlightGain) * (value * 2)
      else shadowGain - (shadowGain - highlightGain) * ((value - 0.5) * 2) in
    let adjusted := value + gain * midtoneBoost * positionalWeight in
    js_min 1 (js_max 0 adjusted).

End WithMath.

Definition isOutOfGamut (r g b : Z) (paperType : paper) : bool :=
  let profile := PAPER_PROFILES paperType in
  let rn := inject_Z r / 255 in
  let gn := inject_Z g / 255 in
  let bn := inject_Z b / 255 in
  let max := js_max3 rn gn bn in
  let min := js_min3 rn gn bn in
  let lightness := (max + min) / 2 in
  let saturation :=
    if Qeq_bool max min then 0
    else (max - min) / (if Qgtb lightness 0.5 then 2 - max - min else max + min) in
  let hue :=
    if negb (Qeq_bool max min) then
      let d := max - min in
      if Qeq_bool max rn then ((gn - bn) / d + (if Qltb gn bn then 6 else 0)) / 6
      else if Qeq_bool max gn then ((bn - rn) / d + 2) / 6
      else ((rn - gn) / d + 4) / 6
    else 0 in
  let gamutThreshold := 0.82 - gamutReduction profile in
  let isNeonGreen := Qgtb hue 0.22 && Qltb hue 0.42 && Qgtb saturation 0.7 in
  let isElectricBlue :=
    Qgtb hue 0.55 && Qltb hue 0.72 && Qgtb saturation 0.75 && Qgtb lightness 0.3 in
  let isBrightOrange := Qgtb hue 0.05 && Qltb hue 0.12 && Qgtb saturation 0.85 in
  let gamutThreshold :=
    if isNeonGreen || isElectricBlue || isBrightOrange
    then gamutThreshold - 0.12 else gamutThreshold in
  if Qltb lightness 0.08 || Qgtb lightness 0.94 then false
  else Qgtb saturation gamutThreshold.

Definition totalInkCoverage (c m y k : Q) : Q := (c + m + y + k) * 100.

Definition assessPrintRisk (avgTAC maxTAC outOfGamutPercent : Q) (paperType : paper) : risk :=
  let profile := PAPER_PROFILES paperType in
  let limit := inkLimit profile in
  if Qgtb maxTAC (inject_Z limit + 30) || Qgtb outOfGamutPercent 25 then
    {| risk_level := danger; risk_label := "High Risk";
       risk_message :=
         "Max ink coverage (" ++ show_Z (js_round maxTAC) ++ "%) exceeds "
         ++ show_Z limit ++ "% limit for " ++ prof_name profile
         ++ " paper. Printer may reject file or drying issues may occur." |}
  else if Qgtb maxTAC (inject_Z limit) || Qgtb outOfGamutPercent 10 then
    {| risk_level := caution; risk_label := "Caution";
       risk_message :=
         "Some areas approach or exceed the " ++ show_Z limit
         ++ "% ink limit. Review highlighted regions and consider reducing saturation in those areas." |}
  else
    {| risk_level := safe; risk_label := "Looking Good";
       risk_message :=
         "Ink coverage within acceptable range for " ++ prof_name profile
         ++ " paper. Always verify with ICC soft proof before final production." |}.

(** One entry of the dominant-colour list. *)
Record dominant := {
  dom_r : Z; dom_g : Z; dom_b : Z;
  dom_cmyk : cmyk;
  dom_count : nat
}.

(** The body of the sampling loop at pixel [i]. *)
Definition count_sample (pixels : list Z) (bs : buckets) (i : nat) : buckets :=
  let idx := (i * 4)%nat in
  let r := quantize (get pixels idx) in
  let g := quantize (get pixels (idx + 1)) in
  let b := quantize (get pixels (idx + 2)) in
  bump (r, g, b) bs.

Definition to_dominant (e : (Z * Z * Z) * nat) : dominant :=
  let '((r, g, b), count) := e in
  let cmyk := rgbToCmyk (inject_Z r / 255) (inject_Z g / 255) (inject_Z b / 255) in
  {| dom_r := r; dom_g := g; dom_b := b; dom_cmyk := cmyk; dom_count := count |}.

Definition extractDominantColors (pixels : list Z) (sampleRate : nat) : list dominant :=
  let total := inject_Z (Z.of_nat (length pixels)) / 4 in
  let bs :=
    fold_left (count_sample pixels)
      (strided (length pixels) 0 sampleRate total) [] in
  map to_dominant (take 5 (sort_desc bs)).

Definition converted (r g b : Z) : cmyk :=
  rgbToCmyk (inject_Z r / 255) (inject_Z g / 255) (inject_Z b / 255).

Section Pipeline.
Context {M : MathLib}.

Definition shifted (gain : Q) (profile : profile) (raw : cmyk) : cmyk :=
  {| ch_c := applyDotGain (ch_c raw) gain (shadowGain profile) (highlightGain profile);
     ch_m := applyDotGain (ch_m raw) gain (shadowGain profile) (highlightGain profile);
     ch_y := applyDotGain (ch_y raw) gain (shadowGain profile) (highlightGain profile);
     ch_k := applyDotGain (ch_k raw) gain (shadowGain profile) (highlightGain profile) |}.

Definition inflated (profile : profile) (t : cmyk) : cmyk :=
  if Qgtb (gamutReduction profile) 0 then
    {| ch_c := js_min 1 (ch_c t * (1 + gamutReduction profile * 0.5));
       ch_m := js_min 1 (ch_m t * (1 + gamutReduction profile * 0.3));
       ch_y := js_min 1 (ch_y t * (1 + gamutReduction profile * 0.3));
       ch_k := ch_k t |}
  else t.

Definition inks (r g b : Z) (s : settings) : cmyk :=
  let profile := PAPER_PROFILES (paperType s) in
  inflated profile (shifted (set_dotGain s) profile (converted r g b)).

(** The body of the pixel loop at pixel [i]. *)
Definition step (sourcePixels : list Z) (s : settings) (st : loop_state) (i : nat)
    : loop_state :=
  let idx := (i * 4)%nat in
  let r := get sourcePixels idx in
  let g := get sourcePixels (idx + 1) in
  let b := get sourcePixels (idx + 2) in
  let a := get sourcePixels (idx + 3) in
  if (a =? 0)%Z then
    {| outputPixels :=
         put (put (put (put (outputPixels st) idx 255) (idx + 1) 255)
                (idx + 2) 255) (idx + 3) 255;
       gamutPixels :=
         put (put (put (put (gamutPixels st) idx 255) (idx + 1) 255)
                (idx + 2) 255) (idx + 3) 0;
       totalTAC := totalTAC st; maxTAC := maxTAC st;
       outOfGamutCount := outOfGamutCount st;
       processedCount := processedCount st;
       progress := progress st |}
  else
    let ink := inks r g b s in
    let fc := if showC s then ch_c ink else 0 in
    let fm := if showM s then ch_m ink else 0 in
    let fy := if showY s then ch_y ink else 0 in
    let fk := if showK s then ch_k ink else 0 in
    let tac := totalInkCoverage (ch_c ink) (ch_m ink) (ch_y ink) (ch_k ink) in
    let oog := isOutOfGamut r g b (paperType s) in
    let rgb := cmykToRgb fc fm fy fk in
    {| outputPixels :=
         put (put (put (put (outputPixels st) idx (ch_r rgb)) (idx + 1) (ch_g rgb))
                (idx + 2) (ch_b rgb)) (idx + 3) a;
       gamutPixels :=
         if gamutOverlay s && oog then
           put (put (put (put (gamutPixels st) idx 220) (idx + 1) 38)
                  (idx + 2) 38) (idx + 3) 140
         else
           put (put (put (put (gamutPixels st) idx 0) (idx + 1) 0)
                  (idx + 2) 0) (idx + 3) 0;
       totalTAC := totalTAC st + tac;
       maxTAC := if Qgtb tac (maxTAC st) then tac else maxTAC st;
       outOfGamutCount := if oog then S (outOfGamutCount st) else outOfGamutCount st;
       processedCount := S (processedCount st);
       progress := progress st |}.

Definition run_loop (sourcePixels : list Z) (s : settings) : loop_state :=
  let pixelCount := inject_Z (Z.of_nat (length sourcePixels)) / 4 in
  fold_left (step sourcePixels s)
    (seq 0 (loop_count pixelCount)) (initial (length sourcePixels)).

Definition processImage (sourcePixels : list Z) (s : settings) : result dominant :=
  let profile := PAPER_PROFILES (paperType s) in
  let st := run_loop sourcePixels s in
  let avgTAC := average st in
  let outOfGamutPercent := gamutPercent st in
  let dominantColors := extractDominantColors sourcePixels 8 in
  let risk := assessPrintRisk avgTAC (maxTAC st) outOfGamutPercent (paperType s) in
  {| res_outputPixels := outputPixels st;
     res_gamutPixels := gamutPixels st;
     res_stats :=
       {| st_avgTAC := js_round avgTAC;
          st_maxTAC := js_round (maxTAC st);
          st_outOfGamutCount := Some (outOfGamutCount st);
          st_outOfGamutPercent := inject_Z (js_round (outOfGamutPercent * 10)) / 10;
          st_dominantColors := dominantColors;
          st_risk := risk;
          st_inkLimit := inkLimit profile |} |}.

End Pipeline.

(** *** The hover picker *)

Section Picker.
Context {M : MathLib}.

Definition getPixelCmyk (r g b : Z) (paperType : paper) (dotGain : Q) : swatch :=
  let profile := PAPER_PROFILES paperType in
  let raw := rgbToCmyk (inject_Z r / 255) (inject_Z g / 255) (inject_Z b / 255) in
  let c := applyDotGain (ch_c raw) dotGain (shadowGain profile) (highlightGain profile) in
  let m := applyDotGain (ch_m raw) dotGain (shadowGain profile) (highlightGain profile) in
  let y := applyDotGain (ch_y raw) dotGain (shadowGain profile) (highlightGain profile) in
  let k := applyDotGain (ch_k raw) dotGain (shadowGain profile) (highlightGain profile) in
  {| sw_c := js_round (c * 100);
     sw_m := js_round (m * 100);
     sw_y := js_round (y * 100);
     sw_k := js_round (k * 100);
     sw_tac := js_round ((c + m + y + k) * 100) |}.

End Picker.

End ColorEngine.

(** ** main-demo.js *)

Module MainDemo.

(** The profile properties [sg] and [hg] are the fields [shadowGain] and
    [highlightGain]; [desc] is display text and is left out. *)
Definition PAPERS (p : paper) : profile :=
  match p with
  | coated =>
      {| prof_name := "Coated"; prof_dotGain := 0.15; inkLimit := 300;
         gamutReduction := 0; shadowGain := 0.8; highlightGain := 0.4 |}
  | uncoated =>
      {| prof_name := "Uncoated"; prof_dotGain := 0.22; inkLimit := 280;
         gamutReduction := 0.08; shadowGain := 1.0; highlightGain := 0.5 |}
  | newsprint =>
      {| prof_name := "Newsprint"; prof_dotGain := 0.30; inkLimit := 240;
         gamutReduction := 0.18; shadowGain := 1.3; highlightGain := 0.6 |}
  end.

Definition rgbToCmyk (r g b : Q) : cmyk :=
  let k := 1 - js_max3 r g b in
  if Qgeb k 1 then {| ch_c := 0; ch_m := 0; ch_y := 0; ch_k := 1 |}
  else
    let d := 1 - k in
    {| ch_c := (1 - r - k) / d; ch_m := (1 - g - k) / d;
       ch_y := (1 - b - k) / d; ch_k := k |}.

Definition cmykToRgb (c m y k : Q) : rgb :=
  {| ch_r := js_round (255 * (1 - c) * (1 - k));
     ch_g := js_round (255 * (1 - m) * (1 - k));
     ch_b := js_round (255 * (1 - y) * (1 - k)) |}.

Section WithMath.
Context {M : MathLib}.

Definition dotGain (v gain sg hg : Q) : Q :=
  if Qle_bool v 0 then 0
  else if Qgeb v 1 then 1
  else
    let mb := sin_pi v in
    let pw :=
      if Qltb v 0.5 then hg + (sg - hg) * (v * 2)
      else sg - (sg - hg) * ((v - 0.5) * 2) in
    js_min 1 (js_max 0 (v + gain * mb * pw)).

End WithMath.

Definition outOfGamut (r g b : Z) (pt : paper) : bool :=
  let p := PAPERS pt in
  let rn := inject_Z r / 255 in
  let gn := inject_Z g / 255 in
  let bn := inject_Z b / 255 in
  let mx := js_max3 rn gn bn in
  let mn := js_min3 rn gn bn in
  let li := (mx + mn) / 2 in
  let sat :=
    if Qeq_bool mx mn then 0
    else (mx - mn) / (if Qgtb li 0.5 then 2 - mx - mn else mx + mn) in
  let d := mx - mn in
  let hue :=
    if Qgtb d 0 then
      if Qeq_bool mx rn then ((gn - bn) / d + (if Qltb gn bn then 6 else 0)) / 6
      else if Qeq_bool mx gn then ((bn - rn) / d + 2) / 6
      else ((rn - gn) / d + 4) / 6
    else 0 in
  let thr := 0.82 - gamutReduction p in
  let thr :=
    if (Qgtb hue 0.22 && Qltb hue 0.42 && Qgtb sat 0.7)
       || (Qgtb hue 0.55 && Qltb hue 0.72 && Qgtb sat 0.75 && Qgtb li 0.3)
       || (Qgtb hue 0.05 && Qltb hue 0.12 && Qgtb sat 0.85)
    then thr - 0.12 else thr in
  if Qltb li 0.08 || Qgtb li 0.94 then false
  else Qgtb sat thr.

(** The body of the sampling loop at pixel [i]. *)
Definition count_sample (pixels : list Z) (bs : buckets) (i : nat) : buckets :=
  let idx := (i * 4)%nat in
  if (get pixels (idx + 3) <? 128)%Z then bs
  else
    let r := quantize (get pixels idx) in
    let g := quantize (get pixels (idx + 1)) in
    let b := quantize (get pixels (idx + 2)) in
    bump (r, g, b) bs.

Definition to_dominant (e : (Z * Z * Z) * nat) : Worker.dominant :=
  let '((r, g, b), _) := e in
  let raw := rgbToCmyk (inject_Z r / 255) (inject_Z g / 255) (inject_Z b / 255) in
  {| Worker.dom_r := r; Worker.dom_g := g; Worker.dom_b := b;
     Worker.dom_c := js_round (ch_c raw * 100);
     Worker.dom_m := js_round (ch_m raw * 100);
     Worker.dom_y := js_round (ch_y raw * 100);
     Worker.dom_k := js_round (ch_k raw * 100) |}.

Definition dominantColors (pixels : list Z) : list Worker.dominant :=
  let total := (length pixels / 4)%nat in
  let bs :=
    fold_left (count_sample pixels)
      (strided (length pixels) 0 10 (inject_Z (Z.of_nat total))) [] in
  map to_dominant (take 5 (sort_desc bs)).

Definition CHUNK_SIZE : N := 80000.

Section Pipeline.
Context {M : MathLib}.

(** The ink values [c], [m], [y], [k] that the loop body computes for a
    pixel of nonzero alpha. *)
Definition inks (r g b : Z) (s : settings) : cmyk :=
  let p := PAPERS (paperType s) in
  let gain := set_dotGain s in
  let raw := rgbToCmyk (inject_Z r / 255) (inject_Z g / 255) (inject_Z b / 255) in
  let c := dotGain (ch_c raw) gain (shadowGain p) (highlightGain p) in
  let m := dotGain (ch_m raw) gain (shadowGain p) (highlightGain p) in
  let y := dotGain (ch_y raw) gain (shadowGain p) (highlightGain p) in
  let k := dotGain (ch_k raw) gain (shadowGain p) (highlightGain p) in
  if Qgtb (gamutReduction p) 0 then
    {| ch_c := js_min 1 (c + c * gamutReduction p * 0.5);
       ch_m := js_min 1 (m + m * gamutReduction p * 0.3);
       ch_y := js_min 1 (y + y * gamutReduction p * 0.3);
       ch_k := k |}
  else {| ch_c := c; ch_m := m; ch_y := y; ch_k := k |}.

(** The body of the pixel loop at pixel [i]. *)
Definition step (src : list Z) (s : settings) (st : loop_state) (i : nat)
    : loop_state :=
  let idx := (i * 4)%nat in
  let r := get src idx in
  let g := get src (idx + 1) in
  let b := get src (idx + 2) in
  let a := get src (idx + 3) in
  if (a =? 0)%Z then
    {| outputPixels :=
         put (put (put (put (outputPixels st) idx 255) (idx + 1) 255)
                (idx + 2) 255) (idx + 3) 255;
       gamutPixels := put (gamutPixels st) (idx + 3) 0;
       totalTAC := totalTAC st; maxTAC := maxTAC st;
       outOfGamutCount := outOfGamutCount st;
       processedCount := processedCount st;
       progress := progress st |}
  else
    let ink := inks r g b s in
    let tac := (ch_c ink + ch_m ink + ch_y ink + ch_k ink) * 100 in
    let oog := outOfGamut r g b (paperType s) in
    let rgb :=
      cmykToRgb (if showC s then ch_c ink else 0) (if showM s then ch_m ink else 0)
        (if showY s then ch_y ink else 0) (if showK s then ch_k ink else 0) in
    {| outputPixels :=
         put (put (put (put (outputPixels st) idx (ch_r rgb)) (idx + 1) (ch_g rgb))
                (idx + 2) (ch_b rgb)) (idx + 3) a;
       gamutPixels :=
         if gamutOverlay s && oog then
           put (put (put (put (gamutPixels st) idx 220) (idx + 1) 38)
                  (idx + 2) 38) (idx + 3) 150
         else put (gamutPixels st) (idx + 3) 0;
       totalTAC := totalTAC st + tac;
       maxTAC := if Qgtb tac (maxTAC st) then tac else maxTAC st;
       outOfGamutCount := if oog then S (outOfGamutCount st) else outOfGamutCount st;
       processedCount := S (processedCount st);
       progress := progress st |}.

(** What [onDone] receives once the loop is over. *)
Definition done (src : list Z) (s : settings) (st : loop_state) : result Worker.dominant :=
  let p := PAPERS (paperType s) in
  let avgTAC := average st in
  let oogPct := gamutPercent st in
  let lim := inkLimit p in
  let risk :=
    if Qgtb (maxTAC st) (inject_Z lim + 30) || Qgtb oogPct 25 then
      {| risk_level := danger; risk_label := "High Risk";
         risk_message :=
           "Max ink coverage (" ++ show_Z (js_round (maxTAC st)) ++ "%) exceeds the "
           ++ show_Z lim ++ "% limit for " ++ prof_name p
           ++ " paper. Printer may reject the file." |}
    else if Qgtb (maxTAC st) (inject_Z lim) || Qgtb oogPct 10 then
      {| risk_level := caution; risk_label := "Caution";
         risk_message :=
           "Some areas approach the " ++ show_Z lim ++ "% ink limit for "
           ++ prof_name p ++ " paper. Review highlighted regions." |}
    else
      {| risk_level := safe; risk_label := "Looking Good";
         risk_message :=
           "Ink coverage is within acceptable range for " ++ prof_name p
           ++ " paper. Always verify with ICC soft proof before final production." |} in
  {| res_outputPixels := outputPixels st;
     res_gamutPixels := gamutPixels st;
     res_stats :=
       {| st_avgTAC := js_round avgTAC;
          st_maxTAC := js_round (maxTAC st);
          st_outOfGamutCount := None;
          st_outOfGamutPercent := inject_Z (js_round (oogPct * 10)) / 10;
          st_dominantColors := dominantColors src;
          st_risk := risk;
          st_inkLimit := lim |} |}.

(** [Math.round((i / count) * 100)]; [0 / 0] is NaN, rendered [None]. *)
Definition percent (i count : nat) : option Z :=
  if (count =? 0)%nat then None
  else Some (js_round ((inject_Z (Z.of_nat i) / inject_Z (Z.of_nat count)) * 100)).

(** The function [chunk], rescheduled by [setTimeout] until the last pixel:
    one unit of [fuel] per scheduled run.  The result holds the percentages
    handed to [onProgress] (latest first) and the argument of [onDone]. *)
Fixpoint chunk (fuel : nat) (src : list Z) (s : settings) (count : nat)
    (st : loop_state) (i : nat) (reported : list (option Z))
    : option (list (option Z) * result Worker.dominant) :=
  match fuel with
  | O => None
  | S fuel' =>
      let end_ := N.to_nat (N.min (N.of_nat i + CHUNK_SIZE) (N.of_nat count)) in
      let st := fold_left (step src s) (seq i (end_ - i)) st in
      let i := Nat.max i end_ in
      let reported := percent i count :: reported in
      if (i <? count)%nat then chunk fuel' src s count st i reported
      else Some (reported, done src s st)
  end.

Definition processPixels (src : list Z) (s : settings)
    : option (list (option Z) * result Worker.dominant) :=
  let count := (length src / 4)%nat in
  match chunk (S count) src s count (initial (length src)) 0 [] with
  | Some (reported, r) => Some (rev reported, r)
  | None => None
  end.

End Pipeline.

(** *** The hover picker *)

Section Picker.
Context {M : MathLib}.

(** The first version returns before its last three statements: its [tac]
    stays 0. *)
Definition getPixelCmyk (r g b : Z) (pt : paper) (gain : Q) : swatch :=
  let p := PAPERS pt in
  let raw := rgbToCmyk (inject_Z r / 255) (inject_Z g / 255) (inject_Z b / 255) in
  {| sw_c := js_round (dotGain (ch_c raw) gain (shadowGain p) (highlightGain p) * 100);
     sw_m := js_round (dotGain (ch_m raw) gain (shadowGain p) (highlightGain p) * 100);
     sw_y := js_round (dotGain (ch_y raw) gain (shadowGain p) (highlightGain p) * 100);
     sw_k := js_round (dotGain (ch_k raw) gain (shadowGain p) (highlightGain p) * 100);
     sw_tac := 0 |}.

Definition pixelCmyk (r g b : Z) (pt : paper) (gain : Q) : swatch :=
  let p := PAPERS pt in
  let raw := rgbToCmyk (inject_Z r / 255) (inject_Z g / 255) (inject_Z b / 255) in
  let c := js_round (dotGain (ch_c raw) gain (shadowGain p) (highlightGain p) * 100) in
  let m := js_round (dotGain (ch_m raw) gain (shadowGain p) (highlightGain p) * 100) in
  let y := js_round (dotGain (ch_y raw) gain (shadowGain p) (highlightGain p) * 100) in
  let k := js_round (dotGain (ch_k raw) gain (shadowGain p) (highlightGain p) * 100) in
  {| sw_c := c; sw_m := m; sw_y := y; sw_k := k; sw_tac := (c + m + y + k)%Z |}.

End Picker.

(** *** File intake *)

Definition MAX_DIM : Z := 1500.

(** The canvas size computed by the [onload] handler of [prepareFile] from
    [naturalWidth] and [naturalHeight]. *)
Definition canvas_size (naturalWidth naturalHeight : Z) : sized :=
  let w := naturalWidth in
  let h := naturalHeight in
  let wasResized := ((w >? MAX_DIM) || (h >? MAX_DIM))%Z in
  if wasResized then
    let scale := inject_Z MAX_DIM / js_max (inject_Z w) (inject_Z h) in
    {| sz_width := js_round (inject_Z w * scale);
       sz_height := js_round (inject_Z h * scale);
       wasResized := wasResized |}
  else {| sz_width := w; sz_height := h; wasResized := wasResized |}.


(** *** Coordinate mapping *)

(** [canvasCoords]; [rect_w] and [rect_h] are the size of the bounding
    rectangle, [width] and [height] the size of the canvas.  The divisions
    are exact; the sizes are positive wherever the statements use them. *)
Definition canvasCoords (rect_w rect_h : Q) (width height : Z) (clientX clientY : Q)
    : coords :=
  let scale := js_min (rect_w / inject_Z width) (rect_h / inject_Z height) in
  let rw := inject_Z width * scale in
  let rh := inject_Z height * scale in
  let ox := (rect_w - rw) / 2 in
  let oy := (rect_h - rh) / 2 in
  let relX := clientX - ox in
  let relY := clientY - oy in
  if Qltb relX 0 || Qltb relY 0 || Qgtb relX rw || Qgtb relY rh
  then {| co_x := 0; co_y := 0; co_valid := false |}
  else {| co_x := js_round (relX / scale); co_y := js_round (relY / scale);
          co_valid := true |}.

(** The pixel that the [mousemove] handler of [initColorPicker] reads:
    nothing when the pointer is outside the image.  The canvas has the
    width of the image data and the height [height]. *)
Definition hovered (rect_w rect_h : Q) (img : imageData) (height : Z)
    (clientX clientY : Q) : option pixel :=
  let coords := canvasCoords rect_w rect_h (img_width img) height clientX clientY in
  if negb (co_valid coords) then None
  else
    let x := Z.min (co_x coords) (img_width img - 1) in
    let y := Z.min (co_y coords) (height - 1) in
    let idx := ((y * img_width img + x) * 4)%Z in
    Some {| px_r := at_index (img_data img) idx;
            px_g := at_index (img_data img) (idx + 1);
            px_b := at_index (img_data img) (idx + 2);
            px_a := at_index (img_data img) (idx + 3) |}.

(** *** The split view *)

(** [move] and the [keydown] handler of [initSplitSlider]; [width] and
    [height] are the size of the canvas. *)
Definition move (width height : Z) (clientX : Q) (r : rect) (st : split) : split :=
  if negb (isDragging st) then st
  else
    let scale := js_min (rect_width r / inject_Z width) (rect_height r / inject_Z height) in
    let rw := inject_Z width * scale in
    let ox := (rect_width r - rw) / 2 in
    {| splitPos := js_min 100 (js_max 0 (((clientX - rect_left r - ox) / rw) * 100));
       isDragging := isDragging st |}.

Definition handle (width height : Z) (st : split) (e : split_event) : split :=
  match e with
  | MouseDown | TouchStart => {| splitPos := splitPos st; isDragging := true |}
  | MouseMove clientX r => move width height clientX r st
  | TouchMove clientX r =>
      if isDragging st then move width height clientX r st else st
  | MouseUp | TouchEnd => {| splitPos := splitPos st; isDragging := false |}
  | ArrowLeft shiftKey =>
      {| splitPos := js_max 0 (splitPos st - (if shiftKey then 10 else 1));
         isDragging := isDragging st |}
  | ArrowRight shiftKey =>
      {| splitPos := js_min 100 (splitPos st + (if shiftKey then 10 else 1));
         isDragging := isDragging st |}
  end.

(** The split view when the page is loaded. *)
Definition split_initial : split := {| splitPos := 50; isDragging := false |}.

(** The column [sx] at which [renderCanvas] divides the canvas. *)
Definition sx (width : Z) (st : split) : Z :=
  js_round ((splitPos st / 100) * inject_Z width).

(** *** The results panel *)

(** The width in percent and the class of the coverage bar set by
    [updateResults]. *)
Definition tacBar_width {D : Type} (s : stats D) : Q :=
  js_min 100 ((inject_Z (st_maxTAC s) / 400) * 100).

Definition tacBar_class {D : Type} (s : stats D) : level :=
  if (st_maxTAC s >? st_inkLimit s + 30)%Z then danger
  else if (st_maxTAC s >? st_inkLimit s)%Z then caution
  else safe.

End MainDemo.

(** ** main.js: the message handler of the inlined worker *)

Module InlineWorker.

(** main.js posts a [Uint8ClampedArray] in the [pixels] property; [None] is
    a request without it. *)
Record request := {
  req_type : string;
  req_pixels : option (list Z);
  req_settings : settings
}.

Section Handler.
(** The inlined copy of [processImage], which the handler calls once the
    pixels have passed its test. *)
Variable processImage : list Z -> settings -> list Z * result Worker.dominant.

(** The [try] block: the messages it posts, or the text of the [Error] it
    throws. *)
Definition try_block (e : request) : string + list Worker.message :=
  match req_pixels e with
  | None => inl "No pixel data received."%string
  | Some px =>
      if (length px =? 0)%nat then inl "No pixel data received."%string
      else
        let '(percents, result) := processImage px (req_settings e) in
        inr (map Worker.Progress percents ++ [Worker.Result result])
  end.

Definition onmessage (e : request) : list Worker.message :=
  if negb (String.eqb (req_type e) "process") then []
  else
    match try_block e with
    | inr posted => posted
    | inl text =>
        [Worker.Error
           (if String.eqb text EmptyString then "Unknown processing error"%string else text)]
    end.

End Handler.

End InlineWorker.

(** ** fileHandler.js *)

Module FileHandler.

Definition MAX_DIMENSION : Z := 1500.






Definition resizeImage (img : Z * Z) : sized :=
  let '(w, h) := img in
  let wasResized := ((w >? MAX_DIMENSION) || (h >? MAX_DIMENSION))%Z in
  if wasResized then
    let scale := inject_Z MAX_DIMENSION / js_max (inject_Z w) (inject_Z h) in
    {| sz_width := js_round (inject_Z w * scale);
       sz_height := js_round (inject_Z h * scale);
       wasResized := wasResized |}
  else {| sz_width := w; sz_height := h; wasResized := wasResized |}.


(** [displayW] and [displayH] are the size of the bounding rectangle of the
    canvas.  The divisions are exact; the sizes are positive wherever the
    statements use them. *)
Definition clientToImageCoords (displayW displayH : Q) (sourceWidth sourceHeight : Z)
    (clientX clientY : Q) : coords :=
  let scaleX := displayW / inject_Z sourceWidth in
  let scaleY := displayH / inject_Z sourceHeight in
  let scale := js_min scaleX scaleY in
  let renderedW := inject_Z sourceWidth * scale in
  let renderedH := inject_Z sourceHeight * scale in
  let offsetX := (displayW - renderedW) / 2 in
  let offsetY := (displayH - renderedH) / 2 in
  let relX := clientX - offsetX in
  let relY := clientY - offsetY in
  if Qltb relX 0 || Qltb relY 0 || Qgtb relX renderedW || Qgtb relY renderedH
  then {| co_x := 0; co_y := 0; co_valid := false |}
  else {| co_x := js_round (relX / scale); co_y := js_round (relY / scale);
          co_valid := true |}.

Definition getPixelAt (img : imageData) (x y : Z) : pixel :=
  let idx := ((y * img_width img + x) * 4)%Z in
  {| px_r := at_index (img_data img) idx;
     px_g := at_index (img_data img) (idx + 1);
     px_b := at_index (img_data img) (idx + 2);
     px_a := at_index (img_data img) (idx + 3) |}.

End FileHandler.

(** ** main.js: the functions of [WORKER_CODE] *)

Module WorkerCode.

Definition PAPER_PROFILES (p : paper) : profile :=
  match p with
  | coated =>
      {| prof_name := "Coated"; prof_dotGain := 0.15; inkLimit := 300;
         gamutReduction := 0; shadowGain := 0.8; highlightGain := 0.4 |}
  | uncoated =>
      {| prof_name := "Uncoated"; prof_dotGain := 0.22; inkLimit := 280;
         gamutReduction := 0.08; shadowGain := 1.0; highlightGain := 0.5 |}
  | newsprint =>
      {| prof_name := "Newsprint"; prof_dotGain := 0.30; inkLimit := 240;
         gamutReduction := 0.18; shadowGain := 1.3; highlightGain := 0.6 |}
  end.

Definition rgbToCmyk (r g b : Q) : cmyk :=
  let k := 1 - js_max3 r g b in
  if Qgeb k 1 then {| ch_c := 0; ch_m := 0; ch_y := 0; ch_k := 1 |}
  else
    let d := 1 - k in
    {| ch_c := (1 - r - k) / d;
       ch_m := (1 - g - k) / d;
       ch_y := (1 - b - k) / d;
       ch_k := k |}.

Definition cmykToRgb (c m y k : Q) : rgb :=
  {| ch_r := js_round (255 * (1 - c) * (1 - k));
     ch_g := js_round (255 * (1 - m) * (1 - k));
     ch_b := js_round (255 * (1 - y) * (1 - k)) |}.

Section WithMath.
Context {M : MathLib}.

Definition applyDotGain (v gain sg hg : Q) : Q :=
  if Qle_bool v 0 then 0
  else if Qgeb v 1 then 1
  else
    let mb := sin_pi v in
    let pw :=
      if Qltb v 0.5
      then hg + (sg - hg) * (v * 2)
      else sg - (sg - hg) * ((v - 0.5) * 2) in
    js_min 1 (js_max 0 (v + gain * mb * pw)).

End WithMath.

Definition isOutOfGamut (r g b : Z) (pt : paper) : bool :=
  let p := PAPER_PROFILES pt in
  let rn := inject_Z r / 255 in
  let gn := inject_Z g / 255 in
  let bn := inject_Z b / 255 in
  let mx := js_max3 rn gn bn in
  let mn := js_min3 rn gn bn in
  let li := (mx + mn) / 2 in
  let sat :=
    if Qeq_bool mx mn then 0
    else (mx - mn) / (if Qgtb li 0.5 then 2 - mx - mn else mx + mn) in
  let hue :=
    if negb (Qeq_bool mx mn) then
      let d := mx - mn in
      if Qeq_bool mx rn then ((gn - bn) / d + (if Qltb gn bn then 6 else 0)) / 6
      else if Qeq_bool mx gn then ((bn - rn) / d + 2) / 6
      else ((rn - gn) / d + 4) / 6
    else 0 in
  let thr := 0.82 - gamutReduction p in
  let thr :=
    if (Qgtb hue 0.22 && Qltb hue 0.42 && Qgtb sat 0.7)
       || (Qgtb hue 0.55 && Qltb hue 0.72 && Qgtb sat 0.75 && Qgtb li 0.3)
       || (Qgtb hue 0.05 && Qltb hue 0.12 && Qgtb sat 0.85)
    then thr - 0.12 else thr in
  if Qltb li 0.08 || Qgtb li 0.94 then false
  else Qgtb sat thr.

(** The body of the sampling loop at pixel [i]. *)
Definition count_sample (pixels : list Z) (bs : buckets) (i : nat) : buckets :=
  let idx := (i * 4)%nat in
  if (get pixels (idx + 3) <? 128)%Z then bs
  else
    let r := quantize (get pixels idx) in
    let g := quantize (get pixels (idx + 1)) in
    let bv := quantize (get pixels (idx + 2)) in
    bump (r, g, bv) bs.

Definition to_dominant (entry : (Z * Z * Z) * nat) : Worker.dominant :=
  let '((r, g, bv), _) := entry in
  let c := rgbToCmyk (inject_Z r / 255) (inject_Z g / 255) (inject_Z bv / 255) in
  {| Worker.dom_r := r; Worker.dom_g := g; Worker.dom_b := bv;
     Worker.dom_c := js_round (ch_c c * 100);
     Worker.dom_m := js_round (ch_m c * 100);
     Worker.dom_y := js_round (ch_y c * 100);
     Worker.dom_k := js_round (ch_k c * 100) |}.

Definition extractDominantColors (pixels : list Z) : list Worker.dominant :=
  let total := inject_Z (Z.of_nat (length pixels)) / 4 in
  let b := fold_left (count_sample pixels) (strided (length pixels) 0 8 total) [] in
  map to_dominant (take 5 (sort_desc b)).

Section Pipeline.
Context {M : MathLib}.

(** The ink values [c], [m], [y], [k] that the loop body computes for a
    pixel of nonzero alpha. *)
Definition inks (r g bv : Z) (s : settings) : cmyk :=
  let prof := PAPER_PROFILES (paperType s) in
  let dotGain := set_dotGain s in
  let cmyk := rgbToCmyk (inject_Z r / 255) (inject_Z g / 255) (inject_Z bv / 255) in
  let c := applyDotGain (ch_c cmyk) dotGain (shadowGain prof) (highlightGain prof) in
  let m := applyDotGain (ch_m cmyk) dotGain (shadowGain prof) (highlightGain prof) in
  let y := applyDotGain (ch_y cmyk) dotGain (shadowGain prof) (highlightGain prof) in
  let k := applyDotGain (ch_k cmyk) dotGain (shadowGain prof) (highlightGain prof) in
  if Qgtb (gamutReduction prof) 0 then
    {| ch_c := js_min 1 (c + c * gamutReduction prof * 0.5);
       ch_m := js_min 1 (m + m * gamutReduction prof * 0.3);
       ch_y := js_min 1 (y + y * gamutReduction prof * 0.3);
       ch_k := k |}
  else {| ch_c := c; ch_m := m; ch_y := y; ch_k := k |}.

(** The body of the pixel loop at pixel [i]; [interval] is at least 1. *)
Definition step (pixels : list Z) (s : settings) (count : nat) (interval : Z)
    (st : loop_state) (i : nat) : loop_state :=
  let posted :=
    if (Z.of_nat i mod interval =? 0)%Z
    then js_round ((inject_Z (Z.of_nat i) / inject_Z (Z.of_nat count)) * 100)
         :: progress st
    else progress st in
  let idx := (i * 4)%nat in
  let r := get pixels idx in
  let g := get pixels (idx + 1) in
  let bv := get pixels (idx + 2) in
  let a := get pixels (idx + 3) in
  if (a =? 0)%Z then
    {| outputPixels :=
         put (put (put (put (outputPixels st) idx 255) (idx + 1) 255)
                (idx + 2) 255) (idx + 3) 255;
       gamutPixels := put (gamutPixels st) (idx + 3) 0;
       totalTAC := totalTAC st; maxTAC := maxTAC st;
       outOfGamutCount := outOfGamutCount st;
       processedCount := processedCount st;
       progress := posted |}
  else
    let ink := inks r g bv s in
    let tac := (ch_c ink + ch_m ink + ch_y ink + ch_k ink) * 100 in
    let oog := isOutOfGamut r g bv (paperType s) in
    let rgb :=
      cmykToRgb (if showC s then ch_c ink else 0) (if showM s then ch_m ink else 0)
        (if showY s then ch_y ink else 0) (if showK s then ch_k ink else 0) in
    {| outputPixels :=
         put (put (put (put (outputPixels st) idx (ch_r rgb)) (idx + 1) (ch_g rgb))
                (idx + 2) (ch_b rgb)) (idx + 3) a;
       gamutPixels :=
         if gamutOverlay s && oog then
           put (put (put (put (gamutPixels st) idx 220) (idx + 1) 38)
                  (idx + 2) 38) (idx + 3) 150
         else put (gamutPixels st) (idx + 3) 0;
       totalTAC := totalTAC st + tac;
       maxTAC := if Qgtb tac (maxTAC st) then tac else maxTAC st;
       outOfGamutCount := if oog then S (outOfGamutCount st) else outOfGamutCount st;
       processedCount := S (processedCount st);
       progress := posted |}.

(** The state after the whole loop. *)
Definition run_loop (pixels : list Z) (s : settings) : loop_state :=
  let count := (length pixels / 4)%nat in
  let interval := Z.max 1 (Z.of_nat (count / 20)) in
  fold_left (step pixels s count interval) (seq 0 count) (initial (length pixels)).

(** What [processImage] returns, with the progress notifications it posted
    on the way (in posting order). *)
Definition processImage (pixels : list Z) (s : settings)
    : list Z * result Worker.dominant :=
  let prof := PAPER_PROFILES (paperType s) in
  let st := run_loop pixels s in
  let avgTAC := average st in
  let oogPct := gamutPercent st in
  let lim := inkLimit prof in
  let risk :=
    if Qgtb (maxTAC st) (inject_Z lim + 30) || Qgtb oogPct 25 then
      {| risk_level := danger; risk_label := "High Risk";
         risk_message :=
           "Max ink coverage (" ++ show_Z (js_round (maxTAC st)) ++ "%) exceeds the "
           ++ show_Z lim ++ "% limit for " ++ prof_name prof ++ " paper." |}
    else if Qgtb (maxTAC st) (inject_Z lim) || Qgtb oogPct 10 then
      {| risk_level := caution; risk_label := "Caution";
         risk_message :=
           "Some areas approach the " ++ show_Z lim ++ "% ink limit for "
           ++ prof_name prof ++ " paper. Review highlighted regions." |}
    else
      {| risk_level := safe; risk_label := "Looking Good";
         risk_message :=
           "Ink coverage is within acceptable range for " ++ prof_name prof
           ++ " paper. Always verify with ICC soft proof before final production." |} in
  (rev (progress st),
   {| res_outputPixels := outputPixels st;
      res_gamutPixels := gamutPixels st;
      res_stats :=
        {| st_avgTAC := js_round avgTAC;
           st_maxTAC := js_round (maxTAC st);
           st_outOfGamutCount := Some (outOfGamutCount st);
           st_outOfGamutPercent := inject_Z (js_round (oogPct * 10)) / 10;
           st_dominantColors := extractDominantColors pixels;
           st_risk := risk;
           st_inkLimit := lim |} |}).

(** The handler of the inlined worker, with its own [processImage]. *)
Definition onmessage (e : InlineWorker.request) : list Worker.message :=
  InlineWorker.onmessage processImage e.

End Pipeline.

End WorkerCode.

(** ** main.js: the page *)

Module Main.

(** The part of [state] and of the page that the worker's messages change:
    the progress overlay with the percentage it shows, and the text of the
    error banner. *)
Record page := {
  isProcessing : bool;
  processedPixels : option (list Z);
  shownOverlay : option (list Z);
  shownStats : option (stats Worker.dominant);
  progressHidden : bool;
  progressPercent : Z;
  errorText : option string
}.

(** [processWithCurrentSettings], once the timer fires on a page with an
    image and a worker: the state it leaves and the request it posts. *)
Definition processWithCurrentSettings (st : page) (src : list Z) (s : settings)
    : page * InlineWorker.request :=
  ({| isProcessing := true;
      processedPixels := processedPixels st;
      shownOverlay := shownOverlay st;
      shownStats := shownStats st;
      progressHidden := false;
      progressPercent := 0;
      errorText := errorText st |},
   {| InlineWorker.req_type := "process";
      InlineWorker.req_pixels := Some src;
      InlineWorker.req_settings :=
        {| paperType := paperType s; set_dotGain := set_dotGain s;
           showC := showC s; showM := showM s; showY := showY s; showK := showK s;
           gamutOverlay := gamutOverlay s |} |}).

Definition handleWorkerMessage (st : page) (data : Worker.message) : page :=
  match data with
  | Worker.Progress percent =>
      {| isProcessing := isProcessing st;
         processedPixels := processedPixels st;
         shownOverlay := shownOverlay st;
         shownStats := shownStats st;
         progressHidden := progressHidden st;
         progressPercent := percent;
         errorText := errorText st |}
  | Worker.Error message =>
      {| isProcessing := false;
         processedPixels := processedPixels st;
         shownOverlay := shownOverlay st;
         shownStats := shownStats st;
         progressHidden := true;
         progressPercent := progressPercent st;
         errorText := Some message |}
  | Worker.Result r =>
      {| isProcessing := false;
         processedPixels := Some (res_outputPixels r);
         shownOverlay := Some (res_gamutPixels r);
         shownStats := Some (res_stats r);
         progressHidden := true;
         progressPercent := progressPercent st;
         errorText := errorText st |}
  end.

(** *** The hover picker *)

(** The pixel that the [mousemove] handler of [initColorPicker] reads:
    nothing when the pointer is outside the image.  The canvas has the
    width of the image data and the height [height]. *)
Definition hovered (displayW displayH : Q) (img : imageData) (height : Z)
    (clientX clientY : Q) : option pixel :=
  let coords :=
    FileHandler.clientToImageCoords displayW displayH (img_width img) height
      clientX clientY in
  if negb (co_valid coords) then None
  else Some (FileHandler.getPixelAt img (Z.min (co_x coords) (img_width img - 1))
               (Z.min (co_y coords) (height - 1))).

End Main.

(** * Vocabulary of the statements *)

Definition in_unit (i : cmyk) : Prop :=
  0 <= ch_c i <= 1 /\ 0 <= ch_m i <= 1 /\ 0 <= ch_y i <= 1 /\ 0 <= ch_k i <= 1.

(** Conversion to inks, a tone shift of magnitude zero, and conversion back
    with all four channels shown: the value handed to [Math.round] is the
    source value scaled to 0..255, and the rounded channel is within 1 of
    it. *)
Definition round_trips (toCmyk : Q -> Q -> Q -> cmyk) (shift : Q -> Q -> Q -> Q -> Q)
    (toRgb : Q -> Q -> Q -> Q -> rgb) (r g b sg hg : Q) : Prop :=
  let raw := toCmyk r g b in
  let c := shift (ch_c raw) 0 sg hg in
  let m := shift (ch_m raw) 0 sg hg in
  let y := shift (ch_y raw) 0 sg hg in
  let k := shift (ch_k raw) 0 sg hg in
  let out := toRgb c m y k in
  (unrounded c k == 255 * r /\ unrounded m k == 255 * g /\ unrounded y k == 255 * b)
  /\ Qabs (inject_Z (ch_r out) - 255 * r) <= 1
  /\ Qabs (inject_Z (ch_g out) - 255 * g) <= 1
  /\ Qabs (inject_Z (ch_b out) - 255 * b) <= 1.

(** The three tiers, as a relation between the ink limit, the running
    maximum of the coverage, the out-of-gamut percentage and a level. *)
Definition three_tier (limit maxCoverage outOfGamutPercent : Q) (l : level) : Prop :=
  let high := maxCoverage > limit + 30 \/ outOfGamutPercent > 25 in
  let medium := maxCoverage > limit \/ outOfGamutPercent > 10 in
  (high -> l = danger)
  /\ (~ high -> medium -> l = caution)
  /\ (~ high -> ~ medium -> l = safe)
  /\ (maxCoverage > limit + 30 -> l = danger)
  /\ (maxCoverage <= limit -> outOfGamutPercent <= 10 -> l = safe).

(** The running statistics of a loop state. *)
Definition aggregates (st : loop_state) : Q * Q * nat * nat :=
  (totalTAC st, maxTAC st, outOfGamutCount st, processedCount st).

(** Everything of a loop state but the progress notifications. *)
Definition data (st : loop_state) : list Z * list Z * (Q * Q * nat * nat) :=
  (outputPixels st, gamutPixels st, aggregates st).

(** The settings that reach the statistics. *)
Definition same_inputs (s1 s2 : settings) : Prop :=
  paperType s1 = paperType s2 /\ set_dotGain s1 = set_dotGain s2.

(** The four bytes of pixel [i]. *)
Definition in_pixel (i j : nat) : Prop := (i * 4 <= j <= i * 4 + 3)%nat.

(** The pixel at [i] has an alpha different from 0. *)
Definition nontransparent (pixels : list Z) (i : nat) : bool :=
  negb (get pixels (i * 4 + 3) =? 0)%Z.

(** Pixel [i] of the two result buffers is opaque white in the output and
    has alpha 0 in the overlay. *)
Definition blanked (out gam : list Z) (i : nat) : Prop :=
  out !! (i * 4)%nat = Some 255%Z /\ out !! (i * 4 + 1)%nat = Some 255%Z
  /\ out !! (i * 4 + 2)%nat = Some 255%Z /\ out !! (i * 4 + 3)%nat = Some 255%Z
  /\ gam !! (i * 4 + 3)%nat = Some 0%Z.

(** Every pixel of the buffer has alpha 0. *)
Definition all_transparent (pixels : list Z) : Prop :=
  forall j, (j * 4 + 3 < length pixels)%nat -> get pixels (j * 4 + 3) = 0%Z.

(** Sample inputs: a red, a transparent and a dark pixel, shown in full and
    with only the black channel and the overlay. *)
Definition sample_pixels : list Z := [255; 0; 0; 255; 9; 9; 9; 0; 1; 0; 0; 255]%Z.

Definition all_shown : settings :=
  {| paperType := newsprint; set_dotGain := 0.30; showC := true; showM := true;
     showY := true; showK := true; gamutOverlay := false |}.

Definition black_only : settings :=
  {| paperType := newsprint; set_dotGain := 0.30; showC := false; showM := false;
     showY := false; showK := true; gamutOverlay := true |}.

(** Nine pixels: red, seven transparent ones, blue. *)
Definition two_tone : list Z :=
  ([255; 0; 0; 255] ++ concat (replicate 7 [0; 0; 0; 0]) ++ [0; 0; 255; 255])%Z.

(** ** Vocabulary of the further properties *)

(** The running statistics are consistent: the total is at most the
    maximum times the number of processed pixels, and the flagged pixels
    are among the processed ones. *)
Definition sane (st : loop_state) : Prop :=
  0 <= totalTAC st
  /\ totalTAC st <= maxTAC st * inject_Z (Z.of_nat (processedCount st))
  /\ (outOfGamutCount st <= processedCount st)%nat
  /\ 0 <= maxTAC st <= 300.

(** What the statistics record of a result promises to its reader. *)
Definition plausible {D : Type} (s : stats D) : Prop :=
  (0 <= st_avgTAC s <= st_maxTAC s)%Z /\ (st_maxTAC s <= 300)%Z
  /\ 0 <= st_outOfGamutPercent s <= 100.

(** Every element is a byte. *)
Definition byte_buffer (a : list Z) : Prop := Forall (fun v => (0 <= v <= 255)%Z) a.

(** Coated paper with its default magnitude, every channel shown. *)
Definition coated_plain : settings :=
  {| paperType := coated; set_dotGain := 0.15; showC := true; showM := true;
     showY := true; showK := true; gamutOverlay := false |}.

(** Coated paper without tone shift, every channel shown. *)
Definition neutral : settings :=
  {| paperType := coated; set_dotGain := 0; showC := true; showM := true;
     showY := true; showK := true; gamutOverlay := true |}.

(** An opaque image of three pixels. *)
Definition opaque_pixels : list Z :=
  [200; 30; 30; 255; 10; 120; 240; 128; 0; 0; 0; 1]%Z.

(** The sample buffer with its first two pixels changed. *)
Definition sample_variant : list Z := [0; 255; 0; 255; 7; 7; 7; 7; 1; 0; 0; 255]%Z.

(** No channel shown. *)
Definition all_hidden : settings :=
  {| paperType := uncoated; set_dotGain := 0.22; showC := false; showM := false;
     showY := false; showK := false; gamutOverlay := true |}.

(** A move of the pointer over a canvas that is displayed with a positive
    size. *)
Definition well_placed (e : split_event) : Prop :=
  match e with
  | MouseMove _ r | TouchMove _ r => 0 < rect_width r /\ 0 < rect_height r
  | _ => True
  end.

(** The three levels in increasing order of severity. *)
Definition severity (l : level) : nat :=
  match l with safe => 0 | caution => 1 | danger => 2 end.

(** An image of two pixels in one row. *)
Definition two_pixel_image : imageData :=
  {| img_width := 2; img_data := [255; 0; 0; 255; 0; 0; 255; 255]%Z |}.

(** The canvas displayed 120 wide and 80 high, its left edge at 10. *)
Definition shown_rect : rect := {| rect_left := 10; rect_width := 120; rect_height := 80 |}.

(** Grab the handle, drag it, release it, then two key strokes. *)
Definition drag_and_keys : list split_event :=
  [MouseDown; MouseMove 100 shown_rect; MouseUp; MouseMove 20 shown_rect;
   ArrowRight true; ArrowLeft false].

(** No element is larger than one after it. *)
Fixpoint ascending (l : list Z) : Prop :=
  match l with
  | [] => True
  | x :: rest => Forall (Z.le x) rest /\ ascending rest
  end.

(** An image of forty-one transparent pixels. *)
Definition forty_one_pixels : list Z := concat (replicate 41 [9; 9; 9; 0]%Z).

(** A quantized channel: a multiple of 32 from 0 to 256. *)
Definition shade (v : Z) : Prop := exists k, (0 <= k <= 8)%Z /\ v = (k * 32)%Z.

(** A bucket key made of quantized channels. *)
Definition shaded (key : Z * Z * Z) : Prop :=
  shade (fst (fst key)) /\ shade (snd (fst key)) /\ shade (snd key).

(** The colour of an entry of the dominant-colour list, and what the
    results panel expects of an entry: quantized channels and ink
    percentages. *)
Definition colour (d : Worker.dominant) : Z * Z * Z :=
  (Worker.dom_r d, Worker.dom_g d, Worker.dom_b d).

Definition entry_ok (d : Worker.dominant) : Prop :=
  shaded (colour d)
  /\ (0 <= Worker.dom_c d <= 100)%Z /\ (0 <= Worker.dom_m d <= 100)%Z
  /\ (0 <= Worker.dom_y d <= 100)%Z /\ (0 <= Worker.dom_k d <= 100)%Z.

(** No element is smaller than one after it. *)
Fixpoint descending (l : list nat) : Prop :=
  match l with
  | [] => True
  | x :: rest => Forall (fun y => (y <= x)%nat) rest /\ descending rest
  end.

(** The messages that end the answer to a request: a result or an error. *)
Definition terminal (m : Worker.message) : bool :=
  match m with
  | Worker.Progress _ => false
  | _ => true
  end.

(** The answer to a request: progress notifications, then one terminal
    message. *)
Definition answered (msgs : list Worker.message) : Prop :=
  exists earlier last,
    msgs = earlier ++ [last]
    /\ Forall (fun m => terminal m = false) earlier /\ terminal last = true.

(** The page before any image is processed. *)
Definition fresh_page : Main.page :=
  {| Main.isProcessing := false; Main.processedPixels := None;
     Main.shownOverlay := None; Main.shownStats := None;
     Main.progressHidden := true; Main.progressPercent := 0;
     Main.errorText := None |}.


(** What the tone shift needs of the host's sine: [Math.sin(Math.PI * v)]
    is not negative for [v] between 0 and 1. *)
Definition sine_not_negative (M : MathLib) : Prop :=
  forall v, 0 <= v <= 1 -> 0 <= sin_pi v.

(** * Verification *)

(** ** Comparisons and rounding *)

Lemma Qle_bool_spec (x y : Q) : reflect (x <= y) (Qle_bool x y).
Proof. apply iff_reflect. symmetry. apply Qle_bool_iff. Qed.

Lemma Qltb_spec (x y : Q) : reflect (x < y) (Qltb x y).
Proof.
  unfold Qltb. destruct (Qle_bool_spec y x); constructor; lra.
Qed.

Lemma Qeq_bool_spec (x y : Q) : reflect (x == y) (Qeq_bool x y).
Proof. apply iff_reflect. symmetry. apply Qeq_bool_iff. Qed.

(** Case analysis on every comparison of the goal. *)
Ltac qcases :=
  unfold Qgtb, Qgeb in *;
  repeat match goal with
  | |- context [Qltb ?x ?y] => destruct (Qltb_spec x y)
  | |- context [Qle_bool ?x ?y] => destruct (Qle_bool_spec x y)
  | |- context [Qeq_bool ?x ?y] => destruct (Qeq_bool_spec x y)
  end.

Lemma js_max_cases (x y : Q) :
  (x <= y /\ js_max x y = y) \/ (y < x /\ js_max x y = x).
Proof. unfold js_max. destruct (Qle_bool_spec x y); [left | right]; split; auto; lra. Qed.

Lemma js_min_cases (x y : Q) :
  (x <= y /\ js_min x y = x) \/ (y < x /\ js_min x y = y).
Proof. unfold js_min. destruct (Qle_bool_spec x y); [left | right]; split; auto; lra. Qed.

Lemma js_max3_cases (x y z : Q) :
  (js_max3 x y z = x \/ js_max3 x y z = y \/ js_max3 x y z = z)
  /\ x <= js_max3 x y z /\ y <= js_max3 x y z /\ z <= js_max3 x y z.
Proof.
  unfold js_max3.
  destruct (js_max_cases x y) as [[H1 E1] | [H1 E1]]; rewrite E1;
    destruct (js_max_cases x z) as [[H2 E2] | [H2 E2]];
    destruct (js_max_cases y z) as [[H3 E3] | [H3 E3]];
    rewrite ?E2, ?E3; repeat split; auto; lra.
Qed.

Lemma js_min3_cases (x y z : Q) :
  (js_min3 x y z = x \/ js_min3 x y z = y \/ js_min3 x y z = z)
  /\ js_min3 x y z <= x /\ js_min3 x y z <= y /\ js_min3 x y z <= z.
Proof.
  unfold js_min3.
  destruct (js_min_cases x y) as [[H1 E1] | [H1 E1]]; rewrite E1;
    destruct (js_min_cases x z) as [[H2 E2] | [H2 E2]];
    destruct (js_min_cases y z) as [[H3 E3] | [H3 E3]];
    rewrite ?E2, ?E3; repeat split; auto; lra.
Qed.

Lemma clamp_unit (x : Q) : 0 <= js_min 1 (js_max 0 x) <= 1.
Proof.
  destruct (js_max_cases 0 x) as [[H1 E1] | [H1 E1]]; rewrite E1;
    [destruct (js_min_cases 1 x) as [[H2 E2] | [H2 E2]]
    | destruct (js_min_cases 1 0) as [[H2 E2] | [H2 E2]]];
    rewrite E2; lra.
Qed.

Lemma clamp_id (x : Q) : 0 <= x <= 1 -> js_min 1 (js_max 0 x) == x.
Proof.
  intros H.
  destruct (js_max_cases 0 x) as [[H1 E1] | [H1 E1]]; rewrite E1;
    [destruct (js_min_cases 1 x) as [[H2 E2] | [H2 E2]]
    | destruct (js_min_cases 1 0) as [[H2 E2] | [H2 E2]]];
    rewrite E2; lra.
Qed.

Lemma js_round_bounds (x : Q) :
  x - (1#2) < inject_Z (js_round x) /\ inject_Z (js_round x) <= x + (1#2).
Proof.
  unfold js_round. split.
  - pose proof (Qlt_floor (x + (1#2))) as H.
    rewrite inject_Z_plus in H. change (inject_Z 1) with 1 in H. lra.
  - apply Qfloor_le.
Qed.

Lemma js_round_comp (x y : Q) : x == y -> js_round x = js_round y.
Proof. intros H. unfold js_round. apply Qfloor_comp. rewrite H. reflexivity. Qed.

Lemma js_round_inject (z : Z) : js_round (inject_Z z) = z.
Proof.
  pose proof (js_round_bounds (inject_Z z)) as [H1 H2].
  assert (L : (z - 1 < js_round (inject_Z z))%Z).
  { rewrite Zlt_Qlt. unfold Z.sub. rewrite inject_Z_plus, inject_Z_opp.
    change (inject_Z 1) with 1. lra. }
  assert (U : (js_round (inject_Z z) < z + 1)%Z).
  { rewrite Zlt_Qlt, inject_Z_plus. change (inject_Z 1) with 1. lra. }
  lia.
Qed.

(** A byte divided by 255 is a number of [0,1]. *)
Lemma byte_unit (v : Z) : (0 <= v <= 255)%Z -> 0 <= inject_Z v / 255 <= 1.
Proof.
  intros [L U]. rewrite Zle_Qle in L, U.
  change (inject_Z 0) with 0 in L. change (inject_Z 255) with 255 in U.
  split; [apply Qle_shift_div_l | apply Qle_shift_div_r]; lra.
Qed.

(** ** The tone-shift function *)

Section ToneShift.
Context {M : MathLib}.

Lemma Worker_applyDotGain_unit (v gain sg hg : Q) :
  0 <= Worker.applyDotGain v gain sg hg <= 1.
Proof.
  unfold Worker.applyDotGain. qcases; try lra; apply clamp_unit.
Qed.

Lemma ColorEngine_applyDotGain_unit (v gain sg hg : Q) :
  0 <= ColorEngine.applyDotGain v gain sg hg <= 1.
Proof.
  unfold ColorEngine.applyDotGain. qcases; try lra; apply clamp_unit.
Qed.

Lemma ColorEngine_applyDotGain_eq (v gain sg hg : Q) :
  ColorEngine.applyDotGain v gain sg hg = Worker.applyDotGain v gain sg hg.
Proof. reflexivity. Qed.

(** With a zero magnitude the tone shift leaves a value of [0,1] as it is. *)
Lemma Worker_applyDotGain_zero (v sg hg : Q) :
  0 <= v <= 1 -> Worker.applyDotGain v 0 sg hg == v.
Proof.
  intros H. unfold Worker.applyDotGain. qcases; try lra; rewrite clamp_id; lra.
Qed.

(** C8: for every magnitude and every pair of response values, the tone
    shift returns exactly 0 at 0 (and below) and exactly 1 at 1 (and
    above), and its result lies in [0,1] for every [v] of [0,1]; in
    worker.js and in colorEngine.js alike. *)
Theorem C8_applyDotGain_boundaries_and_range (v gain sg hg : Q) :
  (Worker.applyDotGain 0 gain sg hg = 0
   /\ Worker.applyDotGain 1 gain sg hg = 1
   /\ (v <= 0 -> Worker.applyDotGain v gain sg hg = 0)
   /\ (1 <= v -> Worker.applyDotGain v gain sg hg = 1)
   /\ (0 <= v <= 1 -> 0 <= Worker.applyDotGain v gain sg hg <= 1))
  /\
  (ColorEngine.applyDotGain 0 gain sg hg = 0
   /\ ColorEngine.applyDotGain 1 gain sg hg = 1
   /\ (v <= 0 -> ColorEngine.applyDotGain v gain sg hg = 0)
   /\ (1 <= v -> ColorEngine.applyDotGain v gain sg hg = 1)
   /\ (0 <= v <= 1 -> 0 <= ColorEngine.applyDotGain v gain sg hg <= 1)).
Proof.
  assert (B : Worker.applyDotGain 0 gain sg hg = 0
   /\ Worker.applyDotGain 1 gain sg hg = 1
   /\ (v <= 0 -> Worker.applyDotGain v gain sg hg = 0)
   /\ (1 <= v -> Worker.applyDotGain v gain sg hg = 1)
   /\ (0 <= v <= 1 -> 0 <= Worker.applyDotGain v gain sg hg <= 1)).
  { split; [reflexivity |]. split; [reflexivity |]. split; [| split].
    - intros H. unfold Worker.applyDotGain. qcases; try reflexivity; lra.
    - intros H. unfold Worker.applyDotGain. qcases; try reflexivity; lra.
    - intros _. apply Worker_applyDotGain_unit. }
  split; exact B.
Qed.

End ToneShift.

(** The claim at a midtone of the newsprint profile. *)
Lemma C8_witness :
  0 <= 0.5 <= 1
  /\ 0 <= @Worker.applyDotGain bhaskara 0.5 0.30 1.3 0.6 <= 1.
Proof.
  assert (H : 0 <= 0.5 <= 1) by (split; lra).
  split; [exact H |].
  exact (proj2 (proj2 (proj2 (proj2 (proj1
    (@C8_applyDotGain_boundaries_and_range bhaskara 0.5 0.30 1.3 0.6))))) H).
Defined.

(** ** The channel converter *)

(** The two guards, [k === 1] and [k >= 1], select the same branch as soon
    as no input is negative everywhere. *)
Lemma ColorEngine_rgbToCmyk_eq (r g b : Q) :
  0 <= js_max3 r g b -> ColorEngine.rgbToCmyk r g b = Worker.rgbToCmyk r g b.
Proof.
  intros H. unfold ColorEngine.rgbToCmyk, Worker.rgbToCmyk.
  qcases; try reflexivity; lra.
Qed.

Lemma checked_div_nonzero (x d : Q) : ~ d == 0 -> checked_div x d = Some (x / d).
Proof.
  intros H. unfold checked_div. destruct (Qeq_bool_spec d 0); [contradiction | reflexivity].
Qed.

Lemma Worker_rgbToCmyk_total (r g b : Q) :
  Worker.rgbToCmyk_checked r g b = Some (Worker.rgbToCmyk r g b).
Proof.
  unfold Worker.rgbToCmyk_checked, Worker.rgbToCmyk, Qgeb.
  destruct (Qle_bool_spec 1 (1 - js_max3 r g b)) as [H | H]; [reflexivity |].
  assert (D : ~ 1 - (1 - js_max3 r g b) == 0) by lra.
  rewrite !(checked_div_nonzero _ _ D). reflexivity.
Qed.

Lemma ColorEngine_rgbToCmyk_total (r g b : Q) :
  ColorEngine.rgbToCmyk_checked r g b = Some (ColorEngine.rgbToCmyk r g b).
Proof.
  unfold ColorEngine.rgbToCmyk_checked, ColorEngine.rgbToCmyk.
  destruct (Qeq_bool_spec (1 - js_max3 r g b) 1) as [H | H]; [reflexivity |].
  assert (D : ~ 1 - (1 - js_max3 r g b) == 0) by lra.
  rewrite !(checked_div_nonzero _ _ D). reflexivity.
Qed.

(** C9: [rgbToCmyk(0, 0, 0)] is exactly (0, 0, 0, 1), and for every [r],
    [g], [b] (those of [0,1] among them) no division of [rgbToCmyk] is
    executed with a zero denominator: the function with checked divisions
    returns the value of the function itself; in worker.js and in
    colorEngine.js alike. *)
Theorem C9_black_is_guarded (r g b : Q) :
  Worker.rgbToCmyk 0 0 0 = {| ch_c := 0; ch_m := 0; ch_y := 0; ch_k := 1 |}
  /\ ColorEngine.rgbToCmyk 0 0 0 = {| ch_c := 0; ch_m := 0; ch_y := 0; ch_k := 1 |}
  /\ Worker.rgbToCmyk_checked r g b = Some (Worker.rgbToCmyk r g b)
  /\ ColorEngine.rgbToCmyk_checked r g b = Some (ColorEngine.rgbToCmyk r g b).
Proof.
  split; [reflexivity |]. split; [reflexivity |].
  split; [apply Worker_rgbToCmyk_total | apply ColorEngine_rgbToCmyk_total].
Qed.

Lemma Worker_rgbToCmyk_unit (r g b : Q) :
  0 <= r <= 1 -> 0 <= g <= 1 -> 0 <= b <= 1 -> in_unit (Worker.rgbToCmyk r g b).
Proof.
  intros Hr Hg Hb. unfold Worker.rgbToCmyk, in_unit.
  destruct (js_max3_cases r g b) as (Hsel & Mr & Mg & Mb).
  set (mx := js_max3 r g b) in *.
  assert (Hmx : mx <= 1) by (destruct Hsel as [E | [E | E]]; rewrite E; lra).
  unfold Qgeb. destruct (Qle_bool_spec 1 (1 - mx)) as [H | H]; simpl.
  - repeat split; lra.
  - assert (P : 0 < 1 - (1 - mx)) by lra.
    repeat split;
      first [ apply Qle_shift_div_l; [exact P | lra]
            | apply Qle_shift_div_r; [exact P | lra]
            | lra ].
Qed.

(** Before rounding, [cmykToRgb] undoes [rgbToCmyk] exactly. *)
Lemma Worker_round_trip_exact (r g b : Q) :
  0 <= r <= 1 -> 0 <= g <= 1 -> 0 <= b <= 1 ->
  let raw := Worker.rgbToCmyk r g b in
  unrounded (ch_c raw) (ch_k raw) == 255 * r
  /\ unrounded (ch_m raw) (ch_k raw) == 255 * g
  /\ unrounded (ch_y raw) (ch_k raw) == 255 * b.
Proof.
  intros Hr Hg Hb. unfold Worker.rgbToCmyk, unrounded.
  destruct (js_max3_cases r g b) as (Hsel & Mr & Mg & Mb).
  set (mx := js_max3 r g b) in *.
  unfold Qgeb. destruct (Qle_bool_spec 1 (1 - mx)) as [H | H]; simpl.
  - repeat split; nra.
  - repeat split; field; lra.
Qed.

Section RoundTrip.
Context {M : MathLib}.

Lemma js_round_near (x v : Q) : x == v -> Qabs (inject_Z (js_round x) - v) <= 1.
Proof.
  intros E. pose proof (js_round_bounds x) as [L U].
  apply Qabs_Qle_condition. split; lra.
Qed.

Lemma Worker_round_trips (r g b sg hg : Q) :
  0 <= r <= 1 -> 0 <= g <= 1 -> 0 <= b <= 1 ->
  round_trips Worker.rgbToCmyk Worker.applyDotGain Worker.cmykToRgb r g b sg hg.
Proof.
  intros Hr Hg Hb. unfold round_trips.
  destruct (Worker_rgbToCmyk_unit r g b Hr Hg Hb) as (Uc & Um & Uy & Uk).
  destruct (Worker_round_trip_exact r g b Hr Hg Hb) as (Er & Eg & Eb).
  set (raw := Worker.rgbToCmyk r g b) in *.
  pose proof (Worker_applyDotGain_zero (ch_c raw) sg hg Uc) as Zc.
  pose proof (Worker_applyDotGain_zero (ch_m raw) sg hg Um) as Zm.
  pose proof (Worker_applyDotGain_zero (ch_y raw) sg hg Uy) as Zy.
  pose proof (Worker_applyDotGain_zero (ch_k raw) sg hg Uk) as Zk.
  cbv zeta. unfold unrounded in *.
  assert (Xr : 255 * (1 - Worker.applyDotGain (ch_c raw) 0 sg hg)
                 * (1 - Worker.applyDotGain (ch_k raw) 0 sg hg) == 255 * r)
    by (rewrite Zc, Zk; exact Er).
  assert (Xg : 255 * (1 - Worker.applyDotGain (ch_m raw) 0 sg hg)
                 * (1 - Worker.applyDotGain (ch_k raw) 0 sg hg) == 255 * g)
    by (rewrite Zm, Zk; exact Eg).
  assert (Xb : 255 * (1 - Worker.applyDotGain (ch_y raw) 0 sg hg)
                 * (1 - Worker.applyDotGain (ch_k raw) 0 sg hg) == 255 * b)
    by (rewrite Zy, Zk; exact Eb).
  split; [auto |].
  unfold Worker.cmykToRgb; cbn [ch_r ch_g ch_b].
  split; [| split]; apply js_round_near; assumption.
Qed.

(** C3: for all [r], [g], [b] of [0,1], [rgbToCmyk] followed by a zero tone
    shift and [cmykToRgb] with every channel shown yields, before rounding,
    exactly 255 r, 255 g and 255 b, and after rounding a pixel within 1 of
    them on each channel; in colorEngine.js and in worker.js alike. *)
Theorem C3_round_trip (r g b sg hg : Q) :
  0 <= r <= 1 -> 0 <= g <= 1 -> 0 <= b <= 1 ->
  round_trips ColorEngine.rgbToCmyk ColorEngine.applyDotGain ColorEngine.cmykToRgb
    r g b sg hg
  /\ round_trips Worker.rgbToCmyk Worker.applyDotGain Worker.cmykToRgb r g b sg hg.
Proof.
  intros Hr Hg Hb.
  pose proof (Worker_round_trips r g b sg hg Hr Hg Hb) as W.
  split; [| exact W].
  assert (E : ColorEngine.rgbToCmyk r g b = Worker.rgbToCmyk r g b).
  { apply ColorEngine_rgbToCmyk_eq.
    destruct (js_max3_cases r g b) as (_ & Mr & _). lra. }
  unfold round_trips. rewrite E.
  change ColorEngine.applyDotGain with Worker.applyDotGain.
  change ColorEngine.cmykToRgb with Worker.cmykToRgb.
  exact W.
Qed.

(** On an 8-bit pixel the round trip gives the pixel back. *)
Lemma Worker_round_trip_bytes (r g b : Z) (sg hg : Q) :
  (0 <= r <= 255)%Z -> (0 <= g <= 255)%Z -> (0 <= b <= 255)%Z ->
  let raw := Worker.converted r g b in
  Worker.cmykToRgb (Worker.applyDotGain (ch_c raw) 0 sg hg)
    (Worker.applyDotGain (ch_m raw) 0 sg hg)
    (Worker.applyDotGain (ch_y raw) 0 sg hg)
    (Worker.applyDotGain (ch_k raw) 0 sg hg)
  = {| ch_r := r; ch_g := g; ch_b := b |}.
Proof.
  intros Hr Hg Hb.
  destruct (Worker_round_trips (inject_Z r / 255) (inject_Z g / 255)
              (inject_Z b / 255) sg hg (byte_unit r Hr) (byte_unit g Hg)
              (byte_unit b Hb))
    as ((Er & Eg & Eb) & _).
  unfold Worker.converted. cbv zeta. unfold Worker.cmykToRgb, unrounded in *.
  f_equal; [transitivity (js_round (inject_Z r)) | transitivity (js_round (inject_Z g))
           | transitivity (js_round (inject_Z b))]; try apply js_round_inject.
  - apply js_round_comp. rewrite Er. field.
  - apply js_round_comp. rewrite Eg. field.
  - apply js_round_comp. rewrite Eb. field.
Qed.

End RoundTrip.

(** The claim at a mid grey-blue, under the uncoated response values. *)
Lemma C3_witness :
  (0 <= 0.2 <= 1 /\ 0 <= 0.5 <= 1 /\ 0 <= 0.9 <= 1)
  /\ round_trips Worker.rgbToCmyk (@Worker.applyDotGain bhaskara) Worker.cmykToRgb
       0.2 0.5 0.9 1.0 0.5.
Proof.
  assert (Hr : 0 <= 0.2 <= 1) by (split; lra).
  assert (Hg : 0 <= 0.5 <= 1) by (split; lra).
  assert (Hb : 0 <= 0.9 <= 1) by (split; lra).
  split; [auto |].
  exact (proj2 (@C3_round_trip bhaskara 0.2 0.5 0.9 1.0 0.5 Hr Hg Hb)).
Defined.

(** ** Ink values of one pixel *)

Lemma coverage_bounds (i : cmyk) :
  in_unit i -> 0 <= (ch_c i + ch_m i + ch_y i + ch_k i) * 100 <= 400.
Proof. unfold in_unit. intros (Hc & Hm & Hy & Hk). split; lra. Qed.

Lemma inflate_unit (x f w : Q) :
  0 <= x <= 1 -> 0 <= f -> 0 <= w -> 0 <= js_min 1 (x + x * f * w) <= 1.
Proof.
  intros Hx Hf Hw.
  assert (P : 0 <= x * f * w) by (apply Qmult_le_0_compat; [nra | assumption]).
  destruct (js_min_cases 1 (x + x * f * w)) as [[H E] | [H E]]; rewrite E; split; lra.
Qed.

Section Inks.
Context {M : MathLib}.

Lemma Worker_shifted_unit (gain : Q) (p : profile) (raw : cmyk) :
  in_unit (Worker.shifted gain p raw).
Proof. unfold in_unit, Worker.shifted; simpl. repeat split; apply Worker_applyDotGain_unit. Qed.

Lemma Worker_inflated_unit (p : profile) (t : cmyk) :
  in_unit t -> in_unit (Worker.inflated p t).
Proof.
  intros (Hc & Hm & Hy & Hk). unfold Worker.inflated, Qgtb.
  destruct (Qltb_spec 0 (gamutReduction p)) as [G | G]; [| repeat split; tauto].
  unfold in_unit; cbn [ch_c ch_m ch_y ch_k].
  split; [| split; [| split]]; try assumption.
  - apply inflate_unit; [assumption | lra | lra].
  - apply inflate_unit; [assumption | lra | lra].
  - apply inflate_unit; [assumption | lra | lra].
Qed.

Lemma ColorEngine_shifted_unit (gain : Q) (p : profile) (raw : cmyk) :
  in_unit (ColorEngine.shifted gain p raw).
Proof.
  unfold in_unit, ColorEngine.shifted; simpl.
  repeat split; apply ColorEngine_applyDotGain_unit.
Qed.

Lemma ColorEngine_inflated_unit (p : profile) (t : cmyk) :
  in_unit t -> in_unit (ColorEngine.inflated p t).
Proof.
  intros (Hc & Hm & Hy & Hk). unfold ColorEngine.inflated, Qgtb.
  destruct (Qltb_spec 0 (gamutReduction p)) as [G | G]; [| repeat split; tauto].
  unfold in_unit; cbn [ch_c ch_m ch_y ch_k].
  assert (R : forall x f, 0 <= x <= 1 -> 0 <= f -> 0 <= js_min 1 (x * (1 + f)) <= 1).
  { intros x f Hx Hf.
    destruct (js_min_cases 1 (x * (1 + f))) as [[H E] | [H E]]; rewrite E; split; nra. }
  split; [| split; [| split]]; try assumption; apply R; try assumption; nra.
Qed.

Lemma Worker_converted_unit (r g b : Z) :
  (0 <= r <= 255)%Z -> (0 <= g <= 255)%Z -> (0 <= b <= 255)%Z ->
  in_unit (Worker.converted r g b).
Proof.
  intros Hr Hg Hb. apply Worker_rgbToCmyk_unit; apply byte_unit; assumption.
Qed.

Lemma ColorEngine_converted_eq (r g b : Z) :
  (0 <= r <= 255)%Z -> ColorEngine.converted r g b = Worker.converted r g b.
Proof.
  intros Hr. apply ColorEngine_rgbToCmyk_eq.
  destruct (js_max3_cases (inject_Z r / 255) (inject_Z g / 255) (inject_Z b / 255))
    as (_ & Mr & _).
  pose proof (byte_unit r Hr). lra.
Qed.

(** C2: for every 8-bit pixel and every settings record, the ink values
    that the loop computes for a pixel of nonzero alpha lie in [0,1] after
    the conversion, after the tone shift and after the gamut-reduction
    inflation, and the total coverage of the pixel lies in [0,400]; in
    worker.js and in colorEngine.js alike. *)
Theorem C2_inks_in_range (r g b : Z) (s : settings) :
  (0 <= r <= 255)%Z -> (0 <= g <= 255)%Z -> (0 <= b <= 255)%Z ->
  (in_unit (Worker.converted r g b)
   /\ in_unit (Worker.shifted (set_dotGain s) (Worker.PAPER_PROFILES (paperType s))
                 (Worker.converted r g b))
   /\ in_unit (Worker.inks r g b s)
   /\ 0 <= Worker.totalCoverage (Worker.inks r g b s) <= 400)
  /\
  (in_unit (ColorEngine.converted r g b)
   /\ in_unit (ColorEngine.shifted (set_dotGain s)
                 (ColorEngine.PAPER_PROFILES (paperType s))
                 (ColorEngine.converted r g b))
   /\ in_unit (ColorEngine.inks r g b s)
   /\ 0 <= ColorEngine.totalInkCoverage (ch_c (ColorEngine.inks r g b s))
             (ch_m (ColorEngine.inks r g b s)) (ch_y (ColorEngine.inks r g b s))
             (ch_k (ColorEngine.inks r g b s)) <= 400).
Proof.
  intros Hr Hg Hb. split.
  - assert (I : in_unit (Worker.inks r g b s))
      by (apply Worker_inflated_unit, Worker_shifted_unit).
    split; [apply Worker_converted_unit; assumption |].
    split; [apply Worker_shifted_unit |].
    split; [exact I | apply coverage_bounds, I].
  - assert (I : in_unit (ColorEngine.inks r g b s))
      by (apply ColorEngine_inflated_unit, ColorEngine_shifted_unit).
    split; [rewrite ColorEngine_converted_eq by assumption;
            apply Worker_converted_unit; assumption |].
    split; [apply ColorEngine_shifted_unit |].
    split; [exact I | apply coverage_bounds, I].
Qed.

End Inks.

(** The claim at an orange pixel on newsprint. *)
Lemma C2_witness :
  ((0 <= 230 <= 255)%Z /\ (0 <= 120 <= 255)%Z /\ (0 <= 15 <= 255)%Z)
  /\ 0 <= Worker.totalCoverage
            (@Worker.inks bhaskara 230 120 15
               {| paperType := newsprint; set_dotGain := 0.30; showC := true;
                  showM := false; showY := true; showK := true;
                  gamutOverlay := true |}) <= 400.
Proof.
  assert (Hr : (0 <= 230 <= 255)%Z) by lia.
  assert (Hg : (0 <= 120 <= 255)%Z) by lia.
  assert (Hb : (0 <= 15 <= 255)%Z) by lia.
  split; [auto |].
  exact (proj2 (proj2 (proj2 (proj1
    (@C2_inks_in_range bhaskara 230 120 15 _ Hr Hg Hb))))).
Defined.

(** ** The risk verdict *)

Lemma three_tier_intro (limit mx pct : Q) (l : level) :
  l = (if Qgtb mx (limit + 30) || Qgtb pct 25 then danger
       else if Qgtb mx limit || Qgtb pct 10 then caution else safe) ->
  three_tier limit mx pct l.
Proof.
  intros ->. unfold three_tier, Qgtb.
  destruct (Qltb_spec (limit + 30) mx), (Qltb_spec 25 pct),
    (Qltb_spec limit mx), (Qltb_spec 10 pct); simpl;
    repeat split; intros; try reflexivity; try tauto; lra.
Qed.

Lemma Worker_assess_level (p : profile) (mx pct : Q) :
  three_tier (inject_Z (inkLimit p)) mx pct (risk_level (Worker.assess p mx pct)).
Proof.
  apply three_tier_intro. unfold Worker.assess.
  destruct (Qgtb mx (inject_Z (inkLimit p) + 30) || Qgtb pct 25); [reflexivity |].
  destruct (Qgtb mx (inject_Z (inkLimit p)) || Qgtb pct 10); reflexivity.
Qed.

Lemma ColorEngine_assessPrintRisk_level (avg mx pct : Q) (p : paper) :
  three_tier (inject_Z (inkLimit (ColorEngine.PAPER_PROFILES p))) mx pct
    (risk_level (ColorEngine.assessPrintRisk avg mx pct p)).
Proof.
  apply three_tier_intro. unfold ColorEngine.assessPrintRisk. cbv zeta.
  set (lim := inject_Z (inkLimit (ColorEngine.PAPER_PROFILES p))).
  destruct (Qgtb mx (lim + 30) || Qgtb pct 25); [reflexivity |].
  destruct (Qgtb mx lim || Qgtb pct 10); reflexivity.
Qed.

Section Verdict.
Context {M : MathLib}.

(** C1: for every processed image the level of the risk verdict is the
    three-tier decision on the running maximum of the coverage and the
    out-of-gamut percentage against the ink limit of the substrate: danger
    if the maximum exceeds limit + 30 or the percentage exceeds 25,
    otherwise caution if the maximum exceeds the limit or the percentage
    exceeds 10, otherwise safe; in worker.js's [processImage], in
    colorEngine.js's [processImage] and in [assessPrintRisk] itself. *)
Theorem C1_risk_is_three_tier (pixels : list Z) (s : settings) (avg mx pct : Q) (p : paper) :
  three_tier (inject_Z (inkLimit (Worker.PAPER_PROFILES (paperType s))))
    (maxTAC (Worker.run_loop pixels s)) (gamutPercent (Worker.run_loop pixels s))
    (risk_level (st_risk (res_stats (snd (Worker.processImage pixels s)))))
  /\ three_tier (inject_Z (inkLimit (ColorEngine.PAPER_PROFILES (paperType s))))
       (maxTAC (ColorEngine.run_loop pixels s))
       (gamutPercent (ColorEngine.run_loop pixels s))
       (risk_level (st_risk (res_stats (ColorEngine.processImage pixels s))))
  /\ three_tier (inject_Z (inkLimit (ColorEngine.PAPER_PROFILES p))) mx pct
       (risk_level (ColorEngine.assessPrintRisk avg mx pct p)).
Proof.
  split; [| split].
  - apply Worker_assess_level.
  - apply ColorEngine_assessPrintRisk_level.
  - apply ColorEngine_assessPrintRisk_level.
Qed.

End Verdict.

(** The verdict on one opaque dark pixel on newsprint: the coverage passes
    the limit of 240 by more than 30. *)
Lemma C1_witness :
  maxTAC (@Worker.run_loop bhaskara [1; 0; 0; 255]%Z
            {| paperType := newsprint; set_dotGain := 0.30; showC := true;
               showM := true; showY := true; showK := true; gamutOverlay := false |})
    > inject_Z 240 + 30
  /\ risk_level (st_risk (res_stats (snd (@Worker.processImage bhaskara [1; 0; 0; 255]%Z
            {| paperType := newsprint; set_dotGain := 0.30; showC := true;
               showM := true; showY := true; showK := true; gamutOverlay := false |}))))
     = danger.
Proof.
  assert (H : maxTAC (@Worker.run_loop bhaskara [1; 0; 0; 255]%Z
            {| paperType := newsprint; set_dotGain := 0.30; showC := true;
               showM := true; showY := true; showK := true; gamutOverlay := false |})
    > inject_Z 240 + 30) by (vm_compute; reflexivity).
  split; [exact H |].
  destruct (proj1 (@C1_risk_is_three_tier bhaskara [1; 0; 0; 255]%Z
            {| paperType := newsprint; set_dotGain := 0.30; showC := true;
               showM := true; showY := true; showK := true; gamutOverlay := false |}
            0 0 0 coated)) as (_ & _ & _ & D & _).
  exact (D H).
Defined.

(** ** The pixel loop *)

Lemma data_inv (st1 st2 : loop_state) :
  data st1 = data st2 ->
  outputPixels st1 = outputPixels st2 /\ gamutPixels st1 = gamutPixels st2
  /\ aggregates st1 = aggregates st2.
Proof.
  intros H. split; [| split].
  - exact (f_equal (fun d => fst (fst d)) H).
  - exact (f_equal (fun d => snd (fst d)) H).
  - exact (f_equal snd H).
Qed.

Lemma aggregates_maxTAC (st1 st2 : loop_state) :
  aggregates st1 = aggregates st2 -> maxTAC st1 = maxTAC st2.
Proof. intros H. exact (f_equal (fun a => snd (fst (fst a))) H). Qed.

Lemma aggregates_average (st1 st2 : loop_state) :
  aggregates st1 = aggregates st2 -> average st1 = average st2.
Proof. unfold aggregates, average. intros [= -> _ _ ->]. reflexivity. Qed.

Lemma aggregates_gamutPercent (st1 st2 : loop_state) :
  aggregates st1 = aggregates st2 -> gamutPercent st1 = gamutPercent st2.
Proof. unfold aggregates, gamutPercent. intros [= _ _ -> ->]. reflexivity. Qed.

(** Two loops whose bodies keep a relation between their states keep it to
    the end. *)
Lemma fold_left_related {A : Type} (R : loop_state -> loop_state -> Prop)
    (f1 f2 : loop_state -> A -> loop_state) (l : list A) :
  (forall st1 st2 i, R st1 st2 -> R (f1 st1 i) (f2 st2 i)) ->
  forall st1 st2, R st1 st2 -> R (fold_left f1 l st1) (fold_left f2 l st2).
Proof.
  intros Hstep. induction l as [| i l IH]; intros st1 st2 H; simpl; auto.
Qed.

Section Statistics.
Context {M : MathLib}.

Lemma Worker_inks_inputs (r g b : Z) (s1 s2 : settings) :
  same_inputs s1 s2 -> Worker.inks r g b s1 = Worker.inks r g b s2.
Proof. intros [P G]. unfold Worker.inks. rewrite P, G. reflexivity. Qed.

Lemma ColorEngine_inks_inputs (r g b : Z) (s1 s2 : settings) :
  same_inputs s1 s2 -> ColorEngine.inks r g b s1 = ColorEngine.inks r g b s2.
Proof. intros [P G]. unfold ColorEngine.inks. rewrite P, G. reflexivity. Qed.

Lemma Worker_step_aggregates (pixels : list Z) (s1 s2 : settings) (pc : Q) (pi : Z)
    (st1 st2 : loop_state) (i : nat) :
  same_inputs s1 s2 -> aggregates st1 = aggregates st2 ->
  aggregates (Worker.step pixels s1 pc pi st1 i)
  = aggregates (Worker.step pixels s2 pc pi st2 i).
Proof.
  intros S A. pose proof S as [P _]. unfold aggregates in A.
  injection A as A1 A2 A3 A4. unfold Worker.step. cbv zeta.
  destruct (get pixels (i * 4 + 3) =? 0)%Z; unfold aggregates;
    cbn [totalTAC maxTAC outOfGamutCount processedCount].
  - congruence.
  - rewrite (Worker_inks_inputs _ _ _ s1 s2 S), P, A1, A2, A3, A4. reflexivity.
Qed.

Lemma ColorEngine_step_aggregates (pixels : list Z) (s1 s2 : settings)
    (st1 st2 : loop_state) (i : nat) :
  same_inputs s1 s2 -> aggregates st1 = aggregates st2 ->
  aggregates (ColorEngine.step pixels s1 st1 i)
  = aggregates (ColorEngine.step pixels s2 st2 i).
Proof.
  intros S A. pose proof S as [P _]. unfold aggregates in A.
  injection A as A1 A2 A3 A4. unfold ColorEngine.step. cbv zeta.
  destruct (get pixels (i * 4 + 3) =? 0)%Z; unfold aggregates;
    cbn [totalTAC maxTAC outOfGamutCount processedCount].
  - congruence.
  - rewrite (ColorEngine_inks_inputs _ _ _ s1 s2 S), P, A1, A2, A3, A4. reflexivity.
Qed.

Lemma Worker_fold_aggregates (pixels : list Z) (s1 s2 : settings) (pc : Q) (pi : Z)
    (l : list nat) (st1 st2 : loop_state) :
  same_inputs s1 s2 -> aggregates st1 = aggregates st2 ->
  aggregates (fold_left (Worker.step pixels s1 pc pi) l st1)
  = aggregates (fold_left (Worker.step pixels s2 pc pi) l st2).
Proof.
  intros S.
  apply (fold_left_related (fun a b => aggregates a = aggregates b)).
  intros a b i. apply Worker_step_aggregates, S.
Qed.

Lemma ColorEngine_fold_aggregates (pixels : list Z) (s1 s2 : settings)
    (l : list nat) (st1 st2 : loop_state) :
  same_inputs s1 s2 -> aggregates st1 = aggregates st2 ->
  aggregates (fold_left (ColorEngine.step pixels s1) l st1)
  = aggregates (fold_left (ColorEngine.step pixels s2) l st2).
Proof.
  intros S.
  apply (fold_left_related (fun a b => aggregates a = aggregates b)).
  intros a b i. apply ColorEngine_step_aggregates, S.
Qed.

(** C10: for every pixel buffer, two settings records with the same paper
    type and the same tone-shift magnitude (so differing at most in the
    four visibility flags and the overlay flag) give the same statistics
    record; in worker.js and in colorEngine.js alike. *)
Theorem C10_statistics_ignore_display_flags (pixels : list Z) (s1 s2 : settings) :
  paperType s1 = paperType s2 -> set_dotGain s1 = set_dotGain s2 ->
  res_stats (snd (Worker.processImage pixels s1))
  = res_stats (snd (Worker.processImage pixels s2))
  /\ res_stats (ColorEngine.processImage pixels s1)
     = res_stats (ColorEngine.processImage pixels s2).
Proof.
  intros P G. assert (S : same_inputs s1 s2) by (split; assumption).
  split.
  - assert (A : aggregates (Worker.run_loop pixels s1)
                = aggregates (Worker.run_loop pixels s2))
      by (apply Worker_fold_aggregates; [exact S | reflexivity]).
    unfold Worker.processImage. cbv zeta. cbn [snd res_stats].
    rewrite (aggregates_average _ _ A), (aggregates_gamutPercent _ _ A), P.
    unfold aggregates in A. injection A as _ A2 A3 _. rewrite A2, A3. reflexivity.
  - assert (A : aggregates (ColorEngine.run_loop pixels s1)
                = aggregates (ColorEngine.run_loop pixels s2))
      by (apply ColorEngine_fold_aggregates; [exact S | reflexivity]).
    unfold ColorEngine.processImage. cbv zeta. cbn [res_stats].
    rewrite (aggregates_average _ _ A), (aggregates_gamutPercent _ _ A), P.
    unfold aggregates in A. injection A as _ A2 A3 _. rewrite A2, A3. reflexivity.
Qed.

End Statistics.

(** The coverage bound, carried through the loop: the running maximum stays
    within [0,400]. *)

Section CoverageBound.
Context {M : MathLib}.

Lemma Worker_maxTAC_bounded (pixels : list Z) (s : settings) :
  0 <= maxTAC (Worker.run_loop pixels s) <= 400.
Proof.
  unfold Worker.run_loop. cbv zeta.
  set (pc := inject_Z (Z.of_nat (length pixels)) / 4).
  generalize (seq 0 (loop_count pc)). intros l.
  assert (I : 0 <= maxTAC (initial (length pixels)) <= 400) by (simpl; lra).
  revert I. generalize (initial (length pixels)).
  induction l as [| i l IH]; intros st I; simpl; [exact I |].
  apply IH. unfold Worker.step. cbv zeta.
  destruct (get pixels (i * 4 + 3) =? 0)%Z; cbn [maxTAC]; [exact I |].
  assert (B : 0 <= Worker.totalCoverage
                     (Worker.inks (get pixels (i * 4)) (get pixels (i * 4 + 1))
                        (get pixels (i * 4 + 2)) s) <= 400)
    by (apply coverage_bounds, Worker_inflated_unit, Worker_shifted_unit).
  destruct (Qgtb _ (maxTAC st)); [exact B | exact I].
Qed.

Lemma ColorEngine_maxTAC_bounded (pixels : list Z) (s : settings) :
  0 <= maxTAC (ColorEngine.run_loop pixels s) <= 400.
Proof.
  unfold ColorEngine.run_loop. cbv zeta.
  generalize (seq 0 (loop_count (inject_Z (Z.of_nat (length pixels)) / 4))).
  intros l.
  assert (I : 0 <= maxTAC (initial (length pixels)) <= 400) by (simpl; lra).
  revert I. generalize (initial (length pixels)).
  induction l as [| i l IH]; intros st I; simpl; [exact I |].
  apply IH. unfold ColorEngine.step. cbv zeta.
  destruct (get pixels (i * 4 + 3) =? 0)%Z; cbn [maxTAC]; [exact I |].
  set (ink := ColorEngine.inks _ _ _ s).
  assert (B : 0 <= ColorEngine.totalInkCoverage (ch_c ink) (ch_m ink) (ch_y ink)
                     (ch_k ink) <= 400)
    by (apply coverage_bounds, ColorEngine_inflated_unit, ColorEngine_shifted_unit).
  destruct (Qgtb _ (maxTAC st)); [exact B | exact I].
Qed.

End CoverageBound.

Lemma C10_witness :
  (paperType all_shown = paperType black_only
   /\ set_dotGain all_shown = set_dotGain black_only)
  /\ res_stats (snd (@Worker.processImage bhaskara sample_pixels all_shown))
     = res_stats (snd (@Worker.processImage bhaskara sample_pixels black_only)).
Proof.
  split; [split; reflexivity |].
  exact (proj1 (@C10_statistics_ignore_display_flags bhaskara sample_pixels
                  all_shown black_only eq_refl eq_refl)).
Defined.

(** ** What the loop writes, and where *)

Lemma put_length (a : list Z) (i : nat) (v : Z) : length (put a i v) = length a.
Proof. apply length_insert. Qed.

Lemma put_lookup_ne (a : list Z) (i j : nat) (v : Z) :
  i <> j -> put a i v !! j = a !! j.
Proof. intros H. apply list_lookup_insert_ne, H. Qed.

Lemma put_lookup_eq (a : list Z) (i : nat) (v : Z) :
  (i < length a)%nat -> put a i v !! i = Some (clamp8 v).
Proof. intros H. apply list_lookup_insert_eq, H. Qed.

(** Rewriting with the three lemmas above. *)
Ltac puts :=
  unfold in_pixel in *;
  repeat first
    [ rewrite put_lookup_ne by lia
    | rewrite put_lookup_eq by (rewrite ?put_length; lia)
    | rewrite put_length ].

(** A loop whose body at [i] writes a buffer only inside pixel [i]. *)
Section Locality.
Variable buffer : loop_state -> list Z.
Variable body : loop_state -> nat -> loop_state.
Hypothesis body_length :
  forall st i, length (buffer (body st i)) = length (buffer st).
Hypothesis body_elsewhere :
  forall st i j, ~ in_pixel i j -> buffer (body st i) !! j = buffer st !! j.

Lemma loop_length (l : list nat) (st : loop_state) :
  length (buffer (fold_left body l st)) = length (buffer st).
Proof.
  revert st. induction l as [| i l IH]; intros st; simpl; [reflexivity |].
  rewrite IH. apply body_length.
Qed.

Lemma loop_elsewhere (l : list nat) (st : loop_state) (j : nat) :
  (forall i, In i l -> ~ in_pixel i j) ->
  buffer (fold_left body l st) !! j = buffer st !! j.
Proof.
  revert st. induction l as [| i l IH]; intros st H; simpl; [reflexivity |].
  rewrite IH by (intros i' Hi'; apply H; right; exact Hi').
  apply body_elsewhere, H. left. reflexivity.
Qed.

(** The byte that the body writes at pixel [i] is the one found after the
    whole loop. *)
Lemma loop_keeps_write (n i j : nat) (v : Z) (st0 : loop_state) :
  (i < n)%nat -> in_pixel i j ->
  (forall st, length (buffer st) = length (buffer st0) ->
              buffer (body st i) !! j = Some v) ->
  buffer (fold_left body (seq 0 n) st0) !! j = Some v.
Proof.
  intros Hi Hj Hw.
  replace n with (i + S (n - S i))%nat by lia.
  rewrite seq_app, fold_left_app. simpl.
  rewrite loop_elsewhere.
  - apply Hw, loop_length.
  - intros i' Hin. apply in_seq in Hin. unfold in_pixel in *. lia.
Qed.

End Locality.

Lemma seq_filter_nil (P : nat -> bool) (l : list nat) :
  (forall i, In i l -> P i = false) -> List.filter P l = [].
Proof.
  induction l as [| i l IH]; intros H; simpl; [reflexivity |].
  rewrite (H i) by (left; reflexivity). apply IH. intros i' Hi'. apply H. right. exact Hi'.
Qed.

(** On an RGBA buffer the loop of worker.js and colorEngine.js runs once
    per pixel. *)
Lemma loop_count_shaped (len : nat) :
  (len mod 4 = 0)%nat ->
  loop_count (inject_Z (Z.of_nat len) / 4) = (len / 4)%nat.
Proof.
  intros H. unfold loop_count.
  assert (E : len = (4 * (len / 4))%nat).
  { pose proof (Nat.div_mod_eq len 4). lia. }
  set (n := (len / 4)%nat) in *.
  assert (Q4 : inject_Z (Z.of_nat len) / 4 == inject_Z (Z.of_nat n)).
  { rewrite E, Nat2Z.inj_mul, inject_Z_mult. change (inject_Z (Z.of_nat 4)) with 4.
    field. }
  rewrite (Qceiling_comp _ _ Q4), Qceiling_Z. apply Nat2Z.id.
Qed.

Section Transparent.
Context {M : MathLib}.

Lemma Worker_out_length pixels s pc pi st i :
  length (outputPixels (Worker.step pixels s pc pi st i)) = length (outputPixels st).
Proof.
  unfold Worker.step. cbv zeta.
  destruct (get pixels (i * 4 + 3) =? 0)%Z; cbn [outputPixels]; puts; reflexivity.
Qed.

Lemma Worker_gam_length pixels s pc pi st i :
  length (gamutPixels (Worker.step pixels s pc pi st i)) = length (gamutPixels st).
Proof.
  unfold Worker.step. cbv zeta.
  destruct (get pixels (i * 4 + 3) =? 0)%Z; cbn [gamutPixels];
    [| destruct (gamutOverlay s && _)]; puts; reflexivity.
Qed.

Lemma Worker_out_elsewhere pixels s pc pi st i j :
  ~ in_pixel i j ->
  outputPixels (Worker.step pixels s pc pi st i) !! j = outputPixels st !! j.
Proof.
  intros H. unfold Worker.step. cbv zeta.
  destruct (get pixels (i * 4 + 3) =? 0)%Z; cbn [outputPixels]; puts; reflexivity.
Qed.

Lemma Worker_gam_elsewhere pixels s pc pi st i j :
  ~ in_pixel i j ->
  gamutPixels (Worker.step pixels s pc pi st i) !! j = gamutPixels st !! j.
Proof.
  intros H. unfold Worker.step. cbv zeta.
  destruct (get pixels (i * 4 + 3) =? 0)%Z; cbn [gamutPixels];
    [| destruct (gamutOverlay s && _)]; puts; reflexivity.
Qed.

Lemma Worker_step_transparent pixels s pc pi st i :
  get pixels (i * 4 + 3) = 0%Z ->
  aggregates (Worker.step pixels s pc pi st i) = aggregates st.
Proof. intros H. unfold Worker.step. cbv zeta. rewrite H. reflexivity. Qed.

Lemma Worker_skips_transparent pixels s pc pi (l : list nat) (st : loop_state) :
  aggregates (fold_left (Worker.step pixels s pc pi) l st)
  = aggregates (fold_left (Worker.step pixels s pc pi)
                  (List.filter (nontransparent pixels) l) st).
Proof.
  revert st. induction l as [| i l IH]; intros st; simpl; [reflexivity |].
  unfold nontransparent at 1.
  destruct (get pixels (i * 4 + 3) =? 0)%Z eqn:E; simpl.
  - rewrite <- IH. apply Worker_fold_aggregates; [split; reflexivity |].
    apply Worker_step_transparent, Z.eqb_eq, E.
  - apply IH.
Qed.

Lemma Worker_blanks pixels s (i : nat) :
  rgba_shaped pixels -> (i * 4 + 3 < length pixels)%nat ->
  get pixels (i * 4 + 3) = 0%Z ->
  blanked (res_outputPixels (snd (Worker.processImage pixels s)))
    (res_gamutPixels (snd (Worker.processImage pixels s))) i.
Proof.
  intros Hs Hi Ha. unfold Worker.processImage. cbv zeta.
  cbn [snd res_outputPixels res_gamutPixels]. unfold Worker.run_loop. cbv zeta.
  rewrite (loop_count_shaped _ Hs).
  assert (Hn : (i < length pixels / 4)%nat).
  { unfold rgba_shaped in Hs. pose proof (Nat.div_mod_eq (length pixels) 4). lia. }
  assert (W : forall j, in_pixel i j -> forall st,
             length (outputPixels st) = length (outputPixels (initial (length pixels))) ->
             outputPixels (Worker.step pixels s
               (inject_Z (Z.of_nat (length pixels)) / 4)
               (Qfloor (inject_Z (Z.of_nat (length pixels)) / 4 / 20)) st i) !! j
             = Some 255%Z).
  { intros j Hj st L. unfold Worker.step. cbv zeta. rewrite Ha.
    cbn [Z.eqb outputPixels]. unfold initial in L. cbn [outputPixels] in L.
    unfold new_array in L. rewrite length_replicate in L.
    unfold in_pixel in Hj.
    assert (C : j = (i * 4)%nat \/ j = (i * 4 + 1)%nat \/ j = (i * 4 + 2)%nat
                \/ j = (i * 4 + 3)%nat) by lia.
    destruct C as [-> | [-> | [-> | ->]]]; puts; reflexivity. }
  assert (G : forall st,
             length (gamutPixels st) = length (gamutPixels (initial (length pixels))) ->
             gamutPixels (Worker.step pixels s
               (inject_Z (Z.of_nat (length pixels)) / 4)
               (Qfloor (inject_Z (Z.of_nat (length pixels)) / 4 / 20)) st i)
               !! (i * 4 + 3)%nat
             = Some 0%Z).
  { intros st L. unfold Worker.step. cbv zeta. rewrite Ha.
    cbn [Z.eqb gamutPixels]. unfold initial in L. cbn [gamutPixels] in L.
    unfold new_array in L. rewrite length_replicate in L.
    puts; reflexivity. }
  unfold blanked.
  repeat split;
    first
      [ apply (loop_keeps_write outputPixels _ (Worker_out_length _ _ _ _)
                 (Worker_out_elsewhere _ _ _ _) _ i);
        [exact Hn | unfold in_pixel; lia | apply W; unfold in_pixel; lia]
      | apply (loop_keeps_write gamutPixels _ (Worker_gam_length _ _ _ _)
                 (Worker_gam_elsewhere _ _ _ _) _ i);
        [exact Hn | unfold in_pixel; lia | exact G] ].
Qed.

Lemma ColorEngine_out_length pixels s st i :
  length (outputPixels (ColorEngine.step pixels s st i)) = length (outputPixels st).
Proof.
  unfold ColorEngine.step. cbv zeta.
  destruct (get pixels (i * 4 + 3) =? 0)%Z; cbn [outputPixels]; puts; reflexivity.
Qed.

Lemma ColorEngine_gam_length pixels s st i :
  length (gamutPixels (ColorEngine.step pixels s st i)) = length (gamutPixels st).
Proof.
  unfold ColorEngine.step. cbv zeta.
  destruct (get pixels (i * 4 + 3) =? 0)%Z; cbn [gamutPixels];
    [| destruct (gamutOverlay s && _)]; puts; reflexivity.
Qed.

Lemma ColorEngine_out_elsewhere pixels s st i j :
  ~ in_pixel i j ->
  outputPixels (ColorEngine.step pixels s st i) !! j = outputPixels st !! j.
Proof.
  intros H. unfold ColorEngine.step. cbv zeta.
  destruct (get pixels (i * 4 + 3) =? 0)%Z; cbn [outputPixels]; puts; reflexivity.
Qed.

Lemma ColorEngine_gam_elsewhere pixels s st i j :
  ~ in_pixel i j ->
  gamutPixels (ColorEngine.step pixels s st i) !! j = gamutPixels st !! j.
Proof.
  intros H. unfold ColorEngine.step. cbv zeta.
  destruct (get pixels (i * 4 + 3) =? 0)%Z; cbn [gamutPixels];
    [| destruct (gamutOverlay s && _)]; puts; reflexivity.
Qed.

Lemma ColorEngine_step_transparent pixels s st i :
  get pixels (i * 4 + 3) = 0%Z ->
  aggregates (ColorEngine.step pixels s st i) = aggregates st.
Proof. intros H. unfold ColorEngine.step. cbv zeta. rewrite H. reflexivity. Qed.

Lemma ColorEngine_skips_transparent pixels s (l : list nat) (st : loop_state) :
  aggregates (fold_left (ColorEngine.step pixels s) l st)
  = aggregates (fold_left (ColorEngine.step pixels s)
                  (List.filter (nontransparent pixels) l) st).
Proof.
  revert st. induction l as [| i l IH]; intros st; simpl; [reflexivity |].
  unfold nontransparent at 1.
  destruct (get pixels (i * 4 + 3) =? 0)%Z eqn:E; simpl.
  - rewrite <- IH. apply ColorEngine_fold_aggregates; [split; reflexivity |].
    apply ColorEngine_step_transparent, Z.eqb_eq, E.
  - apply IH.
Qed.

Lemma ColorEngine_blanks pixels s (i : nat) :
  rgba_shaped pixels -> (i * 4 + 3 < length pixels)%nat ->
  get pixels (i * 4 + 3) = 0%Z ->
  blanked (res_outputPixels (ColorEngine.processImage pixels s))
    (res_gamutPixels (ColorEngine.processImage pixels s)) i.
Proof.
  intros Hs Hi Ha. unfold ColorEngine.processImage. cbv zeta.
  cbn [res_outputPixels res_gamutPixels]. unfold ColorEngine.run_loop. cbv zeta.
  rewrite (loop_count_shaped _ Hs).
  assert (Hn : (i < length pixels / 4)%nat).
  { unfold rgba_shaped in Hs. pose proof (Nat.div_mod_eq (length pixels) 4). lia. }
  assert (W : forall j, in_pixel i j -> forall st,
             length (outputPixels st) = length (outputPixels (initial (length pixels))) ->
             outputPixels (ColorEngine.step pixels s st i) !! j = Some 255%Z).
  { intros j Hj st L. unfold ColorEngine.step. cbv zeta. rewrite Ha.
    cbn [Z.eqb outputPixels]. unfold initial in L. cbn [outputPixels] in L.
    unfold new_array in L. rewrite length_replicate in L.
    unfold in_pixel in Hj.
    assert (C : j = (i * 4)%nat \/ j = (i * 4 + 1)%nat \/ j = (i * 4 + 2)%nat
                \/ j = (i * 4 + 3)%nat) by lia.
    destruct C as [-> | [-> | [-> | ->]]]; puts; reflexivity. }
  assert (G : forall st,
             length (gamutPixels st) = length (gamutPixels (initial (length pixels))) ->
             gamutPixels (ColorEngine.step pixels s st i) !! (i * 4 + 3)%nat
             = Some 0%Z).
  { intros st L. unfold ColorEngine.step. cbv zeta. rewrite Ha.
    cbn [Z.eqb gamutPixels]. unfold initial in L. cbn [gamutPixels] in L.
    unfold new_array in L. rewrite length_replicate in L.
    puts; reflexivity. }
  unfold blanked.
  repeat split;
    first
      [ apply (loop_keeps_write outputPixels _ (ColorEngine_out_length _ _)
                 (ColorEngine_out_elsewhere _ _) _ i);
        [exact Hn | unfold in_pixel; lia | apply W; unfold in_pixel; lia]
      | apply (loop_keeps_write gamutPixels _ (ColorEngine_gam_length _ _)
                 (ColorEngine_gam_elsewhere _ _) _ i);
        [exact Hn | unfold in_pixel; lia | exact G] ].
Qed.

(** A request with a non-empty typed array is answered by the progress
    notifications of [processImage] and then its result. *)
Lemma Worker_onmessage_result (pixels : list Z) (s : settings) :
  pixels <> [] ->
  Worker.onmessage
    {| Worker.req_type := "process"; Worker.req_pixels := Worker.Typed pixels;
       Worker.req_settings := s |}
  = map Worker.Progress (fst (Worker.processImage pixels s))
    ++ [Worker.Result (snd (Worker.processImage pixels s))].
Proof.
  intros H. unfold Worker.onmessage, Worker.try_block.
  cbn [Worker.req_type Worker.req_pixels Worker.req_settings Worker.pixelArray].
  change (negb (String.eqb "process" "process")) with false. cbv iota.
  destruct pixels as [| v pixels]; [contradiction |].
  cbn [length Nat.eqb].
  destruct (Worker.processImage (v :: pixels) s) as [percents result].
  reflexivity.
Qed.

(** The statistics of a loop in which no pixel was processed. *)
Lemma untouched_aggregates (st : loop_state) (len : nat) :
  aggregates st = aggregates (initial len) ->
  js_round (average st) = 0%Z
  /\ js_round (maxTAC st) = 0%Z
  /\ outOfGamutCount st = 0%nat
  /\ inject_Z (js_round (gamutPercent st * 10)) / 10 == 0.
Proof.
  intros A.
  rewrite (aggregates_average _ _ A), (aggregates_gamutPercent _ _ A).
  unfold aggregates in A. injection A as _ A2 A3 _. rewrite A2, A3.
  repeat split; reflexivity.
Qed.

End Transparent.

Section TransparentClaim.
Context {M : MathLib}.

Lemma all_transparent_filter (pixels : list Z) :
  rgba_shaped pixels -> all_transparent pixels ->
  List.filter (nontransparent pixels) (seq 0 (length pixels / 4)) = [].
Proof.
  intros Hs Ht. apply seq_filter_nil. intros i Hi. apply in_seq in Hi.
  unfold nontransparent. rewrite Ht; [reflexivity |].
  unfold rgba_shaped in Hs. pose proof (Nat.div_mod_eq (length pixels) 4). lia.
Qed.

(** C5: on an RGBA buffer, a pixel of alpha 0 is opaque white in the
    output buffer and has alpha 0 in the overlay buffer; the body of the
    loop leaves the running statistics as they are at such a pixel, so the
    statistics of the loop are those of the loop run over the other pixels
    only; and for a buffer that is transparent everywhere the worker posts
    its result, with an average coverage of 0 and an out-of-gamut
    percentage of 0; in worker.js and in colorEngine.js alike. *)
Theorem C5_transparent_pixels (pixels : list Z) (s : settings) (i : nat) :
  rgba_shaped pixels ->
  let pc := inject_Z (Z.of_nat (length pixels)) / 4 in
  let W := snd (Worker.processImage pixels s) in
  let E := ColorEngine.processImage pixels s in
  ((i * 4 + 3 < length pixels)%nat -> get pixels (i * 4 + 3) = 0%Z ->
   blanked (res_outputPixels W) (res_gamutPixels W) i
   /\ blanked (res_outputPixels E) (res_gamutPixels E) i)
  /\ (get pixels (i * 4 + 3) = 0%Z ->
      forall st pc pi,
        aggregates (Worker.step pixels s pc pi st i) = aggregates st
        /\ aggregates (ColorEngine.step pixels s st i) = aggregates st)
  /\ aggregates (Worker.run_loop pixels s)
     = aggregates (fold_left (Worker.step pixels s pc (Qfloor (pc / 20)))
                     (List.filter (nontransparent pixels) (seq 0 (length pixels / 4)))
                     (initial (length pixels)))
  /\ aggregates (ColorEngine.run_loop pixels s)
     = aggregates (fold_left (ColorEngine.step pixels s)
                     (List.filter (nontransparent pixels) (seq 0 (length pixels / 4)))
                     (initial (length pixels)))
  /\ (all_transparent pixels ->
      (st_avgTAC (res_stats W) = 0%Z /\ st_maxTAC (res_stats W) = 0%Z
       /\ st_outOfGamutCount (res_stats W) = Some 0%nat
       /\ st_outOfGamutPercent (res_stats W) == 0)
      /\ (st_avgTAC (res_stats E) = 0%Z /\ st_maxTAC (res_stats E) = 0%Z
          /\ st_outOfGamutCount (res_stats E) = Some 0%nat
          /\ st_outOfGamutPercent (res_stats E) == 0)
      /\ (pixels <> [] ->
          Worker.onmessage
            {| Worker.req_type := "process"; Worker.req_pixels := Worker.Typed pixels;
               Worker.req_settings := s |}
          = map Worker.Progress (fst (Worker.processImage pixels s))
            ++ [Worker.Result W])).
Proof.
  intros Hs pc W E.
  assert (LW : aggregates (Worker.run_loop pixels s)
     = aggregates (fold_left (Worker.step pixels s pc (Qfloor (pc / 20)))
                     (List.filter (nontransparent pixels) (seq 0 (length pixels / 4)))
                     (initial (length pixels)))).
  { unfold Worker.run_loop. cbv zeta. rewrite (loop_count_shaped _ Hs).
    apply Worker_skips_transparent. }
  assert (LE : aggregates (ColorEngine.run_loop pixels s)
     = aggregates (fold_left (ColorEngine.step pixels s)
                     (List.filter (nontransparent pixels) (seq 0 (length pixels / 4)))
                     (initial (length pixels)))).
  { unfold ColorEngine.run_loop. cbv zeta. rewrite (loop_count_shaped _ Hs).
    apply ColorEngine_skips_transparent. }
  split; [| split; [| split; [exact LW | split; [exact LE |]]]].
  - intros Hi Ha.
    split; [exact (Worker_blanks pixels s i Hs Hi Ha)
           | exact (ColorEngine_blanks pixels s i Hs Hi Ha)].
  - intros Ha st pc' pi.
    split; [exact (Worker_step_transparent pixels s pc' pi st i Ha)
           | exact (ColorEngine_step_transparent pixels s st i Ha)].
  - intros Ht. rewrite (all_transparent_filter _ Hs Ht) in LW, LE. cbn [fold_left] in LW, LE.
    destruct (untouched_aggregates _ _ LW) as (W1 & W2 & W3 & W4).
    destruct (untouched_aggregates _ _ LE) as (E1 & E2 & E3 & E4).
    split; [| split].
    + subst W. unfold Worker.processImage. cbv zeta.
      cbn [snd res_stats st_avgTAC st_maxTAC st_outOfGamutCount st_outOfGamutPercent].
      rewrite W1, W2, W3. auto.
    + subst E. unfold ColorEngine.processImage. cbv zeta.
      cbn [res_stats st_avgTAC st_maxTAC st_outOfGamutCount st_outOfGamutPercent].
      rewrite E1, E2, E3. auto.
    + exact (Worker_onmessage_result pixels s).
Qed.

End TransparentClaim.

(** The claim on the sample buffer, whose second pixel is transparent. *)
Lemma C5_witness :
  rgba_shaped sample_pixels
  /\ blanked
       (res_outputPixels (snd (@Worker.processImage bhaskara sample_pixels black_only)))
       (res_gamutPixels (snd (@Worker.processImage bhaskara sample_pixels black_only))) 1.
Proof.
  assert (Hs : rgba_shaped sample_pixels) by reflexivity.
  split; [exact Hs |].
  refine (proj1 (proj1 (@C5_transparent_pixels bhaskara sample_pixels black_only 1 Hs)
                   _ _)).
  - unfold sample_pixels. cbn [length]. lia.
  - reflexivity.
Defined.

(** ** worker.js and main-demo.js side by side *)

Lemma js_min3_le_max3 (x y z : Q) : js_min3 x y z <= js_max3 x y z.
Proof.
  destruct (js_max3_cases x y z) as (_ & H1 & _).
  destruct (js_min3_cases x y z) as (_ & H2 & _). lra.
Qed.

(** [d > 0] and [mx !== mn] are the same test. *)
Lemma positive_difference (mx mn : Q) :
  mn <= mx -> Qgtb (mx - mn) 0 = negb (Qeq_bool mx mn).
Proof.
  intros H. unfold Qgtb.
  destruct (Qltb_spec 0 (mx - mn)), (Qeq_bool_spec mx mn); simpl; try reflexivity; lra.
Qed.

Lemma MainDemo_outOfGamut_eq (r g b : Z) (pt : paper) :
  MainDemo.outOfGamut r g b pt = Worker.isOutOfGamut r g b pt.
Proof.
  unfold MainDemo.outOfGamut, Worker.isOutOfGamut. cbv zeta.
  rewrite (positive_difference _ _
             (js_min3_le_max3 (inject_Z r / 255) (inject_Z g / 255) (inject_Z b / 255))).
  reflexivity.
Qed.

Section SideBySide.
Context {M : MathLib}.

Lemma MainDemo_dotGain_fun : MainDemo.dotGain = Worker.applyDotGain.
Proof. reflexivity. Qed.

Lemma MainDemo_rgbToCmyk_fun : MainDemo.rgbToCmyk = Worker.rgbToCmyk.
Proof. reflexivity. Qed.

Lemma MainDemo_cmykToRgb_fun : MainDemo.cmykToRgb = Worker.cmykToRgb.
Proof. reflexivity. Qed.

Lemma MainDemo_PAPERS_fun : MainDemo.PAPERS = Worker.PAPER_PROFILES.
Proof. reflexivity. Qed.

Lemma MainDemo_inks_eq (r g b : Z) (s : settings) :
  MainDemo.inks r g b s = Worker.inks r g b s.
Proof.
  unfold MainDemo.inks. cbv zeta.
  rewrite MainDemo_dotGain_fun, MainDemo_rgbToCmyk_fun, MainDemo_PAPERS_fun.
  unfold Worker.inks, Worker.inflated, Worker.shifted, Worker.converted.
  destruct (Qgtb (gamutReduction (Worker.PAPER_PROFILES (paperType s))) 0);
    cbn [ch_c ch_m ch_y ch_k]; reflexivity.
Qed.

Lemma step_data (pixels : list Z) (s : settings) (pc : Q) (pi : Z)
    (st1 st2 : loop_state) (i : nat) :
  data st1 = data st2 ->
  data (Worker.step pixels s pc pi st1 i) = data (MainDemo.step pixels s st2 i).
Proof.
  unfold data, aggregates. intros [= O G T X C P].
  unfold MainDemo.step. cbv zeta.
  rewrite MainDemo_cmykToRgb_fun, MainDemo_outOfGamut_eq, MainDemo_inks_eq.
  unfold Worker.step, Worker.totalCoverage. cbv zeta.
  rewrite O, G, T, X, C, P.
  destruct (get pixels (i * 4 + 3) =? 0)%Z; reflexivity.
Qed.

Lemma loop_data (pixels : list Z) (s : settings) (pc : Q) (pi : Z) (l : list nat)
    (st1 st2 : loop_state) :
  data st1 = data st2 ->
  data (fold_left (Worker.step pixels s pc pi) l st1)
  = data (fold_left (MainDemo.step pixels s) l st2).
Proof.
  apply (fold_left_related (fun a b => data a = data b)).
  intros a b i. apply step_data.
Qed.

(** The rescheduled chunks process the pixels that one loop would, in the
    same order, and [fuel] suffices as soon as it exceeds the number of
    pixels left. *)
Lemma chunk_runs_loop (fuel : nat) (src : list Z) (s : settings) (count : nat) :
  forall (st : loop_state) (i : nat) (reported : list (option Z)),
    (i <= count)%nat -> (count - i < fuel)%nat ->
    exists reported',
      MainDemo.chunk fuel src s count st i reported
      = Some (reported',
              MainDemo.done src s
                (fold_left (MainDemo.step src s) (seq i (count - i)) st)).
Proof.
  induction fuel as [| fuel IH]; intros st i reported Hi Hf; [lia |].
  cbn [MainDemo.chunk]. cbv zeta.
  set (end_ := N.to_nat (N.min (N.of_nat i + MainDemo.CHUNK_SIZE) (N.of_nat count))).
  assert (He : (i <= end_ <= count)%nat) by (unfold end_, MainDemo.CHUNK_SIZE; lia).
  replace (Nat.max i end_) with end_ by lia.
  destruct (end_ <? count)%nat eqn:E.
  - apply Nat.ltb_lt in E.
    assert (Hadv : (i < end_)%nat) by (unfold end_, MainDemo.CHUNK_SIZE in *; lia).
    destruct (IH (fold_left (MainDemo.step src s) (seq i (end_ - i)) st) end_
                (MainDemo.percent end_ count :: reported)) as [rep' Hrep];
      [lia | lia |].
    exists rep'. rewrite Hrep. do 3 f_equal.
    replace (count - i)%nat with ((end_ - i) + (count - end_))%nat by lia.
    rewrite seq_app, fold_left_app.
    replace (i + (end_ - i))%nat with end_ by lia. reflexivity.
  - apply Nat.ltb_ge in E. assert (end_ = count) by lia. subst end_.
    eexists. rewrite H. reflexivity.
Qed.

(** [processPixels] hands a result to [onDone]: the one computed from the
    state of a single loop over all pixels. *)
Lemma MainDemo_processPixels_returns (src : list Z) (s : settings) :
  exists reported,
    MainDemo.processPixels src s
    = Some (reported,
            MainDemo.done src s
              (fold_left (MainDemo.step src s) (seq 0 (length src / 4))
                 (initial (length src)))).
Proof.
  unfold MainDemo.processPixels. cbv zeta.
  destruct (chunk_runs_loop (S (length src / 4)) src s (length src / 4)
              (initial (length src)) 0 []) as [rep Hrep]; [lia | lia |].
  rewrite Hrep, Nat.sub_0_r. eexists. reflexivity.
Qed.

End SideBySide.

Section Agreement.
Context {M : MathLib}.

(** C4, as amended: on every RGBA buffer and for every settings record,
    [processPixels] of main-demo.js hands a result to [onDone], and that
    result has the output buffer, the overlay buffer, the rounded average
    and maximum coverage, the out-of-gamut percentage, the risk verdict
    and the ink limit of the result of worker.js's [processImage]. *)
Theorem C4_worker_and_demo_agree (pixels : list Z) (s : settings) :
  rgba_shaped pixels ->
  exists reported r,
    MainDemo.processPixels pixels s = Some (reported, r)
    /\ res_outputPixels r = res_outputPixels (snd (Worker.processImage pixels s))
    /\ res_gamutPixels r = res_gamutPixels (snd (Worker.processImage pixels s))
    /\ st_avgTAC (res_stats r)
       = st_avgTAC (res_stats (snd (Worker.processImage pixels s)))
    /\ st_maxTAC (res_stats r)
       = st_maxTAC (res_stats (snd (Worker.processImage pixels s)))
    /\ st_outOfGamutPercent (res_stats r)
       = st_outOfGamutPercent (res_stats (snd (Worker.processImage pixels s)))
    /\ st_risk (res_stats r) = st_risk (res_stats (snd (Worker.processImage pixels s)))
    /\ st_inkLimit (res_stats r)
       = st_inkLimit (res_stats (snd (Worker.processImage pixels s))).
Proof.
  intros Hs. destruct (MainDemo_processPixels_returns pixels s) as [reported H].
  exists reported. eexists. split; [exact H |].
  assert (D : data (Worker.run_loop pixels s)
              = data (fold_left (MainDemo.step pixels s) (seq 0 (length pixels / 4))
                        (initial (length pixels)))).
  { unfold Worker.run_loop. cbv zeta. rewrite (loop_count_shaped _ Hs).
    apply loop_data. reflexivity. }
  set (stW := Worker.run_loop pixels s) in *.
  set (stD := fold_left (MainDemo.step pixels s) (seq 0 (length pixels / 4))
                (initial (length pixels))) in *.
  destruct (data_inv _ _ D) as (O & G & A).
  pose proof (aggregates_average _ _ A) as Av.
  pose proof (aggregates_gamutPercent _ _ A) as Gp.
  pose proof (aggregates_maxTAC _ _ A) as X.
  unfold Worker.processImage, MainDemo.done. cbv zeta.
  fold stW.
  cbn [snd res_outputPixels res_gamutPixels res_stats st_avgTAC st_maxTAC
       st_outOfGamutPercent st_risk st_inkLimit].
  rewrite <- O, <- G, <- Av, <- Gp, <- X.
  change (MainDemo.PAPERS (paperType s)) with (Worker.PAPER_PROFILES (paperType s)).
  repeat split; reflexivity.
Qed.

End Agreement.

(** The agreement on the sample buffer. *)
Lemma C4_witness :
  rgba_shaped sample_pixels
  /\ exists reported r,
       @MainDemo.processPixels bhaskara sample_pixels black_only = Some (reported, r)
       /\ res_outputPixels r
          = res_outputPixels (snd (@Worker.processImage bhaskara sample_pixels black_only)).
Proof.
  assert (Hs : rgba_shaped sample_pixels) by reflexivity.
  split; [exact Hs |].
  destruct (@C4_worker_and_demo_agree bhaskara sample_pixels black_only Hs)
    as (reported & r & H & O & _).
  exists reported, r. split; [exact H | exact O].
Defined.

(** The claim as stated fails on nine pixels: worker.js samples pixels 0
    and 8 for the dominant colours, main-demo.js samples pixel 0 only, and
    only worker.js reports the out-of-gamut count. *)
Lemma C4_counterexample :
  exists reported r,
    @MainDemo.processPixels bhaskara two_tone all_shown = Some (reported, r)
    /\ length (st_dominantColors (res_stats r)) = 1%nat
    /\ length (st_dominantColors
                 (res_stats (snd (@Worker.processImage bhaskara two_tone all_shown))))
       = 2%nat
    /\ st_outOfGamutCount (res_stats r) = None
    /\ st_outOfGamutCount
         (res_stats (snd (@Worker.processImage bhaskara two_tone all_shown)))
       = Some 2%nat
    /\ res_stats r <> res_stats (snd (@Worker.processImage bhaskara two_tone all_shown)).
Proof.
  eexists. eexists. split; [vm_compute; reflexivity |].
  split; [vm_compute; reflexivity |].
  split; [vm_compute; reflexivity |].
  split; [vm_compute; reflexivity |].
  split; [vm_compute; reflexivity |].
  vm_compute. intros H. discriminate H.
Qed.

(** ** The dominant-colour sampler *)

Lemma strided_below (fuel i rate : nat) (bound : Q) (j : nat) :
  In j (strided fuel i rate bound) -> inject_Z (Z.of_nat j) < bound.
Proof.
  revert i. induction fuel as [| fuel IH]; intros i H; simpl in H; [contradiction |].
  destruct (Qltb_spec (inject_Z (Z.of_nat i)) bound) as [L | L]; [| contradiction].
  destruct H as [<- | H]; [exact L | exact (IH _ H)].
Qed.

(** The fuel given to [strided] never cuts the sampling loop short: every
    index [i + k * rate] below the bound is visited. *)
Lemma strided_complete (fuel rate : nat) (bound : Q) :
  (0 < rate)%nat ->
  forall i k,
    bound <= inject_Z (Z.of_nat (i + fuel)) ->
    inject_Z (Z.of_nat (i + k * rate)) < bound ->
    In (i + k * rate)%nat (strided fuel i rate bound).
Proof.
  intros Hr. induction fuel as [| fuel IH]; intros i k Hf Hk.
  - exfalso. assert (L : inject_Z (Z.of_nat (i + 0)) <= inject_Z (Z.of_nat (i + k * rate)))
      by (rewrite <- Zle_Qle; lia).
    lra.
  - cbn [strided].
    assert (Li : inject_Z (Z.of_nat i) <= inject_Z (Z.of_nat (i + k * rate)))
      by (rewrite <- Zle_Qle; lia).
    destruct (Qltb_spec (inject_Z (Z.of_nat i)) bound) as [L | L]; [| lra].
    destruct k as [| k]; [left; lia |].
    right. replace (i + S k * rate)%nat with (i + rate + k * rate)%nat by lia.
    apply IH.
    + assert (Lf : inject_Z (Z.of_nat (i + S fuel))
                   <= inject_Z (Z.of_nat (i + rate + fuel)))
        by (rewrite <- Zle_Qle; lia).
      lra.
    + replace (i + rate + k * rate)%nat with (i + S k * rate)%nat by lia. exact Hk.
Qed.

Lemma Worker_samples_every_rate (pixels : list Z) (rate k : nat) :
  (0 < rate)%nat -> (k * rate * 4 < length pixels)%nat ->
  In (k * rate)%nat
    (strided (length pixels) 0 rate (inject_Z (Z.of_nat (length pixels)) / 4)).
Proof.
  intros Hr Hk.
  assert (P : 0 <= inject_Z (Z.of_nat (length pixels)))
    by (change 0 with (inject_Z 0); rewrite <- Zle_Qle; lia).
  apply (strided_complete _ _ _ Hr 0 k).
  - cbn [Nat.add]. apply Qle_shift_div_r; [reflexivity | lra].
  - cbn [Nat.add]. apply Qlt_shift_div_l; [reflexivity |].
    change 4 with (inject_Z 4). rewrite <- inject_Z_mult, <- Zlt_Qlt. lia.
Qed.

Lemma Worker_count_sample_skips (pixels : list Z) (bs : buckets) (i : nat) :
  (get pixels (i * 4 + 3) < 128)%Z -> Worker.count_sample pixels bs i = bs.
Proof.
  intros H. unfold Worker.count_sample. cbv zeta.
  apply Z.ltb_lt in H. rewrite H. reflexivity.
Qed.

Lemma Worker_counts_nothing (pixels : list Z) (l : list nat) (bs : buckets) :
  (forall i, In i l -> (get pixels (i * 4 + 3) < 128)%Z) ->
  fold_left (Worker.count_sample pixels) l bs = bs.
Proof.
  revert bs. induction l as [| i l IH]; intros bs H; simpl; [reflexivity |].
  rewrite Worker_count_sample_skips by (apply H; left; reflexivity).
  apply IH. intros j Hj. apply H. right. exact Hj.
Qed.

(** In worker.js the sampler skips the pixels of alpha below 128, and
    returns no colour for an RGBA buffer whose sampled pixels are all
    like that. *)
Lemma Worker_dominant_skips (pixels : list Z) (sampleRate : nat) :
  rgba_shaped pixels ->
  (forall i, (i * 4 + 3 < length pixels)%nat -> (get pixels (i * 4 + 3) < 128)%Z) ->
  Worker.extractDominantColors pixels sampleRate = [].
Proof.
  intros Hs Ha. unfold Worker.extractDominantColors. cbv zeta.
  rewrite Worker_counts_nothing; [reflexivity |].
  intros i Hi. apply Ha. apply strided_below in Hi.
  assert (L : inject_Z (Z.of_nat i) * 4 < inject_Z (Z.of_nat (length pixels))).
  { apply (Qmult_lt_r _ _ 4) in Hi; [| reflexivity].
    assert (E : inject_Z (Z.of_nat (length pixels)) / 4 * 4
                == inject_Z (Z.of_nat (length pixels))) by field.
    rewrite E in Hi. exact Hi. }
  change 4 with (inject_Z 4) in L. rewrite <- inject_Z_mult, <- Zlt_Qlt in L.
  unfold rgba_shaped in Hs. pose proof (Nat.div_mod_eq (length pixels) 4). lia.
Qed.

(** C7, on colorEngine.js: [extractDominantColors] of colorEngine.js has
    no test of alpha and counts the one fully transparent pixel of a 1x1
    image, so that the statistics of [processImage] list a dominant colour
    for an image of alpha 0 everywhere; [extractDominantColors] of
    worker.js returns the empty list on the same image. *)
Theorem C7_colorEngine_counts_transparent_pixels :
  all_transparent [0; 0; 0; 0]%Z
  /\ st_dominantColors
       (res_stats (@ColorEngine.processImage bhaskara [0; 0; 0; 0]%Z all_shown))
     = [ {| ColorEngine.dom_r := 0; ColorEngine.dom_g := 0; ColorEngine.dom_b := 0;
            ColorEngine.dom_cmyk := {| ch_c := 0; ch_m := 0; ch_y := 0; ch_k := 1 |};
            ColorEngine.dom_count := 1 |} ]
  /\ st_dominantColors
       (res_stats (snd (@Worker.processImage bhaskara [0; 0; 0; 0]%Z all_shown)))
     = [].
Proof.
  split; [| split].
  - intros j Hj. cbn [length] in Hj. assert (j = 0%nat) by lia. subst j. reflexivity.
  - vm_compute. reflexivity.
  - vm_compute. reflexivity.
Qed.

(** ** The message handlers *)

Section Failure.
Context {M : MathLib}.

Lemma Worker_onmessage_no_pixels (e : Worker.request) :
  Worker.req_type e = "process"%string ->
  Worker.pixelArray (Worker.req_pixels e) = [] ->
  Worker.onmessage e
  = [Worker.Error "No pixel data received. Image may not have loaded correctly."].
Proof.
  intros Ht Hp. unfold Worker.onmessage, Worker.try_block. cbv zeta.
  rewrite Ht, Hp. reflexivity.
Qed.

(** C6: a process request whose pixel buffer is missing or has length 0 is
    answered by one message and no other, a failure carrying the text
    "No pixel data received ...": no progress notification and no result
    (buffers, statistics) is posted; in the handler of worker.js and in
    the handler of the worker inlined in main.js, whatever its
    [processImage]. *)
Theorem C6_no_pixels_is_a_failure (e : Worker.request) (ie : InlineWorker.request)
    (inlined : list Z -> settings -> list Z * result Worker.dominant) :
  (Worker.req_type e = "process"%string ->
   Worker.req_pixels e = Worker.Missing \/ Worker.req_pixels e = Worker.Typed []
   \/ Worker.req_pixels e = Worker.Buffer [] ->
   Worker.onmessage e
   = [Worker.Error "No pixel data received. Image may not have loaded correctly."])
  /\ (InlineWorker.req_type ie = "process"%string ->
      InlineWorker.req_pixels ie = None \/ InlineWorker.req_pixels ie = Some [] ->
      InlineWorker.onmessage inlined ie = [Worker.Error "No pixel data received."]).
Proof.
  split.
  - intros Ht Hp. apply Worker_onmessage_no_pixels; [exact Ht |].
    destruct Hp as [-> | [-> | ->]]; reflexivity.
  - intros Ht Hp. unfold InlineWorker.onmessage, InlineWorker.try_block.
    rewrite Ht. destruct Hp as [-> | ->]; reflexivity.
Qed.

End Failure.

(** The claim on a request without pixels. *)
Lemma C6_witness :
  @Worker.onmessage bhaskara
    {| Worker.req_type := "process"; Worker.req_pixels := Worker.Missing;
       Worker.req_settings := all_shown |}
  = [Worker.Error "No pixel data received. Image may not have loaded correctly."].
Proof.
  exact (proj1 (@C6_no_pixels_is_a_failure bhaskara
                  {| Worker.req_type := "process"; Worker.req_pixels := Worker.Missing;
                     Worker.req_settings := all_shown |}
                  {| InlineWorker.req_type := "process"; InlineWorker.req_pixels := None;
                     InlineWorker.req_settings := all_shown |}
                  (fun _ _ => ([], snd (@Worker.processImage bhaskara [] all_shown))))
           eq_refl (or_introl eq_refl)).
Defined.

(** ** The definitions at work *)

Example sort_desc_is_stable :
  sort_desc [((0, 0, 0)%Z, 1%nat); ((32, 0, 0)%Z, 3%nat); ((64, 0, 0)%Z, 1%nat);
             ((96, 0, 0)%Z, 3%nat)]
  = [((32, 0, 0)%Z, 3%nat); ((96, 0, 0)%Z, 3%nat); ((0, 0, 0)%Z, 1%nat);
     ((64, 0, 0)%Z, 1%nat)].
Proof. reflexivity. Qed.

Example quantize_rounds_to_nearest :
  map quantize [0; 15; 16; 47; 48; 239; 240; 255]%Z = [0; 0; 32; 32; 64; 224; 256; 256]%Z.
Proof. reflexivity. Qed.

Example js_round_ties_upwards :
  map js_round [2.5; -2.5; 2.4; -2.6] = [3; -2; 2; -3]%Z.
Proof. reflexivity. Qed.

(** A black pixel is covered at 100% on every paper. *)
Example black_pixel_coverage (p : paper) :
  let r := snd (@Worker.processImage bhaskara [0; 0; 0; 255]%Z
                  {| paperType := p; set_dotGain := 0.22; showC := true;
                     showM := true; showY := true; showK := true;
                     gamutOverlay := false |}) in
  st_avgTAC (res_stats r) = 100%Z /\ st_maxTAC (res_stats r) = 100%Z
  /\ risk_level (st_risk (res_stats r)) = safe.
Proof. destruct p; vm_compute; repeat split; reflexivity. Qed.

(** The warning colour of the overlay has alpha 150 in worker.js and
    main-demo.js and alpha 140 in colorEngine.js. *)
Example overlay_alpha :
  res_gamutPixels (snd (@Worker.processImage bhaskara [255; 0; 0; 255]%Z black_only))
  = [220; 38; 38; 150]%Z
  /\ res_gamutPixels (@ColorEngine.processImage bhaskara [255; 0; 0; 255]%Z black_only)
     = [220; 38; 38; 140]%Z.
Proof. split; vm_compute; reflexivity. Qed.

(** Progress is posted every twentieth of the pixels, from an image of 20
    pixels on. *)
Example progress_of_forty_pixels :
  fst (@Worker.processImage bhaskara (concat (replicate 40 [9; 9; 9; 0]%Z)) all_shown)
  = [0; 5; 10; 15; 20; 25; 30; 35; 40; 45; 50; 55; 60; 65; 70; 75; 80; 85; 90; 95]%Z.
Proof. vm_compute. reflexivity. Qed.

(** * Further properties of the code *)

(** ** The gamut classifier *)

Lemma js_max_diag (x : Q) : js_max x x = x.
Proof. unfold js_max. destruct (Qle_bool x x); reflexivity. Qed.

Lemma js_min_diag (x : Q) : js_min x x = x.
Proof. unfold js_min. destruct (Qle_bool x x); reflexivity. Qed.

Lemma js_max3_diag (x : Q) : js_max3 x x x = x.
Proof. unfold js_max3. rewrite !js_max_diag. reflexivity. Qed.

Lemma js_min3_diag (x : Q) : js_min3 x x x = x.
Proof. unfold js_min3. rewrite !js_min_diag. reflexivity. Qed.

Lemma Qeq_bool_same (x : Q) : Qeq_bool x x = true.
Proof. apply Qeq_bool_iff. reflexivity. Qed.

(** The threshold of every paper is positive, with or without the
    deduction of the problem regions. *)
Lemma threshold_positive (p : paper) (w : bool) :
  Qgtb 0 (if w then 0.82 - gamutReduction (Worker.PAPER_PROFILES p) - 0.12
          else 0.82 - gamutReduction (Worker.PAPER_PROFILES p)) = false.
Proof. destruct p, w; reflexivity. Qed.

Lemma Worker_grey_in_gamut (v : Z) (p : paper) : Worker.isOutOfGamut v v v p = false.
Proof.
  unfold Worker.isOutOfGamut. cbv zeta.
  rewrite js_max3_diag, js_min3_diag, Qeq_bool_same. cbn [negb].
  match goal with
  | |- (if ?G then false else Qgtb 0 (if ?W then _ else _)) = false =>
      destruct G; [reflexivity | apply (threshold_positive p W)]
  end.
Qed.

Lemma scaled_byte_le (a b : Z) : (a <= b)%Z -> inject_Z a / 255 <= inject_Z b / 255.
Proof.
  intros H. rewrite Zle_Qle in H. unfold Qdiv.
  apply Qmult_le_compat_r; [exact H | discriminate].
Qed.

(** Pixels whose three channels are all at most 20, or all at least 240,
    take the early exit on the lightness. *)
Lemma Worker_extremes_in_gamut (r g b : Z) (p : paper) :
  (r <= 20 /\ g <= 20 /\ b <= 20)%Z \/ (240 <= r /\ 240 <= g /\ 240 <= b)%Z ->
  Worker.isOutOfGamut r g b p = false.
Proof.
  intros H. unfold Worker.isOutOfGamut. cbv zeta.
  set (rn := inject_Z r / 255). set (gn := inject_Z g / 255). set (bn := inject_Z b / 255).
  destruct (js_max3_cases rn gn bn) as (Smx & _).
  destruct (js_min3_cases rn gn bn) as (Smn & _).
  set (mx := js_max3 rn gn bn) in *. set (mn := js_min3 rn gn bn) in *.
  assert (G : Qltb ((mx + mn) / 2) 0.08 || Qgtb ((mx + mn) / 2) 0.94 = true).
  { destruct H as [(Hr & Hg & Hb) | (Hr & Hg & Hb)].
    - apply scaled_byte_le in Hr, Hg, Hb. fold rn in Hr. fold gn in Hg. fold bn in Hb.
      assert (Hmx : mx <= inject_Z 20 / 255)
        by (destruct Smx as [E | [E | E]]; rewrite E; assumption).
      assert (Hmn : mn <= inject_Z 20 / 255)
        by (destruct Smn as [E | [E | E]]; rewrite E; assumption).
      assert (V : inject_Z 20 / 255 < 0.08) by reflexivity.
      apply orb_true_intro. left.
      destruct (Qltb_spec ((mx + mn) / 2) 0.08) as [L | L]; [reflexivity |].
      exfalso. apply L. apply Qlt_shift_div_r; [reflexivity | lra].
    - apply scaled_byte_le in Hr, Hg, Hb. fold rn in Hr. fold gn in Hg. fold bn in Hb.
      assert (Hmx : inject_Z 240 / 255 <= mx)
        by (destruct Smx as [E | [E | E]]; rewrite E; assumption).
      assert (Hmn : inject_Z 240 / 255 <= mn)
        by (destruct Smn as [E | [E | E]]; rewrite E; assumption).
      assert (V : 0.94 < inject_Z 240 / 255) by reflexivity.
      apply orb_true_intro. right. unfold Qgtb.
      destruct (Qltb_spec 0.94 ((mx + mn) / 2)) as [L | L]; [reflexivity |].
      exfalso. apply L. apply Qlt_shift_div_l; [reflexivity | lra]. }
  rewrite G. reflexivity.
Qed.

(** The final test, for two thresholds. *)
Lemma lower_threshold_flags_more (G W : bool) (sat t1 t2 : Q) :
  t2 <= t1 ->
  (if G then false else Qgtb sat (if W then t1 - 0.12 else t1)) = true ->
  (if G then false else Qgtb sat (if W then t2 - 0.12 else t2)) = true.
Proof.
  intros L. destruct G; [discriminate |]. unfold Qgtb.
  destruct W; intros H.
  - destruct (Qltb_spec (t1 - 0.12) sat); [| discriminate].
    destruct (Qltb_spec (t2 - 0.12) sat); [reflexivity | lra].
  - destruct (Qltb_spec t1 sat); [| discriminate].
    destruct (Qltb_spec t2 sat); [reflexivity | lra].
Qed.

(** The papers are ordered: what coated stock cannot reproduce, uncoated
    stock cannot either, nor newsprint what uncoated stock cannot. *)
Lemma Worker_gamut_shrinks (r g b : Z) :
  (Worker.isOutOfGamut r g b coated = true -> Worker.isOutOfGamut r g b uncoated = true)
  /\ (Worker.isOutOfGamut r g b uncoated = true
      -> Worker.isOutOfGamut r g b newsprint = true).
Proof.
  unfold Worker.isOutOfGamut. cbv zeta.
  split; apply lower_threshold_flags_more; discriminate.
Qed.

Lemma ColorEngine_isOutOfGamut_eq (r g b : Z) (p : paper) :
  ColorEngine.isOutOfGamut r g b p = Worker.isOutOfGamut r g b p.
Proof.
  unfold ColorEngine.isOutOfGamut, Worker.isOutOfGamut. cbv zeta.
  replace (gamutReduction (ColorEngine.PAPER_PROFILES p))
    with (gamutReduction (Worker.PAPER_PROFILES p)) by (destruct p; reflexivity).
  reflexivity.
Qed.

(** X1: in the three copies of the gamut classifier, a pixel is never
    flagged when it is a neutral grey, when its three channels are all at
    most 20, or when they are all at least 240, whatever the paper. *)
Theorem X1_neutral_and_extreme_pixels_in_gamut (r g b : Z) (p : paper) :
  r = g /\ g = b \/ (r <= 20 /\ g <= 20 /\ b <= 20)%Z
  \/ (240 <= r /\ 240 <= g /\ 240 <= b)%Z ->
  Worker.isOutOfGamut r g b p = false
  /\ ColorEngine.isOutOfGamut r g b p = false
  /\ MainDemo.outOfGamut r g b p = false.
Proof.
  intros H. rewrite ColorEngine_isOutOfGamut_eq, MainDemo_outOfGamut_eq.
  assert (W : Worker.isOutOfGamut r g b p = false).
  { destruct H as [[-> ->] | H]; [apply Worker_grey_in_gamut |].
    apply Worker_extremes_in_gamut, H. }
  auto.
Qed.

Lemma X1_witness :
  ((128 = 128 /\ 128 = 128)%Z \/ (128 <= 20 /\ 128 <= 20 /\ 128 <= 20)%Z
   \/ (240 <= 128 /\ 240 <= 128 /\ 240 <= 128)%Z)
  /\ Worker.isOutOfGamut 128 128 128 newsprint = false.
Proof.
  assert (H : (128 = 128 /\ 128 = 128)%Z \/ (128 <= 20 /\ 128 <= 20 /\ 128 <= 20)%Z
              \/ (240 <= 128 /\ 240 <= 128 /\ 240 <= 128)%Z)
    by (left; split; reflexivity).
  split; [exact H |].
  exact (proj1 (X1_neutral_and_extreme_pixels_in_gamut 128 128 128 newsprint H)).
Defined.

(** X2: the gamut shrinks from coated to uncoated to newsprint: a pixel
    flagged on coated paper is flagged on uncoated paper, and a pixel
    flagged on uncoated paper is flagged on newsprint; in the three copies
    of the classifier. *)
Theorem X2_gamut_shrinks_with_paper (r g b : Z) :
  (Worker.isOutOfGamut r g b coated = true -> Worker.isOutOfGamut r g b uncoated = true)
  /\ (Worker.isOutOfGamut r g b uncoated = true
      -> Worker.isOutOfGamut r g b newsprint = true)
  /\ (ColorEngine.isOutOfGamut r g b coated = true
      -> ColorEngine.isOutOfGamut r g b uncoated = true)
  /\ (ColorEngine.isOutOfGamut r g b uncoated = true
      -> ColorEngine.isOutOfGamut r g b newsprint = true)
  /\ (MainDemo.outOfGamut r g b coated = true -> MainDemo.outOfGamut r g b uncoated = true)
  /\ (MainDemo.outOfGamut r g b uncoated = true
      -> MainDemo.outOfGamut r g b newsprint = true).
Proof.
  rewrite !ColorEngine_isOutOfGamut_eq, !MainDemo_outOfGamut_eq.
  destruct (Worker_gamut_shrinks r g b) as [A B]. auto 10.
Qed.

Lemma X2_witness :
  Worker.isOutOfGamut 255 0 0 coated = true
  /\ Worker.isOutOfGamut 255 0 0 uncoated = true.
Proof.
  assert (H : Worker.isOutOfGamut 255 0 0 coated = true) by reflexivity.
  split; [exact H |].
  exact (proj1 (X2_gamut_shrinks_with_paper 255 0 0) H).
Defined.

(** ** Coverage and statistics *)

Lemma zero_over (x d : Q) : x == 0 -> x / d == 0.
Proof. intros H. unfold Qdiv. rewrite H. ring. Qed.

(** The channel of the largest of [r], [g], [b] carries no ink. *)
Lemma Worker_rgbToCmyk_zero_channel (r g b : Q) :
  ch_c (Worker.rgbToCmyk r g b) == 0 \/ ch_m (Worker.rgbToCmyk r g b) == 0
  \/ ch_y (Worker.rgbToCmyk r g b) == 0.
Proof.
  unfold Worker.rgbToCmyk, Qgeb.
  destruct (js_max3_cases r g b) as (Sel & _).
  destruct (Qle_bool 1 (1 - js_max3 r g b)); cbn [ch_c ch_m ch_y];
    [left; reflexivity |].
  destruct Sel as [E | [E | E]]; rewrite E;
    [left | right; left | right; right]; apply zero_over; ring.
Qed.

Lemma ColorEngine_rgbToCmyk_zero_channel (r g b : Q) :
  ch_c (ColorEngine.rgbToCmyk r g b) == 0 \/ ch_m (ColorEngine.rgbToCmyk r g b) == 0
  \/ ch_y (ColorEngine.rgbToCmyk r g b) == 0.
Proof.
  unfold ColorEngine.rgbToCmyk.
  destruct (js_max3_cases r g b) as (Sel & _).
  destruct (Qeq_bool (1 - js_max3 r g b) 1); cbn [ch_c ch_m ch_y];
    [left; reflexivity |].
  destruct Sel as [E | [E | E]]; rewrite E;
    [left | right; left | right; right]; apply zero_over; ring.
Qed.

Lemma min_one_zero (x : Q) : x == 0 -> js_min 1 x == 0.
Proof.
  intros H. destruct (js_min_cases 1 x) as [[L E] | [L E]]; rewrite E; lra.
Qed.

Section Coverage.
Context {M : MathLib}.

Lemma Worker_applyDotGain_of_zero (v gain sg hg : Q) :
  v == 0 -> Worker.applyDotGain v gain sg hg = 0.
Proof.
  intros H. unfold Worker.applyDotGain.
  destruct (Qle_bool_spec v 0); [reflexivity | lra].
Qed.

Lemma Worker_inks_zero_channel (r g b : Z) (s : settings) :
  ch_c (Worker.inks r g b s) == 0 \/ ch_m (Worker.inks r g b s) == 0
  \/ ch_y (Worker.inks r g b s) == 0.
Proof.
  unfold Worker.inks, Worker.inflated, Worker.shifted, Worker.converted. cbv zeta.
  set (raw := Worker.rgbToCmyk _ _ _).
  set (p := Worker.PAPER_PROFILES (paperType s)).
  destruct (Worker_rgbToCmyk_zero_channel (inject_Z r / 255) (inject_Z g / 255)
              (inject_Z b / 255)) as [Z | [Z | Z]]; fold raw in Z;
    apply (Worker_applyDotGain_of_zero _ (set_dotGain s) (shadowGain p) (highlightGain p))
      in Z;
    destruct (Qgtb (gamutReduction p) 0); cbn [ch_c ch_m ch_y]; rewrite ?Z;
    [left | left | right; left | right; left | right; right | right; right];
    try reflexivity; apply min_one_zero; ring.
Qed.

Lemma ColorEngine_inks_zero_channel (r g b : Z) (s : settings) :
  ch_c (ColorEngine.inks r g b s) == 0 \/ ch_m (ColorEngine.inks r g b s) == 0
  \/ ch_y (ColorEngine.inks r g b s) == 0.
Proof.
  unfold ColorEngine.inks, ColorEngine.inflated, ColorEngine.shifted,
    ColorEngine.converted. cbv zeta.
  set (raw := ColorEngine.rgbToCmyk _ _ _).
  set (p := ColorEngine.PAPER_PROFILES (paperType s)).
  destruct (ColorEngine_rgbToCmyk_zero_channel (inject_Z r / 255) (inject_Z g / 255)
              (inject_Z b / 255)) as [Z | [Z | Z]]; fold raw in Z;
    apply (Worker_applyDotGain_of_zero _ (set_dotGain s) (shadowGain p) (highlightGain p))
      in Z;
    change Worker.applyDotGain with ColorEngine.applyDotGain in Z;
    destruct (Qgtb (gamutReduction p) 0); cbn [ch_c ch_m ch_y]; rewrite ?Z;
    [left | left | right; left | right; left | right; right | right; right];
    try reflexivity; apply min_one_zero; ring.
Qed.

Lemma three_inks (i : cmyk) :
  in_unit i -> ch_c i == 0 \/ ch_m i == 0 \/ ch_y i == 0 ->
  0 <= (ch_c i + ch_m i + ch_y i + ch_k i) * 100 <= 300.
Proof.
  unfold in_unit. intros (Hc & Hm & Hy & Hk) [Z | [Z | Z]]; split; lra.
Qed.

Lemma Worker_coverage_le_300 (r g b : Z) (s : settings) :
  0 <= Worker.totalCoverage (Worker.inks r g b s) <= 300.
Proof.
  apply three_inks; [| apply Worker_inks_zero_channel].
  apply Worker_inflated_unit, Worker_shifted_unit.
Qed.

Lemma ColorEngine_coverage_le_300 (r g b : Z) (s : settings) :
  let i := ColorEngine.inks r g b s in
  0 <= ColorEngine.totalInkCoverage (ch_c i) (ch_m i) (ch_y i) (ch_k i) <= 300.
Proof.
  apply three_inks; [| apply ColorEngine_inks_zero_channel].
  apply ColorEngine_inflated_unit, ColorEngine_shifted_unit.
Qed.

End Coverage.

Lemma js_round_le (x y : Q) : x <= y -> (js_round x <= js_round y)%Z.
Proof. intros H. unfold js_round. apply Qfloor_resp_le. lra. Qed.

Lemma sane_ext (a b : loop_state) : aggregates a = aggregates b -> sane a -> sane b.
Proof.
  unfold aggregates, sane. intros [= T X C P]. rewrite T, X, C, P. tauto.
Qed.

(** A loop whose body either leaves the statistics alone or accounts for
    one more pixel, of coverage [tac] between 0 and 300. *)
Section Accounting.
Variable body : loop_state -> nat -> loop_state.
Hypothesis body_cases :
  forall st i,
    aggregates (body st i) = aggregates st
    \/ exists tac oog,
         0 <= tac <= 300
         /\ aggregates (body st i)
            = (totalTAC st + tac,
               (if Qgtb tac (maxTAC st) then tac else maxTAC st),
               (if oog : bool then S (outOfGamutCount st) else outOfGamutCount st),
               S (processedCount st)).

Lemma body_sane (st : loop_state) (i : nat) : sane st -> sane (body st i).
Proof.
  intros S. destruct (body_cases st i) as [E | (tac & oog & B & E)].
  - apply (sane_ext st); [symmetry; exact E | exact S].
  - destruct S as (T0 & TM & C & M0 & M3).
    unfold aggregates in E. injection E as ET EM EC EP.
    unfold sane. rewrite ET, EM, EC, EP.
    assert (P0 : 0 <= inject_Z (Z.of_nat (processedCount st)))
      by (change 0 with (inject_Z 0); rewrite <- Zle_Qle; lia).
    assert (PS : inject_Z (Z.of_nat (S (processedCount st)))
                 == inject_Z (Z.of_nat (processedCount st)) + 1)
      by (rewrite Nat2Z.inj_succ; unfold Z.succ; rewrite inject_Z_plus; reflexivity).
    rewrite PS. unfold Qgtb.
    destruct (Qltb_spec (maxTAC st) tac) as [L | L];
      (split; [lra |]); (split; [nra |]);
      (split; [destruct oog; lia | lra]).
Qed.

Lemma loop_sane (l : list nat) (st : loop_state) :
  sane st -> sane (fold_left body l st).
Proof.
  revert st. induction l as [| i l IH]; intros st S; simpl; [exact S |].
  apply IH, body_sane, S.
Qed.

Lemma loop_processed (l : list nat) (st : loop_state) :
  (processedCount (fold_left body l st) <= processedCount st + length l)%nat.
Proof.
  revert st. induction l as [| i l IH]; intros st; simpl; [lia |].
  specialize (IH (body st i)).
  destruct (body_cases st i) as [E | (tac & oog & B & E)];
    unfold aggregates in E; injection E as _ _ _ EP; lia.
Qed.

End Accounting.

Lemma initial_sane (len : nat) : sane (initial len).
Proof. unfold sane, initial; simpl. repeat split; try lra; lia. Qed.

Lemma sane_average (st : loop_state) : sane st -> 0 <= average st <= maxTAC st.
Proof.
  intros (T0 & TM & C & M0 & M3). unfold average.
  destruct (0 <? processedCount st)%nat eqn:E; [| lra].
  apply Nat.ltb_lt in E.
  assert (P : 0 < inject_Z (Z.of_nat (processedCount st)))
    by (change 0 with (inject_Z 0); rewrite <- Zlt_Qlt; lia).
  split; [apply Qle_shift_div_l | apply Qle_shift_div_r]; try exact P; lra.
Qed.

Lemma sane_gamutPercent (st : loop_state) : sane st -> 0 <= gamutPercent st <= 100.
Proof.
  intros (T0 & TM & C & M0 & M3). unfold gamutPercent.
  destruct (0 <? processedCount st)%nat eqn:E; [| lra].
  apply Nat.ltb_lt in E.
  assert (P : 0 < inject_Z (Z.of_nat (processedCount st)))
    by (change 0 with (inject_Z 0); rewrite <- Zlt_Qlt; lia).
  assert (O0 : 0 <= inject_Z (Z.of_nat (outOfGamutCount st)))
    by (change 0 with (inject_Z 0); rewrite <- Zle_Qle; lia).
  assert (OP : inject_Z (Z.of_nat (outOfGamutCount st))
               <= inject_Z (Z.of_nat (processedCount st)))
    by (rewrite <- Zle_Qle; lia).
  assert (F0 : 0 <= inject_Z (Z.of_nat (outOfGamutCount st))
                    / inject_Z (Z.of_nat (processedCount st)))
    by (apply Qle_shift_div_l; [exact P | lra]).
  assert (F1 : inject_Z (Z.of_nat (outOfGamutCount st))
               / inject_Z (Z.of_nat (processedCount st)) <= 1)
    by (apply Qle_shift_div_r; [exact P | lra]).
  split; lra.
Qed.

(** The rounded figures of a consistent state. *)
Lemma sane_figures (st : loop_state) :
  sane st ->
  (0 <= js_round (average st) <= js_round (maxTAC st))%Z
  /\ (js_round (maxTAC st) <= 300)%Z
  /\ 0 <= inject_Z (js_round (gamutPercent st * 10)) / 10 <= 100.
Proof.
  intros S. destruct (sane_average st S) as [A0 AM].
  destruct (sane_gamutPercent st S) as [G0 G1].
  destruct S as (_ & _ & _ & M0 & M3).
  split; [split |]; [| | split; [| split]].
  - change 0%Z with (js_round 0). apply js_round_le, A0.
  - apply js_round_le, AM.
  - change 300%Z with (js_round 300). apply js_round_le, M3.
  - apply Qle_shift_div_l; [reflexivity |].
    change (0 * 10) with (inject_Z (js_round 0)). rewrite <- Zle_Qle.
    apply js_round_le. lra.
  - apply Qle_shift_div_r; [reflexivity |].
    change (100 * 10) with (inject_Z (js_round 1000)). rewrite <- Zle_Qle.
    apply js_round_le. lra.
Qed.

Section Figures.
Context {M : MathLib}.

Lemma Worker_step_cases (pixels : list Z) (s : settings) (pc : Q) (pi : Z)
    (st : loop_state) (i : nat) :
  aggregates (Worker.step pixels s pc pi st i) = aggregates st
  \/ exists tac oog,
       0 <= tac <= 300
       /\ aggregates (Worker.step pixels s pc pi st i)
          = (totalTAC st + tac,
             (if Qgtb tac (maxTAC st) then tac else maxTAC st),
             (if oog : bool then S (outOfGamutCount st) else outOfGamutCount st),
             S (processedCount st)).
Proof.
  unfold Worker.step. cbv zeta.
  destruct (get pixels (i * 4 + 3) =? 0)%Z; [left; reflexivity | right].
  eexists. eexists. split; [apply Worker_coverage_le_300 | reflexivity].
Qed.

Lemma ColorEngine_step_cases (pixels : list Z) (s : settings)
    (st : loop_state) (i : nat) :
  aggregates (ColorEngine.step pixels s st i) = aggregates st
  \/ exists tac oog,
       0 <= tac <= 300
       /\ aggregates (ColorEngine.step pixels s st i)
          = (totalTAC st + tac,
             (if Qgtb tac (maxTAC st) then tac else maxTAC st),
             (if oog : bool then S (outOfGamutCount st) else outOfGamutCount st),
             S (processedCount st)).
Proof.
  unfold ColorEngine.step. cbv zeta.
  destruct (get pixels (i * 4 + 3) =? 0)%Z; [left; reflexivity | right].
  eexists. eexists. split; [apply ColorEngine_coverage_le_300 | reflexivity].
Qed.

Lemma MainDemo_step_cases (pixels : list Z) (s : settings)
    (st : loop_state) (i : nat) :
  aggregates (MainDemo.step pixels s st i) = aggregates st
  \/ exists tac oog,
       0 <= tac <= 300
       /\ aggregates (MainDemo.step pixels s st i)
          = (totalTAC st + tac,
             (if Qgtb tac (maxTAC st) then tac else maxTAC st),
             (if oog : bool then S (outOfGamutCount st) else outOfGamutCount st),
             S (processedCount st)).
Proof.
  unfold MainDemo.step. cbv zeta.
  destruct (get pixels (i * 4 + 3) =? 0)%Z; [left; reflexivity | right].
  eexists. eexists. split; [| reflexivity].
  rewrite MainDemo_inks_eq.
  apply three_inks; [| apply Worker_inks_zero_channel].
  apply Worker_inflated_unit, Worker_shifted_unit.
Qed.

Lemma Worker_run_loop_sane (pixels : list Z) (s : settings) :
  sane (Worker.run_loop pixels s).
Proof.
  unfold Worker.run_loop. cbv zeta.
  apply loop_sane; [apply Worker_step_cases | apply initial_sane].
Qed.

Lemma ColorEngine_run_loop_sane (pixels : list Z) (s : settings) :
  sane (ColorEngine.run_loop pixels s).
Proof.
  unfold ColorEngine.run_loop. cbv zeta.
  apply loop_sane; [apply ColorEngine_step_cases | apply initial_sane].
Qed.

(** X3: the total coverage of a pixel never exceeds 300: the channel of
    the largest of r, g, b carries no ink and the other three at most 1
    each.  So the running maximum of either loop stays within [0,300],
    for every RGBA buffer and all settings. *)
Theorem X3_coverage_at_most_300 (pixels : list Z) (s : settings) (r g b : Z) :
  rgba_shaped pixels ->
  0 <= Worker.totalCoverage (Worker.inks r g b s) <= 300
  /\ 0 <= ColorEngine.totalInkCoverage (ch_c (ColorEngine.inks r g b s))
            (ch_m (ColorEngine.inks r g b s)) (ch_y (ColorEngine.inks r g b s))
            (ch_k (ColorEngine.inks r g b s)) <= 300
  /\ 0 <= (ch_c (MainDemo.inks r g b s) + ch_m (MainDemo.inks r g b s)
           + ch_y (MainDemo.inks r g b s) + ch_k (MainDemo.inks r g b s)) * 100 <= 300
  /\ 0 <= maxTAC (Worker.run_loop pixels s) <= 300
  /\ 0 <= maxTAC (ColorEngine.run_loop pixels s) <= 300.
Proof.
  intros _.
  split; [apply Worker_coverage_le_300 |].
  split; [apply ColorEngine_coverage_le_300 |].
  split; [rewrite MainDemo_inks_eq; exact (Worker_coverage_le_300 r g b s) |].
  split; [apply Worker_run_loop_sane | apply ColorEngine_run_loop_sane].
Qed.

Lemma no_danger_by_coverage (limit mx pct : Q) (l : level) :
  three_tier limit mx pct l -> mx <= limit + 30 -> l = danger -> pct > 25.
Proof.
  intros (_ & C & S & _) B D.
  destruct (Qlt_le_dec 25 pct) as [G | G]; [exact G | exfalso].
  assert (NH : ~ (mx > limit + 30 \/ pct > 25)) by (intros [H | H]; lra).
  destruct (Qlt_le_dec limit mx) as [Md | Md].
  - rewrite (C NH (or_introl Md)) in D. discriminate.
  - destruct (Qlt_le_dec 10 pct) as [P | P].
    + rewrite (C NH (or_intror P)) in D. discriminate.
    + rewrite (S NH) in D; [discriminate | intros [H | H]; lra].
Qed.

Lemma no_warning_by_coverage (limit mx pct : Q) (l : level) :
  three_tier limit mx pct l -> mx <= limit -> l <> safe -> pct > 10.
Proof.
  intros (_ & _ & _ & _ & S) B N.
  destruct (Qlt_le_dec 10 pct) as [G | G]; [exact G | exfalso].
  apply N, S; assumption.
Qed.

(** X4: the coverage alone never raises the verdict on coated paper, and
    never raises it to danger on uncoated paper: on a paper other than
    newsprint a verdict of danger means that more than 25% of the
    processed pixels are out of gamut, and on coated paper any verdict but
    safe means that more than 10% are; in worker.js and colorEngine.js, on
    an RGBA buffer. *)
Theorem X4_verdict_on_coated_and_uncoated (pixels : list Z) (s : settings) :
  rgba_shaped pixels ->
  (paperType s <> newsprint ->
   (risk_level (st_risk (res_stats (snd (Worker.processImage pixels s)))) = danger
    -> gamutPercent (Worker.run_loop pixels s) > 25)
   /\ (risk_level (st_risk (res_stats (ColorEngine.processImage pixels s))) = danger
       -> gamutPercent (ColorEngine.run_loop pixels s) > 25))
  /\ (paperType s = coated ->
      (risk_level (st_risk (res_stats (snd (Worker.processImage pixels s)))) <> safe
       -> gamutPercent (Worker.run_loop pixels s) > 10)
      /\ (risk_level (st_risk (res_stats (ColorEngine.processImage pixels s))) <> safe
          -> gamutPercent (ColorEngine.run_loop pixels s) > 10)).
Proof.
  intros _.
  destruct (Worker_run_loop_sane pixels s) as (_ & _ & _ & _ & MW).
  destruct (ColorEngine_run_loop_sane pixels s) as (_ & _ & _ & _ & ME).
  pose proof (Worker_assess_level (Worker.PAPER_PROFILES (paperType s))
                (maxTAC (Worker.run_loop pixels s))
                (gamutPercent (Worker.run_loop pixels s))) as TW.
  pose proof (ColorEngine_assessPrintRisk_level (average (ColorEngine.run_loop pixels s))
                (maxTAC (ColorEngine.run_loop pixels s))
                (gamutPercent (ColorEngine.run_loop pixels s)) (paperType s)) as TE.
  split.
  - intros N.
    assert (L : forall mx : Q, mx <= 300 ->
                  mx <= inject_Z (inkLimit (Worker.PAPER_PROFILES (paperType s))) + 30
                  /\ mx <= inject_Z (inkLimit (ColorEngine.PAPER_PROFILES (paperType s)))
                           + 30).
    { intros mx H. destruct (paperType s); [| | contradiction];
        cbn [Worker.PAPER_PROFILES ColorEngine.PAPER_PROFILES inkLimit];
        unfold inject_Z; split; lra. }
    split; intros D.
    + apply (no_danger_by_coverage _ _ _ _ TW); [apply (L _ MW) | exact D].
    + apply (no_danger_by_coverage _ _ _ _ TE); [apply (L _ ME) | exact D].
  - intros C.
    assert (L : forall mx : Q, mx <= 300 ->
                  mx <= inject_Z (inkLimit (Worker.PAPER_PROFILES (paperType s)))
                  /\ mx <= inject_Z (inkLimit (ColorEngine.PAPER_PROFILES (paperType s)))).
    { intros mx H. rewrite C.
      cbn [Worker.PAPER_PROFILES ColorEngine.PAPER_PROFILES inkLimit].
      unfold inject_Z; split; lra. }
    split; intros N.
    + apply (no_warning_by_coverage _ _ _ _ TW); [apply (L _ MW) | exact N].
    + apply (no_warning_by_coverage _ _ _ _ TE); [apply (L _ ME) | exact N].
Qed.

(** X5: the statistics record of the result for an RGBA buffer is plausible: the rounded
    average coverage lies between 0 and the rounded maximum, the rounded
    maximum is at most 300, and the out-of-gamut percentage lies between 0
    and 100; in worker.js, colorEngine.js and main-demo.js, the latter
    always handing a result to [onDone]. *)
Theorem X5_statistics_are_plausible (pixels : list Z) (s : settings) :
  rgba_shaped pixels ->
  plausible (res_stats (snd (Worker.processImage pixels s)))
  /\ plausible (res_stats (ColorEngine.processImage pixels s))
  /\ exists reported r,
       MainDemo.processPixels pixels s = Some (reported, r) /\ plausible (res_stats r).
Proof.
  intros _. split; [| split].
  - destruct (sane_figures _ (Worker_run_loop_sane pixels s)) as (A & B & C).
    unfold plausible, Worker.processImage. cbv zeta.
    cbn [snd res_stats st_avgTAC st_maxTAC st_outOfGamutPercent]. auto.
  - destruct (sane_figures _ (ColorEngine_run_loop_sane pixels s)) as (A & B & C).
    unfold plausible, ColorEngine.processImage. cbv zeta.
    cbn [res_stats st_avgTAC st_maxTAC st_outOfGamutPercent]. auto.
  - destruct (MainDemo_processPixels_returns pixels s) as [reported H].
    exists reported. eexists. split; [exact H |].
    assert (S : sane (fold_left (MainDemo.step pixels s) (seq 0 (length pixels / 4))
                        (initial (length pixels))))
      by (apply loop_sane; [apply MainDemo_step_cases | apply initial_sane]).
    destruct (sane_figures _ S) as (A & B & C).
    unfold plausible, MainDemo.done. cbv zeta.
    cbn [res_stats st_avgTAC st_maxTAC st_outOfGamutPercent]. auto.
Qed.

End Figures.


(** ** The result buffers *)

Lemma get_lookup (a : list Z) (j : nat) : (j < length a)%nat -> a !! j = Some (get a j).
Proof.
  intros H. unfold get. destruct (a !! j) eqn:E; [reflexivity |].
  apply lookup_ge_None in E. lia.
Qed.

Lemma get_of_lookup (a b : list Z) (j : nat) : a !! j = b !! j -> get a j = get b j.
Proof. unfold get. intros ->. reflexivity. Qed.

Lemma get_is_byte (a : list Z) (j : nat) : byte_buffer a -> clamp8 (get a j) = get a j.
Proof.
  intros H. unfold get, clamp8. destruct (a !! j) as [v |] eqn:E; simpl; [| reflexivity].
  unfold byte_buffer in H. rewrite Forall_lookup in H. specialize (H j v E). lia.
Qed.

Lemma pixel_of_index (len j : nat) :
  (len mod 4 = 0)%nat -> (j < len)%nat ->
  in_pixel (j / 4) j /\ (j / 4 < len / 4)%nat /\ (j / 4 * 4 + 3 < len)%nat.
Proof.
  intros Hs Hj. unfold in_pixel.
  pose proof (Nat.div_mod_eq j 4). pose proof (Nat.mod_upper_bound j 4).
  pose proof (Nat.div_mod_eq len 4). lia.
Qed.

(** Two loops over buffers that write, at [i], only inside pixel [i]: the
    bytes of pixel [i] after both loops are those after the two bodies have
    run at [i] on states that agree there. *)
Section TwoLoops.
Variable buffer : loop_state -> list Z.
Variables body1 body2 : loop_state -> nat -> loop_state.
Hypothesis length1 : forall st i, length (buffer (body1 st i)) = length (buffer st).
Hypothesis length2 : forall st i, length (buffer (body2 st i)) = length (buffer st).
Hypothesis elsewhere1 :
  forall st i j, ~ in_pixel i j -> buffer (body1 st i) !! j = buffer st !! j.
Hypothesis elsewhere2 :
  forall st i j, ~ in_pixel i j -> buffer (body2 st i) !! j = buffer st !! j.

Lemma loops_agree_at (n i j : nat) (st1 st2 : loop_state) :
  (i < n)%nat -> in_pixel i j ->
  buffer st1 !! j = buffer st2 !! j ->
  (forall a b, buffer a !! j = buffer b !! j ->
               length (buffer a) = length (buffer st1) ->
               length (buffer b) = length (buffer st2) ->
               buffer (body1 a i) !! j = buffer (body2 b i) !! j) ->
  buffer (fold_left body1 (seq 0 n) st1) !! j
  = buffer (fold_left body2 (seq 0 n) st2) !! j.
Proof.
  intros Hi Hj H0 Hstep.
  replace n with (i + S (n - S i))%nat by lia.
  rewrite seq_app, !fold_left_app. simpl.
  assert (After : forall i', In i' (seq (S i) (n - S i)) -> ~ in_pixel i' j)
    by (intros i' Hin; apply in_seq in Hin; unfold in_pixel in *; lia).
  assert (Before : forall i', In i' (seq 0 i) -> ~ in_pixel i' j)
    by (intros i' Hin; apply in_seq in Hin; unfold in_pixel in *; lia).
  rewrite (loop_elsewhere buffer body1 elsewhere1 _ _ _ After).
  rewrite (loop_elsewhere buffer body2 elsewhere2 _ _ _ After).
  apply Hstep.
  - rewrite (loop_elsewhere buffer body1 elsewhere1 _ _ _ Before).
    rewrite (loop_elsewhere buffer body2 elsewhere2 _ _ _ Before). exact H0.
  - apply (loop_length buffer body1 length1).
  - apply (loop_length buffer body2 length2).
Qed.

End TwoLoops.

Section Buffers.
Context {M : MathLib}.

(** X6: the two buffers of every result have the length of the input; in
    worker.js, colorEngine.js and main-demo.js. *)
Theorem X6_result_buffers_have_input_length (pixels : list Z) (s : settings) :
  (length (res_outputPixels (snd (Worker.processImage pixels s))) = length pixels
   /\ length (res_gamutPixels (snd (Worker.processImage pixels s))) = length pixels)
  /\ (length (res_outputPixels (ColorEngine.processImage pixels s)) = length pixels
      /\ length (res_gamutPixels (ColorEngine.processImage pixels s)) = length pixels)
  /\ exists reported r,
       MainDemo.processPixels pixels s = Some (reported, r)
       /\ length (res_outputPixels r) = length pixels
       /\ length (res_gamutPixels r) = length pixels.
Proof.
  assert (I : forall len, length (new_array len) = len)
    by (intros len; apply length_replicate).
  split; [| split].
  - unfold Worker.processImage, Worker.run_loop. cbv zeta.
    cbn [snd res_outputPixels res_gamutPixels].
    rewrite (loop_length outputPixels _ (Worker_out_length pixels s _ _)).
    rewrite (loop_length gamutPixels _ (Worker_gam_length pixels s _ _)).
    split; apply I.
  - unfold ColorEngine.processImage, ColorEngine.run_loop. cbv zeta.
    cbn [res_outputPixels res_gamutPixels].
    rewrite (loop_length outputPixels _ (ColorEngine_out_length pixels s)).
    rewrite (loop_length gamutPixels _ (ColorEngine_gam_length pixels s)).
    split; apply I.
  - destruct (MainDemo_processPixels_returns pixels s) as [reported H].
    exists reported. eexists. split; [exact H |].
    unfold MainDemo.done. cbv zeta. cbn [res_outputPixels res_gamutPixels].
    assert (LO : forall st i, length (outputPixels (MainDemo.step pixels s st i))
                              = length (outputPixels st)).
    { intros st i. unfold MainDemo.step. cbv zeta.
      destruct (get pixels (i * 4 + 3) =? 0)%Z; cbn [outputPixels]; puts; reflexivity. }
    assert (LG : forall st i, length (gamutPixels (MainDemo.step pixels s st i))
                              = length (gamutPixels st)).
    { intros st i. unfold MainDemo.step. cbv zeta.
      destruct (get pixels (i * 4 + 3) =? 0)%Z; cbn [gamutPixels];
        [| destruct (gamutOverlay s && _)]; puts; reflexivity. }
    rewrite (loop_length outputPixels _ LO), (loop_length gamutPixels _ LG).
    split; apply I.
Qed.

Lemma Worker_step_local_out (p1 p2 : list Z) (s : settings) (pc : Q) (pi : Z)
    (a b : loop_state) (i j : nat) :
  in_pixel i j ->
  (forall k, in_pixel i k -> get p1 k = get p2 k) ->
  (i * 4 + 3 < length (outputPixels a))%nat ->
  (i * 4 + 3 < length (outputPixels b))%nat ->
  outputPixels (Worker.step p1 s pc pi a i) !! j
  = outputPixels (Worker.step p2 s pc pi b i) !! j.
Proof.
  intros Hj Hp La Lb. unfold Worker.step. cbv zeta.
  rewrite <- (Hp (i * 4)%nat), <- (Hp (i * 4 + 1)%nat), <- (Hp (i * 4 + 2)%nat),
    <- (Hp (i * 4 + 3)%nat) by (unfold in_pixel; lia).
  assert (C : j = (i * 4)%nat \/ j = (i * 4 + 1)%nat \/ j = (i * 4 + 2)%nat
              \/ j = (i * 4 + 3)%nat) by (unfold in_pixel in Hj; lia).
  destruct (get p1 (i * 4 + 3) =? 0)%Z; cbn [outputPixels];
    destruct C as [-> | [-> | [-> | ->]]]; puts; reflexivity.
Qed.

Lemma Worker_step_local_gam (p1 p2 : list Z) (s : settings) (pc : Q) (pi : Z)
    (a b : loop_state) (i j : nat) :
  in_pixel i j ->
  (forall k, in_pixel i k -> get p1 k = get p2 k) ->
  (i * 4 + 3 < length (gamutPixels a))%nat ->
  (i * 4 + 3 < length (gamutPixels b))%nat ->
  gamutPixels a !! j = gamutPixels b !! j ->
  gamutPixels (Worker.step p1 s pc pi a i) !! j
  = gamutPixels (Worker.step p2 s pc pi b i) !! j.
Proof.
  intros Hj Hp La Lb E. unfold Worker.step. cbv zeta.
  rewrite <- (Hp (i * 4)%nat), <- (Hp (i * 4 + 1)%nat), <- (Hp (i * 4 + 2)%nat),
    <- (Hp (i * 4 + 3)%nat) by (unfold in_pixel; lia).
  assert (C : j = (i * 4)%nat \/ j = (i * 4 + 1)%nat \/ j = (i * 4 + 2)%nat
              \/ j = (i * 4 + 3)%nat) by (unfold in_pixel in Hj; lia).
  destruct (get p1 (i * 4 + 3) =? 0)%Z; cbn [gamutPixels];
    [| destruct (gamutOverlay s && _)];
    destruct C as [-> | [-> | [-> | ->]]]; puts; first [reflexivity | exact E].
Qed.

Lemma ColorEngine_step_local_out (p1 p2 : list Z) (s : settings)
    (a b : loop_state) (i j : nat) :
  in_pixel i j ->
  (forall k, in_pixel i k -> get p1 k = get p2 k) ->
  (i * 4 + 3 < length (outputPixels a))%nat ->
  (i * 4 + 3 < length (outputPixels b))%nat ->
  outputPixels (ColorEngine.step p1 s a i) !! j
  = outputPixels (ColorEngine.step p2 s b i) !! j.
Proof.
  intros Hj Hp La Lb. unfold ColorEngine.step. cbv zeta.
  rewrite <- (Hp (i * 4)%nat), <- (Hp (i * 4 + 1)%nat), <- (Hp (i * 4 + 2)%nat),
    <- (Hp (i * 4 + 3)%nat) by (unfold in_pixel; lia).
  assert (C : j = (i * 4)%nat \/ j = (i * 4 + 1)%nat \/ j = (i * 4 + 2)%nat
              \/ j = (i * 4 + 3)%nat) by (unfold in_pixel in Hj; lia).
  destruct (get p1 (i * 4 + 3) =? 0)%Z; cbn [outputPixels];
    destruct C as [-> | [-> | [-> | ->]]]; puts; reflexivity.
Qed.

Lemma ColorEngine_step_local_gam (p1 p2 : list Z) (s : settings)
    (a b : loop_state) (i j : nat) :
  in_pixel i j ->
  (forall k, in_pixel i k -> get p1 k = get p2 k) ->
  (i * 4 + 3 < length (gamutPixels a))%nat ->
  (i * 4 + 3 < length (gamutPixels b))%nat ->
  gamutPixels (ColorEngine.step p1 s a i) !! j
  = gamutPixels (ColorEngine.step p2 s b i) !! j.
Proof.
  intros Hj Hp La Lb. unfold ColorEngine.step. cbv zeta.
  rewrite <- (Hp (i * 4)%nat), <- (Hp (i * 4 + 1)%nat), <- (Hp (i * 4 + 2)%nat),
    <- (Hp (i * 4 + 3)%nat) by (unfold in_pixel; lia).
  assert (C : j = (i * 4)%nat \/ j = (i * 4 + 1)%nat \/ j = (i * 4 + 2)%nat
              \/ j = (i * 4 + 3)%nat) by (unfold in_pixel in Hj; lia).
  destruct (get p1 (i * 4 + 3) =? 0)%Z; cbn [gamutPixels];
    [| destruct (gamutOverlay s && _)];
    destruct C as [-> | [-> | [-> | ->]]]; puts; reflexivity.
Qed.

(** X7: a pixel of the result depends on the same pixel of the input only:
    two RGBA buffers of the same length that agree on pixel [i] give, for
    the same settings, output buffers and overlay buffers that agree on
    pixel [i]; in worker.js and colorEngine.js. *)
Theorem X7_pixels_are_processed_independently (p1 p2 : list Z) (s : settings)
    (i j : nat) :
  rgba_shaped p1 -> length p1 = length p2 ->
  (i * 4 + 3 < length p1)%nat -> in_pixel i j ->
  (forall k, in_pixel i k -> p1 !! k = p2 !! k) ->
  (res_outputPixels (snd (Worker.processImage p1 s)) !! j
   = res_outputPixels (snd (Worker.processImage p2 s)) !! j
   /\ res_gamutPixels (snd (Worker.processImage p1 s)) !! j
      = res_gamutPixels (snd (Worker.processImage p2 s)) !! j)
  /\ (res_outputPixels (ColorEngine.processImage p1 s) !! j
      = res_outputPixels (ColorEngine.processImage p2 s) !! j
      /\ res_gamutPixels (ColorEngine.processImage p1 s) !! j
         = res_gamutPixels (ColorEngine.processImage p2 s) !! j).
Proof.
  intros Hs Hlen Hi Hj Hp.
  assert (Hg : forall k, in_pixel i k -> get p1 k = get p2 k)
    by (intros k Hk; apply get_of_lookup, Hp, Hk).
  assert (Hn : (i < length p1 / 4)%nat).
  { unfold rgba_shaped in Hs. pose proof (Nat.div_mod_eq (length p1) 4). lia. }
  assert (L0 : forall len, length (new_array len) = len)
    by (intros len; apply length_replicate).
  unfold Worker.processImage, ColorEngine.processImage, Worker.run_loop,
    ColorEngine.run_loop. cbv zeta.
  cbn [snd res_outputPixels res_gamutPixels].
  rewrite <- Hlen, (loop_count_shaped _ Hs).
  split; split.
  - apply (loops_agree_at outputPixels _ _
             (Worker_out_length _ _ _ _) (Worker_out_length _ _ _ _)
             (Worker_out_elsewhere _ _ _ _) (Worker_out_elsewhere _ _ _ _) _ i);
      [exact Hn | exact Hj | reflexivity |].
    intros a b E La Lb. unfold initial in La, Lb. cbn [outputPixels] in La, Lb.
    rewrite L0 in La, Lb.
    apply (Worker_step_local_out p1 p2 s _ _ a b i j Hj Hg); lia.
  - apply (loops_agree_at gamutPixels _ _
             (Worker_gam_length _ _ _ _) (Worker_gam_length _ _ _ _)
             (Worker_gam_elsewhere _ _ _ _) (Worker_gam_elsewhere _ _ _ _) _ i);
      [exact Hn | exact Hj | reflexivity |].
    intros a b E La Lb. unfold initial in La, Lb. cbn [gamutPixels] in La, Lb.
    rewrite L0 in La, Lb.
    apply (Worker_step_local_gam p1 p2 s _ _ a b i j Hj Hg); [lia | lia | exact E].
  - apply (loops_agree_at outputPixels _ _
             (ColorEngine_out_length _ _) (ColorEngine_out_length _ _)
             (ColorEngine_out_elsewhere _ _) (ColorEngine_out_elsewhere _ _) _ i);
      [exact Hn | exact Hj | reflexivity |].
    intros a b E La Lb. unfold initial in La, Lb. cbn [outputPixels] in La, Lb.
    rewrite L0 in La, Lb.
    apply (ColorEngine_step_local_out p1 p2 s a b i j Hj Hg); lia.
  - apply (loops_agree_at gamutPixels _ _
             (ColorEngine_gam_length _ _) (ColorEngine_gam_length _ _)
             (ColorEngine_gam_elsewhere _ _) (ColorEngine_gam_elsewhere _ _) _ i);
      [exact Hn | exact Hj | reflexivity |].
    intros a b E La Lb. unfold initial in La, Lb. cbn [gamutPixels] in La, Lb.
    rewrite L0 in La, Lb.
    apply (ColorEngine_step_local_gam p1 p2 s a b i j Hj Hg); lia.
Qed.

Lemma put_zero_replicate (n j : nat) : put (replicate n 0%Z) j 0 = replicate n 0%Z.
Proof. unfold put. change (clamp8 0) with 0%Z. apply insert_replicate. Qed.

Lemma get_put (a : list Z) (i j : nat) (v : Z) :
  get (put a i v) j = if (i =? j)%nat && (i <? length a)%nat then clamp8 v else get a j.
Proof.
  unfold get, put.
  destruct (Nat.eqb_spec i j) as [-> | N]; simpl.
  - destruct (Nat.ltb_spec j (length a)) as [L | L].
    + rewrite list_lookup_insert_eq by exact L. reflexivity.
    + rewrite list_insert_ge by exact L. reflexivity.
  - rewrite list_lookup_insert_ne by exact N. reflexivity.
Qed.

(** X8: with the overlay switched off the overlay buffer shows nothing:
    in worker.js and main-demo.js it is the zero buffer of the length of
    the input, and in colorEngine.js the alpha of each of its pixels
    is 0. *)
Theorem X8_overlay_off_is_blank (pixels : list Z) (s : settings) (i : nat) :
  gamutOverlay s = false ->
  res_gamutPixels (snd (Worker.processImage pixels s)) = new_array (length pixels)
  /\ (exists reported r,
        MainDemo.processPixels pixels s = Some (reported, r)
        /\ res_gamutPixels r = new_array (length pixels))
  /\ get (res_gamutPixels (ColorEngine.processImage pixels s)) (i * 4 + 3) = 0%Z.
Proof.
  intros Off. split; [| split].
  - unfold Worker.processImage, Worker.run_loop. cbv zeta. cbn [snd res_gamutPixels].
    generalize (seq 0 (loop_count (inject_Z (Z.of_nat (length pixels)) / 4))).
    intros l.
    assert (I : gamutPixels (initial (length pixels)) = new_array (length pixels))
      by reflexivity.
    revert I. generalize (initial (length pixels)).
    induction l as [| k l IH]; intros st I; simpl; [exact I |].
    apply IH. unfold Worker.step. cbv zeta. rewrite Off.
    destruct (get pixels (k * 4 + 3) =? 0)%Z; cbn [gamutPixels andb];
      rewrite I; apply put_zero_replicate.
  - destruct (MainDemo_processPixels_returns pixels s) as [reported H].
    exists reported. eexists. split; [exact H |].
    unfold MainDemo.done. cbv zeta. cbn [res_gamutPixels].
    generalize (seq 0 (length pixels / 4)). intros l.
    assert (I : gamutPixels (initial (length pixels)) = new_array (length pixels))
      by reflexivity.
    revert I. generalize (initial (length pixels)).
    induction l as [| k l IH]; intros st I; simpl; [exact I |].
    apply IH. unfold MainDemo.step. cbv zeta. rewrite Off.
    destruct (get pixels (k * 4 + 3) =? 0)%Z; cbn [gamutPixels andb];
      rewrite I; apply put_zero_replicate.
  - unfold ColorEngine.processImage, ColorEngine.run_loop. cbv zeta.
    cbn [res_gamutPixels].
    generalize (seq 0 (loop_count (inject_Z (Z.of_nat (length pixels)) / 4))).
    intros l.
    assert (I : forall n, get (gamutPixels (initial (length pixels))) (n * 4 + 3) = 0%Z).
    { intros n. unfold initial, get, new_array. cbn [gamutPixels].
      destruct (replicate (length pixels) 0%Z !! (n * 4 + 3)%nat) eqn:E;
        [| reflexivity].
      apply lookup_replicate in E. destruct E as [-> _]. reflexivity. }
    revert i I. generalize (initial (length pixels)).
    induction l as [| k l IH]; intros st i I; simpl; [apply I |].
    apply IH. intros n. unfold ColorEngine.step. cbv zeta. rewrite Off.
    destruct (get pixels (k * 4 + 3) =? 0)%Z; cbn [gamutPixels andb];
      rewrite !get_put, !put_length;
      repeat match goal with
      | |- context [(?a =? ?b)%nat] => destruct (Nat.eqb_spec a b); try lia
      end; cbn [andb];
      try apply I; destruct (_ <? _)%nat; first [reflexivity | apply I].
Qed.

(** X9: with the four channels hidden every pixel of the output is white:
    on an RGBA buffer the red, green and blue bytes of each output pixel
    are 255; in worker.js and colorEngine.js. *)
Theorem X9_no_channel_shown_gives_white (pixels : list Z) (s : settings) (i j : nat) :
  showC s = false -> showM s = false -> showY s = false -> showK s = false ->
  rgba_shaped pixels -> (i * 4 + 3 < length pixels)%nat ->
  (i * 4 <= j <= i * 4 + 2)%nat ->
  res_outputPixels (snd (Worker.processImage pixels s)) !! j = Some 255%Z
  /\ res_outputPixels (ColorEngine.processImage pixels s) !! j = Some 255%Z.
Proof.
  intros Hc Hm Hy Hk Hs Hi Hj.
  assert (Hn : (i < length pixels / 4)%nat).
  { unfold rgba_shaped in Hs. pose proof (Nat.div_mod_eq (length pixels) 4). lia. }
  assert (C : j = (i * 4)%nat \/ j = (i * 4 + 1)%nat \/ j = (i * 4 + 2)%nat) by lia.
  unfold Worker.processImage, ColorEngine.processImage, Worker.run_loop,
    ColorEngine.run_loop. cbv zeta. cbn [snd res_outputPixels].
  rewrite (loop_count_shaped _ Hs).
  split.
  - apply (loop_keeps_write outputPixels _ (Worker_out_length _ _ _ _)
             (Worker_out_elsewhere _ _ _ _) _ i); [exact Hn | unfold in_pixel; lia |].
    intros st L. unfold initial in L. cbn [outputPixels] in L.
    unfold new_array in L. rewrite length_replicate in L.
    unfold Worker.step. cbv zeta. rewrite Hc, Hm, Hy, Hk.
    destruct (get pixels (i * 4 + 3) =? 0)%Z; cbn [outputPixels];
      destruct C as [-> | [-> | ->]]; puts; reflexivity.
  - apply (loop_keeps_write outputPixels _ (ColorEngine_out_length _ _)
             (ColorEngine_out_elsewhere _ _) _ i); [exact Hn | unfold in_pixel; lia |].
    intros st L. unfold initial in L. cbn [outputPixels] in L.
    unfold new_array in L. rewrite length_replicate in L.
    unfold ColorEngine.step. cbv zeta. rewrite Hc, Hm, Hy, Hk.
    destruct (get pixels (i * 4 + 3) =? 0)%Z; cbn [outputPixels];
      destruct C as [-> | [-> | ->]]; puts; reflexivity.
Qed.

Lemma get_range (a : list Z) (j : nat) : byte_buffer a -> (0 <= get a j <= 255)%Z.
Proof.
  intros H. unfold get. destruct (a !! j) as [v |] eqn:E; simpl; [| lia].
  unfold byte_buffer in H. rewrite Forall_lookup in H. exact (H j v E).
Qed.

(** Without tone shift and on coated paper the inks of a pixel give its
    colour back. *)
Lemma Worker_neutral_rgb (r g b : Z) (s : settings) :
  paperType s = coated -> set_dotGain s = 0 ->
  (0 <= r <= 255)%Z -> (0 <= g <= 255)%Z -> (0 <= b <= 255)%Z ->
  Worker.cmykToRgb (ch_c (Worker.inks r g b s)) (ch_m (Worker.inks r g b s))
    (ch_y (Worker.inks r g b s)) (ch_k (Worker.inks r g b s))
  = {| ch_r := r; ch_g := g; ch_b := b |}.
Proof.
  intros Hp Hg Hr Hgr Hb. unfold Worker.inks. cbv zeta. rewrite Hp, Hg.
  unfold Worker.inflated.
  change (Qgtb (gamutReduction (Worker.PAPER_PROFILES coated)) 0) with false.
  cbv iota. unfold Worker.shifted. cbn [ch_c ch_m ch_y ch_k].
  exact (Worker_round_trip_bytes r g b _ _ Hr Hgr Hb).
Qed.

(** X10: on coated paper, with a tone shift of 0 and the four channels
    shown, worker.js returns an RGBA image without transparent pixel as it
    received it: the output buffer is the input buffer. *)
Theorem X10_neutral_settings_return_the_image (pixels : list Z) (s : settings) :
  paperType s = coated -> set_dotGain s = 0 ->
  showC s = true -> showM s = true -> showY s = true -> showK s = true ->
  rgba_shaped pixels -> byte_buffer pixels ->
  (forall i, (i * 4 + 3 < length pixels)%nat -> get pixels (i * 4 + 3) <> 0%Z) ->
  res_outputPixels (snd (Worker.processImage pixels s)) = pixels.
Proof.
  intros Hp Hg Hc Hm Hy Hk Hs Hb Ha.
  apply list_eq. intros j.
  assert (Len : length (res_outputPixels (snd (Worker.processImage pixels s)))
                = length pixels).
  { unfold Worker.processImage, Worker.run_loop. cbv zeta. cbn [snd res_outputPixels].
    rewrite (loop_length outputPixels _ (Worker_out_length pixels s _ _)).
    apply length_replicate. }
  destruct (Nat.lt_ge_cases j (length pixels)) as [Lt | Ge].
  2: { rewrite (lookup_ge_None_2 pixels j Ge). apply lookup_ge_None_2. lia. }
  destruct (pixel_of_index _ j Hs Lt) as (Hj & Hn & Hi).
  set (i := (j / 4)%nat) in *. clearbody i.
  rewrite (get_lookup pixels j Lt).
  unfold Worker.processImage, Worker.run_loop. cbv zeta. cbn [snd res_outputPixels].
  rewrite (loop_count_shaped _ Hs).
  apply (loop_keeps_write outputPixels _ (Worker_out_length _ _ _ _)
           (Worker_out_elsewhere _ _ _ _) _ i); [exact Hn | exact Hj |].
  intros st L. unfold initial in L. cbn [outputPixels] in L.
  unfold new_array in L. rewrite length_replicate in L.
  unfold Worker.step. cbv zeta. rewrite Hc, Hm, Hy, Hk. cbv iota.
  destruct (get pixels (i * 4 + 3) =? 0)%Z eqn:E;
    [apply Z.eqb_eq in E; exfalso; exact (Ha i Hi E) |].
  rewrite (Worker_neutral_rgb _ _ _ s Hp Hg (get_range _ _ Hb) (get_range _ _ Hb)
             (get_range _ _ Hb)).
  cbn [outputPixels ch_r ch_g ch_b].
  assert (C : j = (i * 4)%nat \/ j = (i * 4 + 1)%nat \/ j = (i * 4 + 2)%nat
              \/ j = (i * 4 + 3)%nat) by (unfold in_pixel in Hj; lia).
  destruct C as [-> | [-> | [-> | ->]]]; puts; rewrite (get_is_byte _ _ Hb);
    reflexivity.
Qed.

End Buffers.

(** ** The coverage, the verdict and the buffers on concrete images *)

(** One saturated red pixel on coated paper: the verdict is danger, and
    the pixel is out of gamut. *)
(** The coverage of a pixel, and of the sample buffer. *)
Lemma X3_witness :
  0 <= maxTAC (@Worker.run_loop bhaskara sample_pixels all_shown) <= 300.
Proof.
  assert (Hs : rgba_shaped sample_pixels) by reflexivity.
  exact (proj1 (proj2 (proj2 (proj2
           (@X3_coverage_at_most_300 bhaskara sample_pixels all_shown 0 0 0 Hs))))).
Defined.

(** The statistics of the sample buffer. *)
Lemma X5_witness :
  plausible (res_stats (snd (@Worker.processImage bhaskara sample_pixels all_shown))).
Proof.
  assert (Hs : rgba_shaped sample_pixels) by reflexivity.
  exact (proj1 (@X5_statistics_are_plausible bhaskara sample_pixels all_shown Hs)).
Defined.

Lemma X4_witness :
  paperType coated_plain <> newsprint
  /\ risk_level (st_risk (res_stats
       (snd (@Worker.processImage bhaskara [255; 0; 0; 255]%Z coated_plain)))) = danger
  /\ gamutPercent (@Worker.run_loop bhaskara [255; 0; 0; 255]%Z coated_plain) > 25.
Proof.
  assert (N : paperType coated_plain <> newsprint) by discriminate.
  assert (D : risk_level (st_risk (res_stats
                (snd (@Worker.processImage bhaskara [255; 0; 0; 255]%Z coated_plain))))
              = danger) by (vm_compute; reflexivity).
  split; [exact N | split; [exact D |]].
  assert (Hs : rgba_shaped [255; 0; 0; 255]%Z) by reflexivity.
  exact (proj1 (proj1 (@X4_verdict_on_coated_and_uncoated bhaskara
                         [255; 0; 0; 255]%Z coated_plain Hs) N) D).
Defined.

(** The sample buffer and its variant agree on the third pixel. *)
Lemma X7_witness :
  res_outputPixels (snd (@Worker.processImage bhaskara sample_pixels all_shown)) !! 8%nat
  = res_outputPixels (snd (@Worker.processImage bhaskara sample_variant all_shown)) !! 8%nat.
Proof.
  refine (proj1 (proj1 (@X7_pixels_are_processed_independently bhaskara
                          sample_pixels sample_variant all_shown 2 8 _ _ _ _ _))).
  - reflexivity.
  - reflexivity.
  - unfold sample_pixels. cbn [length]. lia.
  - unfold in_pixel. lia.
  - intros k Hk. unfold in_pixel in Hk.
    assert (C : k = 8%nat \/ k = 9%nat \/ k = 10%nat \/ k = 11%nat) by lia.
    destruct C as [-> | [-> | [-> | ->]]]; reflexivity.
Defined.

(** The overlay of the sample buffer with the overlay switched off. *)
Lemma X8_witness :
  gamutOverlay all_shown = false
  /\ res_gamutPixels (snd (@Worker.processImage bhaskara sample_pixels all_shown))
     = new_array (length sample_pixels).
Proof.
  assert (H : gamutOverlay all_shown = false) by reflexivity.
  split; [exact H |].
  exact (proj1 (@X8_overlay_off_is_blank bhaskara sample_pixels all_shown 0 H)).
Defined.

(** The red byte of the first pixel of the variant, no channel shown. *)
Lemma X9_witness :
  res_outputPixels (snd (@Worker.processImage bhaskara sample_variant all_hidden)) !! 0%nat
  = Some 255%Z.
Proof.
  refine (proj1 (@X9_no_channel_shown_gives_white bhaskara sample_variant all_hidden
                   0 0 _ _ _ _ _ _ _)); try reflexivity.
  - unfold sample_variant. cbn [length]. lia.
  - lia.
Defined.

(** The opaque image under the neutral settings. *)
Lemma X10_witness :
  byte_buffer opaque_pixels
  /\ res_outputPixels (snd (@Worker.processImage bhaskara opaque_pixels neutral))
     = opaque_pixels.
Proof.
  assert (B : byte_buffer opaque_pixels).
  { unfold byte_buffer, opaque_pixels. repeat constructor; lia. }
  split; [exact B |].
  refine (@X10_neutral_settings_return_the_image bhaskara opaque_pixels neutral
            _ _ _ _ _ _ _ B _); try reflexivity.
  intros i Hi. unfold opaque_pixels in *. cbn [length] in Hi.
  assert (C : i = 0%nat \/ i = 1%nat \/ i = 2%nat) by lia.
  destruct C as [-> | [-> | ->]]; discriminate.
Defined.

(** ** The hover picker *)

Lemma percent_range (x : Q) : 0 <= x <= 1 -> (0 <= js_round (x * 100) <= 100)%Z.
Proof.
  intros [L U]. split.
  - rewrite <- (js_round_inject 0). apply js_round_le. change (inject_Z 0) with 0. lra.
  - rewrite <- (js_round_inject 100) at 2. apply js_round_le.
    change (inject_Z 100) with 100. lra.
Qed.

Lemma percent_zero (x : Q) : x == 0 -> js_round (x * 100) = 0%Z.
Proof.
  intros Z. rewrite <- (js_round_inject 0). apply js_round_comp.
  rewrite Z. reflexivity.
Qed.

(** Rounding the sum of four percentages, one of which is 0, and summing
    the four rounded percentages differ by at most 1. *)
Lemma round_of_sum_near (c m y k : Q) :
  c == 0 \/ m == 0 \/ y == 0 ->
  (Z.abs (js_round ((c + m + y + k) * 100)
          - (js_round (c * 100) + js_round (m * 100) + js_round (y * 100)
             + js_round (k * 100))) <= 1)%Z.
Proof.
  intros Hz.
  pose proof (js_round_bounds ((c + m + y + k) * 100)) as S.
  pose proof (js_round_bounds (c * 100)) as C.
  pose proof (js_round_bounds (m * 100)) as Mb.
  pose proof (js_round_bounds (y * 100)) as Y.
  pose proof (js_round_bounds (k * 100)) as K.
  assert (B : -2 < inject_Z (js_round ((c + m + y + k) * 100)
                             - (js_round (c * 100) + js_round (m * 100)
                                + js_round (y * 100) + js_round (k * 100))) < 2).
  { unfold Z.sub. rewrite inject_Z_plus, inject_Z_opp, !inject_Z_plus.
    destruct Hz as [Z | [Z | Z]].
    - rewrite (percent_zero c Z) in *. change (inject_Z 0) with 0 in *. split; lra.
    - rewrite (percent_zero m Z) in *. change (inject_Z 0) with 0 in *. split; lra.
    - rewrite (percent_zero y Z) in *. change (inject_Z 0) with 0 in *. split; lra. }
  destruct B as [B1 B2].
  change (-2) with (inject_Z (-2)) in B1. change 2 with (inject_Z 2) in B2.
  rewrite <- Zlt_Qlt in B1, B2. lia.
Qed.

Section Pickers.
Context {M : MathLib}.

(** The picker of colorEngine.js shows the inks after the tone shift. *)
Lemma ColorEngine_getPixelCmyk_shifted (r g b : Z) (p : paper) (gain : Q) :
  ColorEngine.getPixelCmyk r g b p gain
  = let t := ColorEngine.shifted gain (ColorEngine.PAPER_PROFILES p)
               (ColorEngine.converted r g b) in
    {| sw_c := js_round (ch_c t * 100); sw_m := js_round (ch_m t * 100);
       sw_y := js_round (ch_y t * 100); sw_k := js_round (ch_k t * 100);
       sw_tac := js_round ((ch_c t + ch_m t + ch_y t + ch_k t) * 100) |}.
Proof.
  unfold ColorEngine.getPixelCmyk, ColorEngine.shifted, ColorEngine.converted.
  cbv zeta. cbn [ch_c ch_m ch_y ch_k]. reflexivity.
Qed.

Lemma MainDemo_pixelCmyk_shifted (r g b : Z) (p : paper) (gain : Q) :
  MainDemo.pixelCmyk r g b p gain
  = let t := Worker.shifted gain (Worker.PAPER_PROFILES p) (Worker.converted r g b) in
    {| sw_c := js_round (ch_c t * 100); sw_m := js_round (ch_m t * 100);
       sw_y := js_round (ch_y t * 100); sw_k := js_round (ch_k t * 100);
       sw_tac := (js_round (ch_c t * 100) + js_round (ch_m t * 100)
                  + js_round (ch_y t * 100) + js_round (ch_k t * 100))%Z |}.
Proof.
  unfold MainDemo.pixelCmyk. cbv zeta.
  rewrite MainDemo_dotGain_fun, MainDemo_rgbToCmyk_fun, MainDemo_PAPERS_fun.
  unfold Worker.shifted, Worker.converted. cbn [ch_c ch_m ch_y ch_k]. reflexivity.
Qed.

Lemma ColorEngine_shifted_eq (r g b : Z) (p : paper) (gain : Q) :
  (0 <= r <= 255)%Z ->
  ColorEngine.shifted gain (ColorEngine.PAPER_PROFILES p) (ColorEngine.converted r g b)
  = Worker.shifted gain (Worker.PAPER_PROFILES p) (Worker.converted r g b).
Proof.
  intros Hr. rewrite (ColorEngine_converted_eq r g b Hr).
  unfold ColorEngine.shifted, Worker.shifted.
  rewrite !ColorEngine_applyDotGain_eq.
  assert (S : shadowGain (ColorEngine.PAPER_PROFILES p)
              = shadowGain (Worker.PAPER_PROFILES p)) by (destruct p; reflexivity).
  assert (H : highlightGain (ColorEngine.PAPER_PROFILES p)
              = highlightGain (Worker.PAPER_PROFILES p)) by (destruct p; reflexivity).
  rewrite S, H. reflexivity.
Qed.

Lemma Worker_shifted_zero_channel (gain : Q) (p : profile) (r g b : Z) :
  let t := Worker.shifted gain p (Worker.converted r g b) in
  ch_c t == 0 \/ ch_m t == 0 \/ ch_y t == 0.
Proof.
  cbv zeta. unfold Worker.shifted, Worker.converted. cbn [ch_c ch_m ch_y].
  destruct (Worker_rgbToCmyk_zero_channel (inject_Z r / 255) (inject_Z g / 255)
              (inject_Z b / 255)) as [Z | [Z | Z]];
    apply (Worker_applyDotGain_of_zero _ gain (shadowGain p) (highlightGain p)) in Z;
    rewrite Z; [left | right; left | right; right]; reflexivity.
Qed.

(** X11: the two hover pickers, [getPixelCmyk] of colorEngine.js (used by
    main.js) and [pixelCmyk] of main-demo.js, show the same four ink
    percentages for a byte pixel, each between 0 and 100; their totals lie
    between 0 and 300 and differ by at most 1 (one rounds the sum, the
    other sums the rounded values).  The unused [getPixelCmyk] of
    main-demo.js returns the same percentages with a total of 0. *)
Theorem X11_pickers_agree (r g b : Z) (p : paper) (gain : Q) :
  (0 <= r <= 255)%Z -> (0 <= g <= 255)%Z -> (0 <= b <= 255)%Z ->
  let e := ColorEngine.getPixelCmyk r g b p gain in
  let d := MainDemo.pixelCmyk r g b p gain in
  (sw_c d = sw_c e /\ sw_m d = sw_m e /\ sw_y d = sw_y e /\ sw_k d = sw_k e)
  /\ ((0 <= sw_c e <= 100)%Z /\ (0 <= sw_m e <= 100)%Z /\ (0 <= sw_y e <= 100)%Z
      /\ (0 <= sw_k e <= 100)%Z)
  /\ (0 <= sw_tac e <= 300)%Z /\ (0 <= sw_tac d <= 300)%Z
  /\ (Z.abs (sw_tac e - sw_tac d) <= 1)%Z
  /\ MainDemo.getPixelCmyk r g b p gain
     = {| sw_c := sw_c d; sw_m := sw_m d; sw_y := sw_y d; sw_k := sw_k d; sw_tac := 0 |}.
Proof.
  intros Hr Hg Hb. cbv zeta.
  assert (Old : MainDemo.getPixelCmyk r g b p gain
                = {| sw_c := sw_c (MainDemo.pixelCmyk r g b p gain);
                     sw_m := sw_m (MainDemo.pixelCmyk r g b p gain);
                     sw_y := sw_y (MainDemo.pixelCmyk r g b p gain);
                     sw_k := sw_k (MainDemo.pixelCmyk r g b p gain); sw_tac := 0 |}).
  { unfold MainDemo.getPixelCmyk, MainDemo.pixelCmyk. cbv zeta.
    cbn [sw_c sw_m sw_y sw_k]. reflexivity. }
  rewrite Old. clear Old.
  rewrite ColorEngine_getPixelCmyk_shifted, MainDemo_pixelCmyk_shifted.
  rewrite (ColorEngine_shifted_eq r g b p gain Hr). cbv zeta.
  set (t := Worker.shifted gain (Worker.PAPER_PROFILES p) (Worker.converted r g b)).
  cbn [sw_c sw_m sw_y sw_k sw_tac].
  pose proof (Worker_shifted_unit gain (Worker.PAPER_PROFILES p) (Worker.converted r g b))
    as U. fold t in U.
  pose proof (Worker_shifted_zero_channel gain (Worker.PAPER_PROFILES p) r g b) as Hz.
  cbv zeta in Hz. fold t in Hz.
  destruct U as (Uc & Um & Uy & Uk).
  pose proof (percent_range _ Uc) as Pc. pose proof (percent_range _ Um) as Pm.
  pose proof (percent_range _ Uy) as Py. pose proof (percent_range _ Uk) as Pk.
  pose proof (round_of_sum_near (ch_c t) (ch_m t) (ch_y t) (ch_k t) Hz) as N.
  assert (T : (0 <= js_round ((ch_c t + ch_m t + ch_y t + ch_k t) * 100) <= 300)%Z).
  { destruct (three_inks t (conj Uc (conj Um (conj Uy Uk))) Hz) as [L U].
    split.
    - rewrite <- (js_round_inject 0). apply js_round_le. exact L.
    - rewrite <- (js_round_inject 300). apply js_round_le. exact U. }
  assert (D : (js_round (ch_c t * 100) + js_round (ch_m t * 100)
               + js_round (ch_y t * 100) + js_round (ch_k t * 100) <= 300)%Z).
  { destruct Hz as [Z | [Z | Z]]; rewrite (percent_zero _ Z) in *; lia. }
  repeat split; try reflexivity; lia.
Qed.

Lemma inflate_grows (x f : Q) : 0 <= x <= 1 -> 0 <= f -> x <= js_min 1 (x * (1 + f)).
Proof.
  intros [L U] F. destruct (js_min_cases 1 (x * (1 + f))) as [[_ ->] | [_ ->]]; nra.
Qed.

(** X12: the picker of colorEngine.js leaves out the gamut reduction of
    the paper: its total never exceeds the rounded coverage that the pixel
    loop adds to the statistics for the same pixel and settings, and on
    coated paper the two are equal. *)
Theorem X12_picker_total_below_statistics (r g b : Z) (s : settings) :
  let shown := sw_tac (ColorEngine.getPixelCmyk r g b (paperType s) (set_dotGain s)) in
  let i := ColorEngine.inks r g b s in
  let counted :=
    js_round (ColorEngine.totalInkCoverage (ch_c i) (ch_m i) (ch_y i) (ch_k i)) in
  (shown <= counted)%Z /\ (paperType s = coated -> shown = counted).
Proof.
  cbv zeta. rewrite ColorEngine_getPixelCmyk_shifted. cbv zeta. cbn [sw_tac].
  unfold ColorEngine.inks, ColorEngine.totalInkCoverage. cbv zeta.
  set (p := ColorEngine.PAPER_PROFILES (paperType s)).
  set (t := ColorEngine.shifted (set_dotGain s) p (ColorEngine.converted r g b)).
  pose proof (ColorEngine_shifted_unit (set_dotGain s) p (ColorEngine.converted r g b))
    as U. fold t in U. destruct U as (Uc & Um & Uy & Uk).
  split.
  - apply js_round_le. unfold ColorEngine.inflated.
    assert (G : 0 <= gamutReduction p) by (unfold p; destruct (paperType s); cbn; lra).
    destruct (Qgtb (gamutReduction p) 0); [| lra].
    cbn [ch_c ch_m ch_y ch_k].
    pose proof (inflate_grows (ch_c t) (gamutReduction p * 0.5) Uc) as Ic.
    pose proof (inflate_grows (ch_m t) (gamutReduction p * 0.3) Um) as Im.
    pose proof (inflate_grows (ch_y t) (gamutReduction p * 0.3) Uy) as Iy.
    assert (0 <= gamutReduction p * 0.5) by lra.
    assert (0 <= gamutReduction p * 0.3) by lra.
    specialize (Ic ltac:(assumption)). specialize (Im ltac:(assumption)).
    specialize (Iy ltac:(assumption)). lra.
  - intros C. unfold ColorEngine.inflated.
    replace (Qgtb (gamutReduction p) 0) with false
      by (unfold p; rewrite C; reflexivity).
    reflexivity.
Qed.

End Pickers.

(** A dark red pixel on coated paper. *)
Lemma X11_witness :
  (Z.abs (sw_tac (@ColorEngine.getPixelCmyk bhaskara 200 30 30 coated 0.15)
          - sw_tac (@MainDemo.pixelCmyk bhaskara 200 30 30 coated 0.15)) <= 1)%Z.
Proof.
  refine (proj1 (proj2 (proj2 (proj2 (proj2
            (@X11_pickers_agree bhaskara 200 30 30 coated 0.15 _ _ _)))))); lia.
Defined.

(** ** The file intake *)

Lemma js_round_unit_zero (x : Q) : 0 <= x -> (js_round x = 0%Z <-> x < 1 # 2).
Proof.
  intros P. pose proof (js_round_bounds x) as [L U]. split.
  - intros E. rewrite E in L. change (inject_Z 0) with 0 in L. lra.
  - intros S.
    assert (B : -1 < inject_Z (js_round x) < 1) by (split; lra).
    destruct B as [B1 B2]. change (-1) with (inject_Z (-1)) in B1.
    change 1 with (inject_Z 1) in B2. rewrite <- Zlt_Qlt in B1, B2. lia.
Qed.

Lemma js_round_range (x : Q) (lo hi : Z) :
  inject_Z lo <= x <= inject_Z hi -> (lo <= js_round x <= hi)%Z.
Proof.
  intros [L U]. split.
  - rewrite <- (js_round_inject lo). apply js_round_le, L.
  - rewrite <- (js_round_inject hi). apply js_round_le, U.
Qed.

Lemma js_max_inject (w h : Z) : js_max (inject_Z w) (inject_Z h) = inject_Z (Z.max w h).
Proof.
  destruct (js_max_cases (inject_Z w) (inject_Z h)) as [[L ->] | [L ->]].
  - rewrite <- Zle_Qle in L. f_equal. lia.
  - rewrite <- Zlt_Qlt in L. f_equal. lia.
Qed.

(** The side scaled by [1500 / max]: exactly 1500 for the larger one, and
    within half a pixel of the exact proportion for the other. *)
Lemma scaled_side (a big : Z) :
  (0 <= a <= big)%Z -> (1500 < big)%Z ->
  let a' := js_round (inject_Z a * (inject_Z 1500 / inject_Z big)) in
  (0 <= a' <= 1500)%Z /\ (a = big -> a' = 1500%Z)
  /\ (2 * Z.abs (a' * big - 1500 * a) <= big)%Z
  /\ (a' = 0%Z <-> (3000 * a < big)%Z).
Proof.
  intros [A0 AB] B. cbv zeta.
  assert (Bq : 0 < inject_Z big) by (change 0 with (inject_Z 0); rewrite <- Zlt_Qlt; lia).
  assert (Aq : 0 <= inject_Z a) by (change 0 with (inject_Z 0); rewrite <- Zle_Qle; lia).
  assert (ABq : inject_Z a <= inject_Z big) by (rewrite <- Zle_Qle; lia).
  set (x := inject_Z a * (inject_Z 1500 / inject_Z big)).
  assert (X : x * inject_Z big == 1500 * inject_Z a).
  { unfold x. change (inject_Z 1500) with 1500. field. lra. }
  assert (X0 : 0 <= x) by nra.
  assert (X1 : x <= 1500) by nra.
  split; [| split; [| split]].
  - apply js_round_range. change (inject_Z 0) with 0. change (inject_Z 1500) with 1500.
    split; assumption.
  - intros ->. rewrite <- (js_round_inject 1500). apply js_round_comp.
    unfold x. change (inject_Z 1500) with 1500. field. lra.
  - pose proof (js_round_bounds x) as [L U].
    assert (P : - inject_Z big <= 2 * (inject_Z (js_round x) * inject_Z big
                                     - 1500 * inject_Z a) <= inject_Z big) by (split; nra).
    destruct P as [P1 P2].
    change 1500 with (inject_Z 1500) in P1, P2. change 2 with (inject_Z 2) in P1, P2.
    rewrite <- !inject_Z_mult, <- inject_Z_opp in P1.
    rewrite <- !inject_Z_mult in P2.
    assert (E : forall u v : Z, inject_Z u - inject_Z v = inject_Z u + - inject_Z v)
      by reflexivity.
    rewrite E, <- inject_Z_opp, <- inject_Z_plus, <- inject_Z_mult, <- Zle_Qle in P1.
    rewrite E, <- inject_Z_opp, <- inject_Z_plus, <- inject_Z_mult, <- Zle_Qle in P2.
    lia.
  - rewrite (js_round_unit_zero x X0). split.
    + intros S. assert (T : 3000 * inject_Z a < inject_Z big) by nra.
      change 3000 with (inject_Z 3000) in T.
      rewrite <- inject_Z_mult, <- Zlt_Qlt in T. exact T.
    + intros T. rewrite Zlt_Qlt, inject_Z_mult in T.
      change (inject_Z 3000) with 3000 in T. nra.
Qed.

Lemma MainDemo_canvas_size_eq (w h : Z) :
  MainDemo.canvas_size w h = FileHandler.resizeImage (w, h).
Proof. reflexivity. Qed.

(** X13: [resizeImage] of fileHandler.js and the resizing step of
    [prepareFile] in main-demo.js compute the same canvas: an image with
    both sides at most 1500 keeps its size and is not flagged as resized;
    any other image is flagged, its larger side becomes exactly 1500 and
    its smaller side lies between 0 and 1500. *)
Theorem X13_resized_canvas_fits (w h : Z) :
  (0 <= w)%Z -> (0 <= h)%Z ->
  let r := FileHandler.resizeImage (w, h) in
  MainDemo.canvas_size w h = r
  /\ ((w <= 1500)%Z /\ (h <= 1500)%Z ->
      r = {| sz_width := w; sz_height := h; wasResized := false |})
  /\ ((1500 < w)%Z \/ (1500 < h)%Z ->
      wasResized r = true
      /\ Z.max (sz_width r) (sz_height r) = 1500%Z
      /\ (0 <= Z.min (sz_width r) (sz_height r))%Z).
Proof.
  intros Hw Hh. cbv zeta. split; [apply MainDemo_canvas_size_eq |].
  unfold FileHandler.resizeImage, FileHandler.MAX_DIMENSION.
  split.
  - intros [W H].
    replace ((w >? 1500)%Z || (h >? 1500)%Z)%bool with false; [reflexivity |].
    symmetry. rewrite !Z.gtb_ltb. apply orb_false_intro; apply Z.ltb_ge; lia.
  - intros C.
    replace ((w >? 1500)%Z || (h >? 1500)%Z)%bool with true.
    2: { symmetry. apply orb_true_iff. rewrite !Z.gtb_ltb, !Z.ltb_lt. lia. }
    cbn [wasResized sz_width sz_height]. rewrite js_max_inject.
    split; [reflexivity |].
    destruct (Z.le_ge_cases h w) as [L | L].
    + replace (Z.max w h) with w by lia.
      destruct (scaled_side w w ltac:(lia) ltac:(lia)) as (_ & E & _).
      destruct (scaled_side h w ltac:(lia) ltac:(lia)) as (R & _).
      cbv zeta in E, R. rewrite (E eq_refl). lia.
    + replace (Z.max w h) with h by lia.
      destruct (scaled_side h h ltac:(lia) ltac:(lia)) as (_ & E & _).
      destruct (scaled_side w h ltac:(lia) ltac:(lia)) as (R & _).
      cbv zeta in E, R. rewrite (E eq_refl). lia.
Qed.




(** ** Coordinate mapping *)

Lemma MainDemo_canvasCoords_eq (dw dh : Q) (w h : Z) (x y : Q) :
  MainDemo.canvasCoords dw dh w h x y = FileHandler.clientToImageCoords dw dh w h x y.
Proof. reflexivity. Qed.

Lemma scale_positive (dw dh : Q) (w h : Z) :
  0 < dw -> 0 < dh -> (0 < w)%Z -> (0 < h)%Z ->
  0 < js_min (dw / inject_Z w) (dh / inject_Z h).
Proof.
  intros Dw Dh W H.
  assert (Wq : 0 < inject_Z w) by (change 0 with (inject_Z 0); rewrite <- Zlt_Qlt; lia).
  assert (Hq : 0 < inject_Z h) by (change 0 with (inject_Z 0); rewrite <- Zlt_Qlt; lia).
  assert (A : 0 < dw / inject_Z w) by (apply Qlt_shift_div_l; lra).
  assert (B : 0 < dh / inject_Z h) by (apply Qlt_shift_div_l; lra).
  destruct (js_min_cases (dw / inject_Z w) (dh / inject_Z h)) as [[_ ->] | [_ ->]];
    assumption.
Qed.

(** A relative position inside the rendered image maps to a column between
    0 and the width. *)
Lemma mapped_range (rel scale : Q) (n : Z) :
  0 < scale -> 0 <= rel -> rel <= inject_Z n * scale ->
  (0 <= js_round (rel / scale) <= n)%Z.
Proof.
  intros S L U. apply js_round_range. change (inject_Z 0) with 0. split.
  - apply Qle_shift_div_l; lra.
  - apply Qle_shift_div_r; lra.
Qed.

Lemma FileHandler_coords_bounded (displayW displayH : Q) (sourceWidth sourceHeight : Z)
    (clientX clientY : Q) :
  0 < displayW -> 0 < displayH -> (0 < sourceWidth)%Z -> (0 < sourceHeight)%Z ->
  let c := FileHandler.clientToImageCoords displayW displayH sourceWidth sourceHeight
             clientX clientY in
  co_valid c = true ->
  (0 <= co_x c <= sourceWidth)%Z /\ (0 <= co_y c <= sourceHeight)%Z.
Proof.
  intros Dw Dh W H. cbv zeta.
  pose proof (scale_positive displayW displayH sourceWidth sourceHeight Dw Dh W H) as S.
  unfold FileHandler.clientToImageCoords. cbv zeta.
  set (scale := js_min (displayW / inject_Z sourceWidth)
                  (displayH / inject_Z sourceHeight)) in *.
  set (relX := clientX - (displayW - inject_Z sourceWidth * scale) / 2).
  set (relY := clientY - (displayH - inject_Z sourceHeight * scale) / 2).
  destruct (Qltb_spec relX 0) as [A | A]; [discriminate |].
  destruct (Qltb_spec relY 0) as [B | B]; [discriminate |].
  unfold Qgtb.
  destruct (Qltb_spec (inject_Z sourceWidth * scale) relX) as [C | C]; [discriminate |].
  destruct (Qltb_spec (inject_Z sourceHeight * scale) relY) as [D | D]; [discriminate |].
  cbn [orb co_valid co_x co_y]. intros _.
  split; apply mapped_range; lra.
Qed.

(** X16: the coordinate mappers [clientToImageCoords] of fileHandler.js
    and [canvasCoords] of main-demo.js agree, and a position they report
    as valid has a column between 0 and the image width and a row between
    0 and the image height, both bounds included. *)
Theorem X16_mapped_coordinates_are_bounded (displayW displayH : Q)
    (sourceWidth sourceHeight : Z) (clientX clientY : Q) :
  0 < displayW -> 0 < displayH -> (0 < sourceWidth)%Z -> (0 < sourceHeight)%Z ->
  let c := FileHandler.clientToImageCoords displayW displayH sourceWidth sourceHeight
             clientX clientY in
  MainDemo.canvasCoords displayW displayH sourceWidth sourceHeight clientX clientY = c
  /\ (co_valid c = true ->
      (0 <= co_x c <= sourceWidth)%Z /\ (0 <= co_y c <= sourceHeight)%Z).
Proof.
  intros Dw Dh W H. cbv zeta. split; [apply MainDemo_canvasCoords_eq |].
  exact (FileHandler_coords_bounded displayW displayH sourceWidth sourceHeight
           clientX clientY Dw Dh W H).
Qed.


Lemma at_index_inside (a : list Z) (i : Z) :
  (0 <= i)%Z -> (Z.to_nat i < length a)%nat -> exists v, at_index a i = Some v.
Proof.
  intros P L. unfold at_index.
  replace (i <? 0)%Z with false by (symmetry; apply Z.ltb_ge; exact P).
  destruct (lookup_lt_is_Some_2 a (Z.to_nat i) L) as [v E]. exists v. exact E.
Qed.

Lemma MainDemo_hovered_eq (dw dh : Q) (img : imageData) (height : Z) (x y : Q) :
  MainDemo.hovered dw dh img height x y = Main.hovered dw dh img height x y.
Proof. reflexivity. Qed.

(** X18: the hover pickers read inside the image.  On a canvas of the size
    of the image data, whatever the pointer position, the pixel that the
    [mousemove] handler of main.js reads (through [clientToImageCoords],
    the two [Math.min] and [getPixelAt]) has its four bytes defined, and
    the handler of main-demo.js reads the same pixel. *)
Theorem X18_picker_reads_inside_the_image (displayW displayH : Q) (img : imageData)
    (height : Z) (clientX clientY : Q) (px : pixel) :
  0 < displayW -> 0 < displayH -> (0 < img_width img)%Z -> (0 < height)%Z ->
  length (img_data img) = Z.to_nat (img_width img * height * 4) ->
  Main.hovered displayW displayH img height clientX clientY = Some px ->
  MainDemo.hovered displayW displayH img height clientX clientY = Some px
  /\ exists r g b a,
       px = {| px_r := Some r; px_g := Some g; px_b := Some b; px_a := Some a |}.
Proof.
  intros Dw Dh W H Len Hp. split; [rewrite MainDemo_hovered_eq; exact Hp |].
  unfold Main.hovered in Hp. cbv zeta in Hp.
  pose proof (FileHandler_coords_bounded displayW displayH (img_width img) height
                clientX clientY Dw Dh W H) as B. cbv zeta in B.
  destruct (co_valid (FileHandler.clientToImageCoords displayW displayH (img_width img)
                        height clientX clientY)) eqn:V; [| discriminate].
  cbn [negb] in Hp. injection Hp as <-.
  destruct (B eq_refl) as [Bx By].
  set (c := FileHandler.clientToImageCoords displayW displayH (img_width img) height
              clientX clientY) in *.
  set (x := Z.min (co_x c) (img_width img - 1)).
  set (y := Z.min (co_y c) (height - 1)).
  assert (Hx : (0 <= x < img_width img)%Z) by (unfold x; lia).
  assert (Hy : (0 <= y < height)%Z) by (unfold y; lia).
  assert (I : (0 <= (y * img_width img + x) * 4
               /\ (y * img_width img + x) * 4 + 3 < img_width img * height * 4)%Z) by nia.
  unfold FileHandler.getPixelAt. cbv zeta.
  destruct (at_index_inside (img_data img) ((y * img_width img + x) * 4))
    as [r Er]; [lia | rewrite Len; lia |].
  destruct (at_index_inside (img_data img) ((y * img_width img + x) * 4 + 1))
    as [g Eg]; [lia | rewrite Len; lia |].
  destruct (at_index_inside (img_data img) ((y * img_width img + x) * 4 + 2))
    as [b Eb]; [lia | rewrite Len; lia |].
  destruct (at_index_inside (img_data img) ((y * img_width img + x) * 4 + 3))
    as [a Ea]; [lia | rewrite Len; lia |].
  exists r, g, b, a. rewrite Er, Eg, Eb, Ea. reflexivity.
Qed.

(** ** The split view *)

Lemma MainDemo_move_range (width height : Z) (clientX : Q) (r : rect) (st : split) :
  0 <= splitPos st <= 100 ->
  0 <= splitPos (MainDemo.move width height clientX r st) <= 100.
Proof.
  intros I. unfold MainDemo.move. destruct (isDragging st); cbn [negb]; [| exact I].
  cbv zeta. cbn [splitPos].
  match goal with |- 0 <= js_min 100 (js_max 0 ?x) <= 100 =>
    destruct (js_max_cases 0 x) as [[A ->] | [A ->]];
    [destruct (js_min_cases 100 x) as [[B ->] | [B ->]] |
     destruct (js_min_cases 100 0) as [[B ->] | [B ->]]]; lra
  end.
Qed.

Lemma MainDemo_handle_range (width height : Z) (st : split) (e : split_event) :
  0 <= splitPos st <= 100 ->
  0 <= splitPos (MainDemo.handle width height st e) <= 100.
Proof.
  intros I. destruct e as [| | x r | x r | | | k | k]; cbn [MainDemo.handle splitPos];
    try exact I.
  - apply MainDemo_move_range, I.
  - destruct (isDragging st); [apply MainDemo_move_range, I | exact I].
  - destruct (js_max_cases 0 (splitPos st - (if k then 10 else 1))) as [[A ->] | [A ->]];
      destruct k; lra.
  - destruct (js_min_cases 100 (splitPos st + (if k then 10 else 1))) as [[A ->] | [A ->]];
      destruct k; lra.
Qed.

(** X19: the divider of the split view stays on the canvas.  From the
    initial position 50, after any sequence of mouse, touch and arrow-key
    events on the handle, the position is between 0 and 100 and the column
    at which [renderCanvas] divides the canvas is between 0 and the canvas
    width, so that neither part has a negative width. *)
Theorem X19_divider_stays_on_the_canvas (width height : Z) (events : list split_event) :
  (0 < width)%Z -> (0 < height)%Z -> Forall well_placed events ->
  let st := fold_left (MainDemo.handle width height) events MainDemo.split_initial in
  0 <= splitPos st <= 100 /\ (0 <= MainDemo.sx width st <= width)%Z.
Proof.
  intros W H _. cbv zeta.
  assert (I : 0 <= splitPos (fold_left (MainDemo.handle width height) events
                               MainDemo.split_initial) <= 100).
  { assert (G : forall st, 0 <= splitPos st <= 100 ->
                  0 <= splitPos (fold_left (MainDemo.handle width height) events st)
                  <= 100).
    { induction events as [| e l IH]; intros st I; [exact I |].
      cbn [fold_left]. apply IH, MainDemo_handle_range, I. }
    apply G. cbn [MainDemo.split_initial splitPos]. lra. }
  split; [exact I |].
  assert (Wq : 0 < inject_Z width) by (change 0 with (inject_Z 0); rewrite <- Zlt_Qlt; lia).
  unfold MainDemo.sx. apply js_round_range. change (inject_Z 0) with 0.
  set (st := fold_left _ _ _) in *.
  assert (P : 0 <= splitPos st / 100 <= 1)
    by (split; [apply Qle_shift_div_l | apply Qle_shift_div_r]; lra).
  destruct P as [P0 P1]. split; nra.
Qed.

(** ** The results panel *)

Section ResultsPanel.
Context {M : MathLib}.

Lemma rounded_above (m : Q) (lim : Z) : (js_round m > lim)%Z -> m > inject_Z lim.
Proof.
  intros G. pose proof (js_round_bounds m) as [_ U].
  assert (L : inject_Z (lim + 1) <= inject_Z (js_round m)) by (rewrite <- Zle_Qle; lia).
  rewrite inject_Z_plus in L. change (inject_Z 1) with 1 in L. lra.
Qed.

(** X20: the coverage bar of the results panel is never more alarming than
    the risk badge beside it: for the statistics that [processPixels] hands
    over for an RGBA buffer, the class of the bar (computed from the rounded maximum) is at
    most as severe as the level of the verdict, the bar is at most 75%
    wide, and on coated paper its class is always safe. *)
Theorem X20_bar_never_above_badge (pixels : list Z) (s : settings) :
  rgba_shaped pixels ->
  exists reported r,
    MainDemo.processPixels pixels s = Some (reported, r)
    /\ (severity (MainDemo.tacBar_class (res_stats r))
        <= severity (risk_level (st_risk (res_stats r))))%nat
    /\ MainDemo.tacBar_width (res_stats r) <= 75
    /\ (paperType s = coated -> MainDemo.tacBar_class (res_stats r) = safe).
Proof.
  intros _.
  destruct (MainDemo_processPixels_returns pixels s) as [reported Hr].
  exists reported. eexists. split; [exact Hr |].
  set (st := fold_left (MainDemo.step pixels s) (seq 0 (length pixels / 4))
               (initial (length pixels))).
  assert (Sa : sane st)
    by (apply loop_sane; [apply MainDemo_step_cases | apply initial_sane]).
  destruct (sane_figures st Sa) as (_ & Mx & _).
  unfold MainDemo.done, MainDemo.tacBar_class, MainDemo.tacBar_width. cbv zeta.
  cbn [res_stats st_maxTAC st_inkLimit st_risk].
  set (lim := inkLimit (MainDemo.PAPERS (paperType s))).
  split; [| split].
  - destruct (js_round (maxTAC st) >? lim + 30)%Z eqn:A.
    + apply Z.gtb_lt, Z.lt_gt, rounded_above in A. rewrite inject_Z_plus in A.
      change (inject_Z 30) with 30 in A.
      unfold Qgtb at 1. destruct (Qltb_spec (inject_Z lim + 30) (maxTAC st)) as [B | B];
        [| lra].
      cbn [orb risk_level severity]. lia.
    + destruct (js_round (maxTAC st) >? lim)%Z eqn:B; [| cbn [severity]; lia].
      apply Z.gtb_lt, Z.lt_gt, rounded_above in B.
      destruct (Qgtb (maxTAC st) (inject_Z lim + 30) || Qgtb (gamutPercent st) 25);
        [cbn [risk_level severity]; lia |].
      unfold Qgtb at 1. destruct (Qltb_spec (inject_Z lim) (maxTAC st)) as [C | C];
        [| lra].
      cbn [orb risk_level severity]. lia.
  - assert (Q300 : inject_Z (js_round (maxTAC st)) <= 300).
    { change 300 with (inject_Z 300). rewrite <- Zle_Qle. exact Mx. }
    assert (Q34 : inject_Z (js_round (maxTAC st)) / 400 <= 3 # 4)
      by (apply Qle_shift_div_r; lra).
    match goal with |- js_min 100 ?x <= 75 =>
      destruct (js_min_cases 100 x) as [[B ->] | [B ->]]; lra end.
  - intros C. unfold lim. rewrite C.
    change (inkLimit (MainDemo.PAPERS coated)) with 300%Z.
    replace (js_round (maxTAC st) >? 300 + 30)%Z with false
      by (symmetry; rewrite Z.gtb_ltb; apply Z.ltb_ge; lia).
    replace (js_round (maxTAC st) >? 300)%Z with false
      by (symmetry; rewrite Z.gtb_ltb; apply Z.ltb_ge; lia).
    reflexivity.
Qed.

End ResultsPanel.

(** ** The intake and the views on concrete inputs *)

(** An image of 3000 by 1000 pixels is resized to 1500 by 500. *)
Lemma X13_witness :
  Z.max (sz_width (FileHandler.resizeImage (3000, 1000)%Z))
    (sz_height (FileHandler.resizeImage (3000, 1000)%Z)) = 1500%Z.
Proof.
  assert (Hw : (0 <= 3000)%Z) by lia.
  assert (Hh : (0 <= 1000)%Z) by lia.
  assert (C : (1500 < 3000)%Z \/ (1500 < 1000)%Z) by (left; lia).
  exact (proj1 (proj2 (proj2 (proj2 (X13_resized_canvas_fits 3000 1000 Hw Hh)) C))).
Defined.


(** An image of 600 by 300 shown in a box of 300 by 300, the pointer at
    (10, 100). *)
Lemma X16_witness :
  co_valid (FileHandler.clientToImageCoords 300 300 600 300 10 100) = true
  /\ (0 <= co_x (FileHandler.clientToImageCoords 300 300 600 300 10 100) <= 600)%Z.
Proof.
  assert (V : co_valid (FileHandler.clientToImageCoords 300 300 600 300 10 100) = true)
    by reflexivity.
  split; [exact V |].
  refine (proj1 (proj2 (X16_mapped_coordinates_are_bounded 300 300 600 300 10 100
                          _ _ _ _) V)); reflexivity.
Defined.


(** The pointer on the right edge of the image of two pixels. *)
Lemma X18_witness :
  MainDemo.hovered 20 10 two_pixel_image 1 20 5
  = Some {| px_r := Some 0%Z; px_g := Some 0%Z; px_b := Some 255%Z; px_a := Some 255%Z |}.
Proof.
  refine (proj1 (X18_picker_reads_inside_the_image 20 10 two_pixel_image 1 20 5
                   _ _ _ _ _ _ _)); reflexivity.
Defined.

(** The divider after a drag and two key strokes. *)
Lemma X19_witness :
  0 <= splitPos (fold_left (MainDemo.handle 600 300) drag_and_keys MainDemo.split_initial)
  <= 100.
Proof.
  refine (proj1 (X19_divider_stays_on_the_canvas 600 300 drag_and_keys _ _ _)).
  - reflexivity.
  - reflexivity.
  - unfold drag_and_keys, shown_rect.
    repeat constructor; cbn [well_placed rect_width rect_height]; lra.
Defined.

(** The bar for the sample buffer on coated paper. *)
Lemma X20_witness :
  exists reported r,
    @MainDemo.processPixels bhaskara sample_pixels coated_plain = Some (reported, r)
    /\ MainDemo.tacBar_width (res_stats r) <= 75.
Proof.
  assert (Hs : rgba_shaped sample_pixels) by reflexivity.
  destruct (@X20_bar_never_above_badge bhaskara sample_pixels coated_plain Hs)
    as (reported & r & H & _ & W & _).
  exists reported, r. split; [exact H | exact W].
Defined.

(** ** Progress notifications *)

(** The percentage that worker.js posts at pixel [i]. *)
Lemma posted_range (i : nat) (pixelCount : Q) :
  inject_Z (Z.of_nat i) < pixelCount ->
  (0 <= js_round ((inject_Z (Z.of_nat i) / pixelCount) * 100) <= 100)%Z.
Proof.
  intros L.
  assert (I : 0 <= inject_Z (Z.of_nat i))
    by (change 0 with (inject_Z 0); rewrite <- Zle_Qle; lia).
  assert (P : 0 < pixelCount) by lra.
  assert (D : 0 <= inject_Z (Z.of_nat i) / pixelCount <= 1)
    by (split; [apply Qle_shift_div_l | apply Qle_shift_div_r]; lra).
  apply percent_range, D.
Qed.

Lemma posted_monotone (i j : nat) (pixelCount : Q) :
  0 < pixelCount -> (i <= j)%nat ->
  (js_round ((inject_Z (Z.of_nat i) / pixelCount) * 100)
   <= js_round ((inject_Z (Z.of_nat j) / pixelCount) * 100))%Z.
Proof.
  intros P L. apply js_round_le.
  assert (I : inject_Z (Z.of_nat i) <= inject_Z (Z.of_nat j))
    by (rewrite <- Zle_Qle; lia).
  assert (D : inject_Z (Z.of_nat i) / pixelCount <= inject_Z (Z.of_nat j) / pixelCount).
  { unfold Qdiv. apply Qmult_le_compat_r; [exact I |].
    apply Qlt_le_weak, Qinv_lt_0_compat, P. }
  lra.
Qed.

Lemma below_loop_count (i : nat) (bound : Q) :
  (i < loop_count bound)%nat -> inject_Z (Z.of_nat i) < bound.
Proof.
  unfold loop_count. intros L. pose proof (Qceiling_lt bound) as C.
  assert (I : inject_Z (Z.of_nat i) <= inject_Z (Qceiling bound - 1))
    by (rewrite <- Zle_Qle; lia).
  lra.
Qed.

(** The values of an increasing list of indices below the bound, mapped to
    their percentages. *)
Lemma percentages_ascend (pixelCount : Q) (due : nat -> bool) (n start : nat) :
  0 < pixelCount ->
  ascending (map (fun i => js_round ((inject_Z (Z.of_nat i) / pixelCount) * 100))
               (List.filter due (seq start n))).
Proof.
  intros P. revert start. induction n as [| n IH]; intros start; [exact I |].
  cbn [seq List.filter]. destruct (due start); [| apply IH].
  cbn [map ascending]. split; [| apply IH].
  apply List.Forall_forall. intros z Hz. apply in_map_iff in Hz.
  destruct Hz as (j & <- & Hj). apply filter_In in Hj. destruct Hj as [Hj _].
  apply in_seq in Hj. apply posted_monotone; [exact P | lia].
Qed.

Lemma percentages_range (pixelCount : Q) (due : nat -> bool) :
  Forall (fun p => (0 <= p <= 100)%Z)
    (map (fun i => js_round ((inject_Z (Z.of_nat i) / pixelCount) * 100))
       (List.filter due (seq 0 (loop_count pixelCount)))).
Proof.
  apply List.Forall_forall. intros z Hz. apply in_map_iff in Hz.
  destruct Hz as (j & <- & Hj). apply filter_In in Hj. destruct Hj as [Hj _].
  apply in_seq in Hj. apply posted_range, below_loop_count. lia.
Qed.

Section Progress.
Context {M : MathLib}.

Lemma Worker_step_progress (pixels : list Z) (s : settings) (pc : Q) (pi : Z)
    (st : loop_state) (i : nat) :
  progress (Worker.step pixels s pc pi st i)
  = if Worker.progress_due i pi
    then js_round ((inject_Z (Z.of_nat i) / pc) * 100) :: progress st
    else progress st.
Proof.
  unfold Worker.step. cbv zeta.
  destruct (get pixels (i * 4 + 3) =? 0)%Z; reflexivity.
Qed.

Lemma Worker_loop_progress (pixels : list Z) (s : settings) (pc : Q) (pi : Z)
    (l : list nat) (st : loop_state) :
  progress (fold_left (Worker.step pixels s pc pi) l st)
  = rev (map (fun i => js_round ((inject_Z (Z.of_nat i) / pc) * 100))
           (List.filter (fun i => Worker.progress_due i pi) l))
    ++ progress st.
Proof.
  revert st. induction l as [| i l IH]; intros st; [reflexivity |].
  cbn [fold_left List.filter]. rewrite IH, Worker_step_progress.
  destruct (Worker.progress_due i pi); [| reflexivity].
  cbn [map rev]. rewrite <- app_assoc. reflexivity.
Qed.

(** The notifications of worker.js, in posting order: the percentage of
    every pixel index that is a multiple of the interval. *)
Lemma Worker_posted (pixels : list Z) (s : settings) :
  let pc := inject_Z (Z.of_nat (length pixels)) / 4 in
  fst (Worker.processImage pixels s)
  = map (fun i => js_round ((inject_Z (Z.of_nat i) / pc) * 100))
      (List.filter (fun i => Worker.progress_due i (Qfloor (pc / 20)))
         (seq 0 (loop_count pc))).
Proof.
  cbv zeta. unfold Worker.processImage. cbv zeta. cbn [fst].
  unfold Worker.run_loop. cbv zeta. rewrite Worker_loop_progress.
  unfold initial. cbn [progress]. rewrite app_nil_r. apply rev_involutive.
Qed.

Lemma interval_of_length (len : nat) :
  Qfloor (inject_Z (Z.of_nat len) / 4 / 20) = (Z.of_nat len / 80)%Z.
Proof.
  rewrite (Zdiv_Qdiv (Z.of_nat len) 80). apply Qfloor_comp.
  change (inject_Z 80) with 80. field.
Qed.

Lemma Worker_posts_nothing (pixels : list Z) (s : settings) :
  (length pixels < 80)%nat -> fst (Worker.processImage pixels s) = [].
Proof.
  intros L. rewrite Worker_posted. cbv zeta. rewrite interval_of_length.
  replace (Z.of_nat (length pixels) / 80)%Z with 0%Z
    by (symmetry; apply Z.div_small; lia).
  assert (F : forall l, List.filter (fun i => Worker.progress_due i 0) l = []).
  { induction l as [| i l IH]; [reflexivity |]. cbn [List.filter].
    unfold Worker.progress_due at 1. cbn. exact IH. }
  rewrite F. reflexivity.
Qed.

(** On an RGBA buffer of [n] pixels the interval of worker.js is
    [floor(n / 20)]. *)
Lemma interval_shaped (pixels : list Z) :
  rgba_shaped pixels ->
  (Z.of_nat (length pixels) / 80)%Z = Z.of_nat (length pixels / 4 / 20).
Proof.
  intros Hs. unfold rgba_shaped in Hs.
  pose proof (Nat.div_mod_eq (length pixels) 4) as E4.
  pose proof (Nat.div_mod_eq (length pixels / 4) 20) as E20.
  pose proof (Nat.mod_upper_bound (length pixels / 4) 20 ltac:(lia)) as U20.
  symmetry.
  apply (Z.div_unique _ _ _ (Z.of_nat (4 * ((length pixels / 4) mod 20)))); lia.
Qed.

(** X21: the progress notifications of worker.js.  An image of fewer than
    20 pixels posts none (the interval is 0, and [i % 0] is never 0); an
    image of 20 pixels or more posts 0 first; every percentage posted is
    between 0 and 100, and the percentages never decrease. *)
Theorem X21_worker_progress (pixels : list Z) (s : settings) :
  let posted := fst (Worker.processImage pixels s) in
  ((length pixels < 80)%nat -> posted = [])
  /\ ((80 <= length pixels)%nat -> exists rest, posted = 0%Z :: rest)
  /\ Forall (fun p => (0 <= p <= 100)%Z) posted
  /\ ascending posted.
Proof.
  cbv zeta. split; [apply Worker_posts_nothing |].
  rewrite Worker_posted. cbv zeta.
  rewrite interval_of_length.
  set (pc := inject_Z (Z.of_nat (length pixels)) / 4).
  split; [| split].
  - intros L.
    assert (K : (1 <= Z.of_nat (length pixels) / 80)%Z)
      by (apply Z.div_le_lower_bound; lia).
    assert (C : (1 <= loop_count pc)%nat).
    { unfold loop_count. pose proof (Qle_ceiling pc) as U.
      assert (P : 20 <= pc).
      { unfold pc. apply Qle_shift_div_l; [reflexivity |].
        change (20 * 4) with (inject_Z 80). rewrite <- Zle_Qle. lia. }
      assert (V : inject_Z 1 <= inject_Z (Qceiling pc))
        by (change (inject_Z 1) with 1; lra).
      rewrite <- Zle_Qle in V. lia. }
    destruct (loop_count pc) as [| n]; [lia |].
    cbn [seq List.filter]. unfold Worker.progress_due at 1.
    replace (Z.of_nat (length pixels) / 80 =? 0)%Z with false
      by (symmetry; apply Z.eqb_neq; lia).
    change (Z.of_nat 0) with 0%Z. rewrite Z.mod_0_l by lia. cbn [Z.eqb map].
    eexists. f_equal.
    rewrite <- (js_round_inject 0). apply js_round_comp.
    change (inject_Z 0) with 0. unfold Qdiv. ring.
  - apply percentages_range.
  - destruct (Qlt_le_dec 0 pc) as [P | P]; [apply percentages_ascend, P |].
    assert (Z0 : loop_count pc = 0%nat).
    { unfold loop_count. pose proof (Qceiling_resp_le pc 0 P) as C.
      change (Qceiling 0) with 0%Z in C. lia. }
    rewrite Z0. exact I.
Qed.

(** The number of multiples of [k] below [n]. *)
Lemma count_multiples (k n : nat) :
  (0 < k)%nat ->
  length (List.filter (fun i => (Z.of_nat i mod Z.of_nat k =? 0)%Z) (seq 0 n))
  = ((n + k - 1) / k)%nat.
Proof.
  intros K. induction n as [| n IH].
  - cbn [seq List.filter length]. symmetry. apply Nat.div_small. lia.
  - pose proof (Nat.div_mod_eq n k) as E.
    pose proof (Nat.mod_upper_bound n k ltac:(lia)) as U.
    assert (A : ((S n + k - 1) / k
                 = (n + k - 1) / k + (if (n mod k =? 0)%nat then 1 else 0))%nat).
    { destruct (n mod k =? 0)%nat eqn:R.
      - apply Nat.eqb_eq in R.
        rewrite <- (Nat.div_unique (n + k - 1) k (n / k) (k - 1)) by lia.
        rewrite <- (Nat.div_unique (S n + k - 1) k (S (n / k)) 0%nat) by lia.
        lia.
      - apply Nat.eqb_neq in R.
        rewrite <- (Nat.div_unique (n + k - 1) k (S (n / k)) (n mod k - 1)) by lia.
        rewrite <- (Nat.div_unique (S n + k - 1) k (S (n / k)) (n mod k)) by lia.
        lia. }
    rewrite A, seq_S, List.filter_app, length_app, IH.
    change (0 + n)%nat with n. cbn [List.filter].
    assert (Zm : (Z.of_nat n mod Z.of_nat k =? 0)%Z = (n mod k =? 0)%nat).
    { rewrite <- Nat2Z.inj_mod.
      destruct (n mod k =? 0)%nat eqn:R.
      - apply Nat.eqb_eq in R. rewrite R. reflexivity.
      - apply Nat.eqb_neq in R. apply Z.eqb_neq. lia. }
    rewrite Zm. destruct (n mod k =? 0)%nat; reflexivity.
Qed.

(** X22: how many notifications worker.js posts.  For an RGBA image of
    [n >= 20] pixels the interval is [k = floor(n / 20)] and the loop posts
    [ceil(n / k)] notifications, which is at least 20 and at most 39. *)
Theorem X22_worker_progress_count (pixels : list Z) (s : settings) :
  rgba_shaped pixels -> (80 <= length pixels)%nat ->
  let n := (length pixels / 4)%nat in
  let k := (n / 20)%nat in
  length (fst (Worker.processImage pixels s)) = ((n + k - 1) / k)%nat
  /\ (20 <= length (fst (Worker.processImage pixels s)) <= 39)%nat.
Proof.
  intros Hs L. cbv zeta. rewrite Worker_posted. cbv zeta.
  rewrite length_map, interval_of_length, (loop_count_shaped _ Hs).
  unfold rgba_shaped in Hs.
  pose proof (Nat.div_mod_eq (length pixels) 4) as E4.
  set (n := (length pixels / 4)%nat) in *.
  assert (N : (20 <= n)%nat) by lia.
  pose proof (Nat.div_mod_eq n 20) as E20.
  pose proof (Nat.mod_upper_bound n 20 ltac:(lia)) as U20.
  set (k := (n / 20)%nat) in *.
  assert (K : (1 <= k)%nat) by lia.
  assert (I : (Z.of_nat (length pixels) / 80)%Z = Z.of_nat k).
  { symmetry. apply (Z.div_unique _ _ _ (Z.of_nat (4 * (n mod 20)))); lia. }
  rewrite I.
  assert (F : forall l,
             List.filter (fun i => Worker.progress_due i (Z.of_nat k)) l
             = List.filter (fun i => (Z.of_nat i mod Z.of_nat k =? 0)%Z) l).
  { intros l. apply filter_ext. intros i. unfold Worker.progress_due.
    replace (Z.of_nat k =? 0)%Z with false by (symmetry; apply Z.eqb_neq; lia).
    reflexivity. }
  rewrite F, (count_multiples k n K).
  split; [reflexivity |].
  pose proof (Nat.div_mod_eq (n + k - 1) k) as Ec.
  pose proof (Nat.mod_upper_bound (n + k - 1) k ltac:(lia)) as Uc.
  split; nia.
Qed.

End Progress.

(** An image of forty-one pixels posts twenty-one notifications. *)
Lemma X22_witness :
  length (fst (@Worker.processImage bhaskara forty_one_pixels all_shown)) = 21%nat.
Proof.
  refine (proj1 (@X22_worker_progress_count bhaskara forty_one_pixels all_shown _ _)).
  - reflexivity.
  - vm_compute. lia.
Defined.

Section DemoProgress.
Context {M : MathLib}.

Lemma MainDemo_percent_range (i count : nat) :
  (0 < count)%nat -> (i <= count)%nat ->
  exists z, MainDemo.percent i count = Some z /\ (0 <= z <= 100)%Z
            /\ (i = count -> z = 100%Z).
Proof.
  intros C L. unfold MainDemo.percent.
  replace (count =? 0)%nat with false by (symmetry; apply Nat.eqb_neq; lia).
  eexists. split; [reflexivity |].
  assert (Cq : 0 < inject_Z (Z.of_nat count))
    by (change 0 with (inject_Z 0); rewrite <- Zlt_Qlt; lia).
  assert (Iq : 0 <= inject_Z (Z.of_nat i) <= inject_Z (Z.of_nat count))
    by (change 0 with (inject_Z 0); rewrite <- !Zle_Qle; lia).
  split.
  - apply percent_range.
    split; [apply Qle_shift_div_l | apply Qle_shift_div_r]; lra.
  - intros ->. rewrite (js_round_comp _ (inject_Z 100)); [apply js_round_inject |].
    change (inject_Z 100) with 100. field. lra.
Qed.

(** What the rescheduled chunks hand to [onProgress]: the latest report is
    100, every report is a percentage, and there is one report per chunk of
    80000 pixels. *)
Lemma chunk_reports (fuel : nat) (src : list Z) (s : settings) (count : nat) :
  (0 < count)%nat ->
  forall (st : loop_state) (i : nat) (reported : list (option Z)),
    (i <= count)%nat -> (count - i < fuel)%nat ->
    exists older r,
      MainDemo.chunk fuel src s count st i reported
      = Some ((Some 100%Z :: older) ++ reported, r)
      /\ Forall (fun p => exists z, p = Some z /\ (0 <= z <= 100)%Z) older
      /\ Z.of_nat (S (length older))
         = Z.max 1 ((Z.of_nat (count - i) + 79999) / 80000).
Proof.
  intros C. induction fuel as [| fuel IH]; intros st i reported Hi Hf; [lia |].
  cbn [MainDemo.chunk]. cbv zeta.
  set (end_ := N.to_nat (N.min (N.of_nat i + MainDemo.CHUNK_SIZE) (N.of_nat count))).
  assert (He : Z.of_nat end_ = Z.min (Z.of_nat i + 80000) (Z.of_nat count))
    by (unfold end_, MainDemo.CHUNK_SIZE; lia).
  replace (Nat.max i end_) with end_ by lia.
  destruct (MainDemo_percent_range end_ count C ltac:(lia)) as (z & Ez & Rz & Fz).
  rewrite Ez.
  destruct (end_ <? count)%nat eqn:E.
  - apply Nat.ltb_lt in E.
    destruct (IH (fold_left (MainDemo.step src s) (seq i (end_ - i)) st) end_
                (Some z :: reported)) as (older & r & H & F & Len); [lia | lia |].
    exists (older ++ [Some z]), r. split; [| split].
    + rewrite H. f_equal. f_equal. cbn [app]. rewrite <- app_assoc. reflexivity.
    + apply Forall_app. split; [exact F |]. constructor; [| constructor].
      exists z. split; [reflexivity | exact Rz].
    + rewrite length_app. cbn [length].
      replace (Z.of_nat (count - i))
        with (Z.of_nat (count - end_) + 79999 - 79999 + 1 * 80000)%Z by lia.
      replace (Z.of_nat (count - end_) + 79999 - 79999 + 1 * 80000 + 79999)%Z
        with (Z.of_nat (count - end_) + 79999 + 1 * 80000)%Z by lia.
      rewrite Z.div_add by lia.
      assert (P : (1 <= (Z.of_nat (count - end_) + 79999) / 80000)%Z)
        by (apply Z.div_le_lower_bound; lia).
      lia.
  - apply Nat.ltb_ge in E.
    exists [], (MainDemo.done src s
                  (fold_left (MainDemo.step src s) (seq i (end_ - i)) st)).
    rewrite (Fz ltac:(lia)). split; [reflexivity |]. split; [constructor |].
    cbn [length].
    assert (P : ((Z.of_nat (count - i) + 79999) / 80000 < 2)%Z)
      by (apply Z.div_lt_upper_bound; lia).
    lia.
Qed.

(** X23: the progress reports of main-demo.js.  [processPixels] reports
    once per chunk of 80000 pixels; on an image of at least one pixel every
    report is a percentage between 0 and 100 and the last one is 100; on an
    image without pixel it reports once, and the value is not a number. *)
Theorem X23_demo_progress (pixels : list Z) (s : settings) :
  exists reported r,
    MainDemo.processPixels pixels s = Some (reported, r)
    /\ ((length pixels < 4)%nat -> reported = [None])
    /\ ((4 <= length pixels)%nat ->
        (exists earlier, reported = earlier ++ [Some 100%Z])
        /\ Forall (fun p => exists z, p = Some z /\ (0 <= z <= 100)%Z) reported
        /\ Z.of_nat (length reported)
           = ((Z.of_nat (length pixels / 4) + 79999) / 80000)%Z).
Proof.
  unfold MainDemo.processPixels. cbv zeta.
  pose proof (Nat.div_mod_eq (length pixels) 4) as E4.
  pose proof (Nat.mod_upper_bound (length pixels) 4 ltac:(lia)) as U4.
  set (count := (length pixels / 4)%nat) in *.
  destruct (Nat.eq_dec count 0%nat) as [Z0 | Z0].
  - rewrite Z0. cbn [MainDemo.chunk]. cbv zeta. cbn [rev app].
    eexists. eexists. split; [reflexivity |]. split; [reflexivity |]. lia.
  - destruct (chunk_reports (S count) pixels s count ltac:(lia) (initial (length pixels))
                0%nat []) as (older & r & H & F & Len); [lia | lia |].
    rewrite H, app_nil_r. eexists. eexists. split; [reflexivity |].
    split; [lia |]. intros _. split; [| split].
    + exists (rev older). reflexivity.
    + apply Forall_rev. constructor; [| exact F].
      exists 100%Z. split; [reflexivity | lia].
    + rewrite length_rev. cbn [length]. rewrite Nat.sub_0_r in Len.
      assert (P : (1 <= (Z.of_nat count + 79999) / 80000)%Z)
        by (apply Z.div_le_lower_bound; lia).
      lia.
Qed.

End DemoProgress.

(** ** The dominant colours *)

Lemma key_eqb_eq (a b : Z * Z * Z) : key_eqb a b = true <-> a = b.
Proof.
  destruct a as [[r1 g1] b1], b as [[r2 g2] b2]. unfold key_eqb.
  rewrite !andb_true_iff, !Z.eqb_eq. split.
  - intros [[-> ->] ->]. reflexivity.
  - intros [= -> -> ->]. auto.
Qed.

Lemma bump_keys_in (key : Z * Z * Z) (bs : buckets) (k : Z * Z * Z) :
  In k (map fst (bump key bs)) -> k = key \/ In k (map fst bs).
Proof.
  induction bs as [| [k' n] rest IH]; cbn [bump map fst In].
  - intros [<- | []]. left. reflexivity.
  - destruct (key_eqb key k'); cbn [map fst In]; intros [H | H]; auto.
    destruct (IH H); auto.
Qed.

Lemma bump_entries (P : Z * Z * Z -> Prop) (key : Z * Z * Z) (bs : buckets) :
  P key -> Forall (fun e => P (fst e) /\ (1 <= snd e)%nat) bs ->
  Forall (fun e => P (fst e) /\ (1 <= snd e)%nat) (bump key bs).
Proof.
  intros Hk. induction bs as [| [k' n] rest IH]; intros H; cbn [bump].
  - constructor; [| constructor]. cbn [fst snd]. split; [exact Hk | lia].
  - apply Forall_cons in H. destruct H as [[H1 H2] H]. cbn [fst snd] in H1, H2.
    destruct (key_eqb key k').
    + constructor; [| exact H]. cbn [fst snd]. split; [exact H1 | lia].
    + constructor; [| apply IH, H]. cbn [fst snd]. split; [exact H1 | exact H2].
Qed.

Lemma bump_NoDup (key : Z * Z * Z) (bs : buckets) :
  NoDup (map fst bs) -> NoDup (map fst (bump key bs)).
Proof.
  induction bs as [| [k' n] rest IH]; intros H; cbn [bump map fst].
  - apply NoDup_singleton.
  - cbn [map fst] in H. apply NoDup_cons in H. destruct H as [H1 H2].
    destruct (key_eqb key k') eqn:E; cbn [map fst].
    + apply NoDup_cons. split; assumption.
    + apply NoDup_cons. split; [| apply IH, H2].
      intros I. apply list_elem_of_In, bump_keys_in in I. destruct I as [-> | I].
      * assert (T : key_eqb key key = true) by (apply key_eqb_eq; reflexivity).
        congruence.
      * apply H1, list_elem_of_In, I.
Qed.

Lemma bump_total (key : Z * Z * Z) (bs : buckets) :
  list_sum (map snd (bump key bs)) = S (list_sum (map snd bs)).
Proof.
  induction bs as [| [k' n] rest IH]; [reflexivity |].
  cbn [bump]. destruct (key_eqb key k'); [reflexivity |].
  change (list_sum (map snd ((k', n) :: bump key rest)))
    with (n + list_sum (map snd (bump key rest)))%nat.
  change (list_sum (map snd ((k', n) :: rest))) with (n + list_sum (map snd rest))%nat.
  rewrite IH. lia.
Qed.

Lemma insert_desc_perm (x : (Z * Z * Z) * nat) (l : buckets) :
  Permutation (insert_desc x l) (x :: l).
Proof.
  induction l as [| e rest IH]; cbn [insert_desc]; [reflexivity |].
  destruct (snd e <? snd x)%nat; [reflexivity |].
  rewrite IH. apply perm_swap.
Qed.

Lemma sort_desc_perm (l : buckets) : Permutation (sort_desc l) l.
Proof.
  unfold sort_desc.
  assert (G : forall acc, Permutation (fold_left (fun acc x => insert_desc x acc) l acc)
                            (acc ++ l)).
  { induction l as [| x l IH]; intros acc; cbn [fold_left].
    - rewrite app_nil_r. reflexivity.
    - rewrite IH, insert_desc_perm. apply Permutation_middle. }
  apply (G []).
Qed.

Lemma insert_desc_descending (x : (Z * Z * Z) * nat) (l : buckets) :
  descending (map snd l) -> descending (map snd (insert_desc x l)).
Proof.
  induction l as [| e rest IH]; cbn [insert_desc map descending].
  - intros _. split; [constructor | exact I].
  - intros [F D]. destruct (snd e <? snd x)%nat eqn:E; cbn [map descending].
    + apply Nat.ltb_lt in E. split; [| split; assumption].
      constructor; [lia |]. eapply Forall_impl; [exact F |].
      intros y Hy. cbn beta in Hy. lia.
    + apply Nat.ltb_ge in E. split; [| apply IH, D].
      apply List.Forall_forall. intros y Hy. apply in_map_iff in Hy.
      destruct Hy as (e' & <- & He').
      apply (Permutation_in _ (insert_desc_perm x rest)) in He'.
      destruct He' as [<- | He']; [exact E |].
      rewrite List.Forall_forall in F. apply F, in_map, He'.
Qed.

Lemma sort_desc_descending (l : buckets) : descending (map snd (sort_desc l)).
Proof.
  unfold sort_desc.
  assert (G : forall acc, descending (map snd acc) ->
                descending (map snd (fold_left (fun acc x => insert_desc x acc) l acc))).
  { induction l as [| x l IH]; intros acc D; cbn [fold_left]; [exact D |].
    apply IH, insert_desc_descending, D. }
  apply G. exact I.
Qed.

Lemma descending_take (n : nat) (l : list nat) : descending l -> descending (take n l).
Proof.
  revert n. induction l as [| x l IH]; intros [| n] D; cbn [take descending];
    try exact I.
  destruct D as [F D]. split; [apply Forall_take, F | apply IH, D].
Qed.

Lemma list_sum_take (n : nat) (l : list nat) : (list_sum (take n l) <= list_sum l)%nat.
Proof.
  revert n. induction l as [| x l IH]; intros [| n]; cbn [take list_sum fold_right];
    try lia.
  specialize (IH n). unfold list_sum in IH. lia.
Qed.

Lemma list_sum_perm (l k : list nat) : Permutation l k -> list_sum l = list_sum k.
Proof.
  induction 1; cbn [list_sum fold_right]; unfold list_sum in *; lia.
Qed.

Lemma quantize_shade (v : Z) : (0 <= v <= 255)%Z -> shade (quantize v).
Proof.
  intros H. unfold quantize, shade. exists (js_round (inject_Z v / 32)).
  split; [| reflexivity].
  apply js_round_range. change (inject_Z 0) with 0. change (inject_Z 8) with 8.
  assert (V : 0 <= inject_Z v <= 255).
  { change 0 with (inject_Z 0). change 255 with (inject_Z 255).
    rewrite <- !Zle_Qle. exact H. }
  split; [apply Qle_shift_div_l | apply Qle_shift_div_r]; lra.
Qed.

(** A bright channel is quantized to 256, which is not a byte. *)
Lemma quantize_bright (v : Z) : (240 <= v <= 255)%Z -> quantize v = 256%Z.
Proof.
  intros H. unfold quantize.
  assert (V : 240 <= inject_Z v <= 255).
  { change 240 with (inject_Z 240). change 255 with (inject_Z 255).
    rewrite <- !Zle_Qle. exact H. }
  assert (X : 15 # 2 <= inject_Z v / 32 <= 8)
    by (split; [apply Qle_shift_div_l | apply Qle_shift_div_r]; lra).
  pose proof (js_round_bounds (inject_Z v / 32)) as [L U].
  assert (B : inject_Z 7 < inject_Z (js_round (inject_Z v / 32)) < inject_Z 9)
    by (change (inject_Z 7) with 7; change (inject_Z 9) with 9; split; lra).
  destruct B as [B1 B2]. rewrite <- Zlt_Qlt in B1, B2.
  replace (js_round (inject_Z v / 32)) with 8%Z by lia. reflexivity.
Qed.

Lemma shade_scaled (v : Z) : shade v -> 0 <= inject_Z v / 255 <= 256 # 255.
Proof.
  intros (k & K & ->).
  assert (V : 0 <= inject_Z (k * 32) <= 256).
  { change 0 with (inject_Z 0). change 256 with (inject_Z 256).
    rewrite <- !Zle_Qle. lia. }
  split; [apply Qle_shift_div_l | apply Qle_shift_div_r]; lra.
Qed.

(** The percentages of a quantized colour: the black channel may be
    slightly negative before rounding, and rounds to 0. *)
Lemma Worker_rgbToCmyk_percent (r g b : Q) :
  0 <= r <= 256 # 255 -> 0 <= g <= 256 # 255 -> 0 <= b <= 256 # 255 ->
  let raw := Worker.rgbToCmyk r g b in
  (0 <= js_round (ch_c raw * 100) <= 100)%Z /\ (0 <= js_round (ch_m raw * 100) <= 100)%Z
  /\ (0 <= js_round (ch_y raw * 100) <= 100)%Z
  /\ (0 <= js_round (ch_k raw * 100) <= 100)%Z.
Proof.
  intros Hr Hg Hb. cbv zeta. unfold Worker.rgbToCmyk.
  destruct (js_max3_cases r g b) as (Hsel & Mr & Mg & Mb).
  set (mx := js_max3 r g b) in *.
  assert (Hmx : mx <= 256 # 255) by (destruct Hsel as [E | [E | E]]; rewrite E; lra).
  unfold Qgeb. destruct (Qle_bool_spec 1 (1 - mx)) as [H | H]; cbn [ch_c ch_m ch_y ch_k].
  - assert (Z0 : (0 <= js_round (0 * 100) <= 100)%Z) by (apply percent_range; lra).
    assert (O1 : (0 <= js_round (1 * 100) <= 100)%Z) by (apply percent_range; lra).
    auto.
  - assert (P : 0 < 1 - (1 - mx)) by lra.
    assert (U : forall x, 0 <= x <= mx ->
                  (0 <= js_round ((1 - x - (1 - mx)) / (1 - (1 - mx)) * 100) <= 100)%Z).
    { intros x Hx. apply percent_range.
      split; [apply Qle_shift_div_l | apply Qle_shift_div_r]; lra. }
    split; [apply U; lra |]. split; [apply U; lra |]. split; [apply U; lra |].
    pose proof (js_round_bounds ((1 - mx) * 100)) as [L Ub].
    assert (B : inject_Z (-1) < inject_Z (js_round ((1 - mx) * 100)) < inject_Z 101)
      by (change (inject_Z (-1)) with (-1); change (inject_Z 101) with 101; split; lra).
    destruct B as [B1 B2]. rewrite <- Zlt_Qlt in B1, B2. lia.
Qed.

Lemma Worker_to_dominant_ok (e : (Z * Z * Z) * nat) :
  shaded (fst e) -> entry_ok (Worker.to_dominant e) /\ colour (Worker.to_dominant e) = fst e.
Proof.
  destruct e as [[[r g] b] n]. cbn [fst]. intros (Sr & Sg & Sb). cbn [fst snd] in Sr, Sg, Sb.
  unfold Worker.to_dominant, entry_ok, colour.
  cbn [Worker.dom_r Worker.dom_g Worker.dom_b Worker.dom_c Worker.dom_m Worker.dom_y
       Worker.dom_k].
  split; [| reflexivity].
  split; [repeat split; assumption |].
  exact (Worker_rgbToCmyk_percent _ _ _ (shade_scaled r Sr) (shade_scaled g Sg)
           (shade_scaled b Sb)).
Qed.

(** What the sampling loop of worker.js keeps true of the buckets. *)
Lemma Worker_count_sample_inv (pixels : list Z) (bs : buckets) (i : nat) :
  byte_buffer pixels ->
  Forall (fun e => shaded (fst e) /\ (1 <= snd e)%nat) bs /\ NoDup (map fst bs) ->
  Forall (fun e => shaded (fst e) /\ (1 <= snd e)%nat) (Worker.count_sample pixels bs i)
  /\ NoDup (map fst (Worker.count_sample pixels bs i)).
Proof.
  intros Hb [F N]. unfold Worker.count_sample. cbv zeta.
  destruct (get pixels (i * 4 + 3) <? 128)%Z; [split; assumption |].
  split; [| apply bump_NoDup, N].
  apply bump_entries; [| exact F].
  repeat split; cbn [fst snd]; apply quantize_shade, get_range, Hb.
Qed.

Lemma Worker_buckets_inv (pixels : list Z) (l : list nat) :
  byte_buffer pixels ->
  let bs := fold_left (Worker.count_sample pixels) l [] in
  Forall (fun e => shaded (fst e) /\ (1 <= snd e)%nat) bs /\ NoDup (map fst bs).
Proof.
  intros Hb. cbv zeta.
  assert (G : forall bs,
             Forall (fun e => shaded (fst e) /\ (1 <= snd e)%nat) bs /\ NoDup (map fst bs) ->
             Forall (fun e => shaded (fst e) /\ (1 <= snd e)%nat)
               (fold_left (Worker.count_sample pixels) l bs)
             /\ NoDup (map fst (fold_left (Worker.count_sample pixels) l bs))).
  { induction l as [| i l IH]; intros bs H; cbn [fold_left]; [exact H |].
    apply IH, Worker_count_sample_inv; assumption. }
  apply G. split; constructor.
Qed.

(** The list made of the five most frequent buckets. *)
Lemma Worker_listed_ok (bs : buckets) :
  Forall (fun e => shaded (fst e) /\ (1 <= snd e)%nat) bs -> NoDup (map fst bs) ->
  let ds := map Worker.to_dominant (take 5 (sort_desc bs)) in
  (length ds <= 5)%nat /\ Forall entry_ok ds /\ NoDup (map colour ds).
Proof.
  intros F N. cbv zeta.
  assert (Fs : Forall (fun e => shaded (fst e) /\ (1 <= snd e)%nat) (take 5 (sort_desc bs))).
  { apply Forall_take. eapply Permutation_Forall; [| exact F].
    symmetry. apply sort_desc_perm. }
  split; [| split].
  - rewrite length_map. apply firstn_le_length.
  - apply List.Forall_forall. intros d Hd. apply in_map_iff in Hd.
    destruct Hd as (e & <- & He). rewrite List.Forall_forall in Fs.
    apply Worker_to_dominant_ok, (Fs e He).
  - assert (E : map colour (map Worker.to_dominant (take 5 (sort_desc bs)))
                = take 5 (map fst (sort_desc bs))).
    { rewrite map_map, firstn_map. apply map_ext_in. intros e He.
      rewrite List.Forall_forall in Fs. apply Worker_to_dominant_ok, (Fs e He). }
    rewrite E. apply (sublist_NoDup _ (map fst (sort_desc bs))); [| apply sublist_take].
    apply (NoDup_Permutation_proper _ _ (Permutation_map fst (sort_desc_perm bs))).
    exact N.
Qed.

Lemma MainDemo_count_sample_fun : MainDemo.count_sample = Worker.count_sample.
Proof. reflexivity. Qed.

Lemma MainDemo_to_dominant_fun : MainDemo.to_dominant = Worker.to_dominant.
Proof. reflexivity. Qed.

(** X24: the dominant-colour list of worker.js (any sampling rate) and of
    main-demo.js, on an RGBA buffer of bytes: at most five entries, of pairwise
    different colours; the channels of a colour are multiples of 32 from 0
    to 256, and the four ink values are percentages between 0 and 100.  The
    value 256, which is not a byte, is reached: it is the quantized value
    of every channel from 240 on. *)
Theorem X24_dominant_colours_are_well_formed (pixels : list Z) (sampleRate : nat) :
  rgba_shaped pixels -> byte_buffer pixels ->
  let listed ds := (length ds <= 5)%nat /\ Forall entry_ok ds /\ NoDup (map colour ds) in
  listed (Worker.extractDominantColors pixels sampleRate)
  /\ listed (MainDemo.dominantColors pixels)
  /\ (forall v, (240 <= v <= 255)%Z -> quantize v = 256%Z).
Proof.
  intros _ Hb. cbv zeta.
  unfold Worker.extractDominantColors, MainDemo.dominantColors. cbv zeta.
  rewrite MainDemo_count_sample_fun, MainDemo_to_dominant_fun.
  split; [| split; [| exact quantize_bright]].
  - destruct (Worker_buckets_inv pixels
                (strided (length pixels) 0 sampleRate
                   (inject_Z (Z.of_nat (length pixels)) / 4)) Hb) as [F N].
    exact (Worker_listed_ok _ F N).
  - destruct (Worker_buckets_inv pixels
                (strided (length pixels) 0 10
                   (inject_Z (Z.of_nat (length pixels / 4)))) Hb) as [F N].
    exact (Worker_listed_ok _ F N).
Qed.

Lemma strided_length (fuel i rate : nat) (bound : nat) :
  (0 < rate)%nat ->
  (length (strided fuel i rate (inject_Z (Z.of_nat bound))) <= bound - i)%nat.
Proof.
  intros R. revert i. induction fuel as [| fuel IH]; intros i; cbn [strided length];
    [lia |].
  destruct (Qltb_spec (inject_Z (Z.of_nat i)) (inject_Z (Z.of_nat bound))) as [L | L];
    cbn [length]; [| lia].
  rewrite <- Zlt_Qlt in L. specialize (IH (i + rate)%nat). lia.
Qed.

Lemma strided_bound_ext (fuel i rate : nat) (b1 b2 : Q) :
  b1 == b2 -> strided fuel i rate b1 = strided fuel i rate b2.
Proof.
  intros E. revert i. induction fuel as [| fuel IH]; intros i; cbn [strided];
    [reflexivity |].
  rewrite IH.
  destruct (Qltb_spec (inject_Z (Z.of_nat i)) b1);
    destruct (Qltb_spec (inject_Z (Z.of_nat i)) b2); try reflexivity; lra.
Qed.

Lemma ColorEngine_buckets_inv (pixels : list Z) (l : list nat) :
  let bs := fold_left (ColorEngine.count_sample pixels) l [] in
  Forall (fun e => True /\ (1 <= snd e)%nat) bs
  /\ list_sum (map snd bs) = length l.
Proof.
  cbv zeta.
  assert (G : forall bs,
             Forall (fun e => True /\ (1 <= snd e)%nat) bs ->
             Forall (fun e => True /\ (1 <= snd e)%nat)
               (fold_left (ColorEngine.count_sample pixels) l bs)
             /\ list_sum (map snd (fold_left (ColorEngine.count_sample pixels) l bs))
                = (list_sum (map snd bs) + length l)%nat).
  { induction l as [| i l IH]; intros bs F; cbn [fold_left length].
    - split; [exact F | lia].
    - destruct (IH (ColorEngine.count_sample pixels bs i)) as [F' S'].
      + unfold ColorEngine.count_sample. cbv zeta.
        apply (bump_entries (fun _ => True)); [exact I | exact F].
      + split; [exact F' |]. rewrite S'.
        unfold ColorEngine.count_sample. cbv zeta. rewrite bump_total. lia. }
  destruct (G [] ltac:(constructor)) as [F S]. split; [exact F | exact S].
Qed.

(** X25: the dominant-colour list of colorEngine.js keeps the number of
    samples of each colour: on an RGBA buffer and for a positive sampling
    rate, the counts never increase along the list, each is at least 1,
    and together they do not exceed the number of pixels. *)
Theorem X25_dominant_colours_by_frequency (pixels : list Z) (sampleRate : nat) :
  rgba_shaped pixels -> (0 < sampleRate)%nat ->
  let ds := ColorEngine.extractDominantColors pixels sampleRate in
  descending (map ColorEngine.dom_count ds)
  /\ Forall (fun d => (1 <= ColorEngine.dom_count d)%nat) ds
  /\ (list_sum (map ColorEngine.dom_count ds) <= length pixels / 4)%nat.
Proof.
  intros Hs R. cbv zeta. unfold ColorEngine.extractDominantColors. cbv zeta.
  set (l := strided (length pixels) 0 sampleRate
              (inject_Z (Z.of_nat (length pixels)) / 4)).
  destruct (ColorEngine_buckets_inv pixels l) as [F S]. cbv zeta in F, S.
  set (bs := fold_left (ColorEngine.count_sample pixels) l []) in *.
  assert (E : map ColorEngine.dom_count (map ColorEngine.to_dominant (take 5 (sort_desc bs)))
              = take 5 (map snd (sort_desc bs))).
  { rewrite map_map, firstn_map. apply map_ext. intros [[[r g] b] n]. reflexivity. }
  rewrite E. split; [| split].
  - apply descending_take, sort_desc_descending.
  - apply List.Forall_forall. intros d Hd. apply in_map_iff in Hd.
    destruct Hd as ([[[r g] b] n] & <- & He).
    assert (Fs : Forall (fun e => True /\ (1 <= snd e)%nat) (take 5 (sort_desc bs))).
    { apply Forall_take. eapply Permutation_Forall; [| exact F].
      symmetry. apply sort_desc_perm. }
    rewrite List.Forall_forall in Fs. exact (proj2 (Fs _ He)).
  - etransitivity; [apply list_sum_take |].
    rewrite (list_sum_perm _ (map snd bs))
      by (apply Permutation_map, sort_desc_perm).
    rewrite S. unfold l.
    assert (B : inject_Z (Z.of_nat (length pixels)) / 4
                == inject_Z (Z.of_nat (length pixels / 4))).
    { unfold rgba_shaped in Hs. pose proof (Nat.div_mod_eq (length pixels) 4) as D.
      assert (D' : Z.of_nat (length pixels) = (4 * Z.of_nat (length pixels / 4))%Z) by lia.
      rewrite D', inject_Z_mult. change (inject_Z 4) with 4. field. }
    pose proof (strided_length (length pixels) 0 sampleRate (length pixels / 4) R) as Le.
    assert (X : strided (length pixels) 0 sampleRate
                  (inject_Z (Z.of_nat (length pixels)) / 4)
                = strided (length pixels) 0 sampleRate
                    (inject_Z (Z.of_nat (length pixels / 4))))
      by (apply strided_bound_ext, B).
    rewrite X. lia.
Qed.

(** The dominant colours of the sample buffer. *)
Lemma X24_witness :
  byte_buffer sample_pixels
  /\ Forall entry_ok (Worker.extractDominantColors sample_pixels 8).
Proof.
  assert (B : byte_buffer sample_pixels).
  { unfold byte_buffer, sample_pixels. repeat constructor; lia. }
  split; [exact B |].
  assert (Hs : rgba_shaped sample_pixels) by reflexivity.
  exact (proj1 (proj2 (proj1 (X24_dominant_colours_are_well_formed sample_pixels 8 Hs B)))).
Defined.

Lemma X25_witness :
  descending (map ColorEngine.dom_count (ColorEngine.extractDominantColors sample_pixels 1)).
Proof.
  refine (proj1 (X25_dominant_colours_by_frequency sample_pixels 1 _ _)).
  - reflexivity.
  - lia.
Defined.

(** ** The worker inlined in main.js *)

Lemma append_assoc (a b c : string) : ((a ++ b) ++ c = a ++ (b ++ c))%string.
Proof. induction a as [| x a IH]; cbn; [reflexivity | rewrite IH; reflexivity]. Qed.

Lemma WorkerCode_PAPER_PROFILES_fun : WorkerCode.PAPER_PROFILES = Worker.PAPER_PROFILES.
Proof. reflexivity. Qed.

Lemma WorkerCode_rgbToCmyk_fun : WorkerCode.rgbToCmyk = Worker.rgbToCmyk.
Proof. reflexivity. Qed.

Lemma WorkerCode_cmykToRgb_fun : WorkerCode.cmykToRgb = Worker.cmykToRgb.
Proof. reflexivity. Qed.

Lemma WorkerCode_isOutOfGamut_fun : WorkerCode.isOutOfGamut = Worker.isOutOfGamut.
Proof. reflexivity. Qed.

Lemma WorkerCode_extractDominantColors_eq (pixels : list Z) :
  WorkerCode.extractDominantColors pixels = Worker.extractDominantColors pixels 8.
Proof. reflexivity. Qed.

Section Inlined.
Context {M : MathLib}.

Lemma WorkerCode_applyDotGain_fun : WorkerCode.applyDotGain = Worker.applyDotGain.
Proof. reflexivity. Qed.

Lemma WorkerCode_inks_eq (r g b : Z) (s : settings) :
  WorkerCode.inks r g b s = Worker.inks r g b s.
Proof.
  unfold WorkerCode.inks. cbv zeta.
  rewrite WorkerCode_applyDotGain_fun, WorkerCode_rgbToCmyk_fun,
    WorkerCode_PAPER_PROFILES_fun.
  unfold Worker.inks, Worker.inflated, Worker.shifted, Worker.converted.
  destruct (Qgtb (gamutReduction (Worker.PAPER_PROFILES (paperType s))) 0);
    cbn [ch_c ch_m ch_y ch_k]; reflexivity.
Qed.

Lemma WorkerCode_step_data (pixels : list Z) (s : settings) (count : nat)
    (interval : Z) (pc : Q) (pi : Z) (st1 st2 : loop_state) (i : nat) :
  data st1 = data st2 ->
  data (WorkerCode.step pixels s count interval st1 i)
  = data (Worker.step pixels s pc pi st2 i).
Proof.
  unfold data, aggregates. intros [= O G T X C P].
  unfold WorkerCode.step. cbv zeta.
  rewrite WorkerCode_cmykToRgb_fun, WorkerCode_isOutOfGamut_fun, WorkerCode_inks_eq.
  unfold Worker.step, Worker.totalCoverage. cbv zeta.
  rewrite O, G, T, X, C, P.
  destruct (get pixels (i * 4 + 3) =? 0)%Z; reflexivity.
Qed.

Lemma WorkerCode_run_loop_data (pixels : list Z) (s : settings) :
  rgba_shaped pixels ->
  data (WorkerCode.run_loop pixels s) = data (Worker.run_loop pixels s).
Proof.
  intros Hs. unfold WorkerCode.run_loop, Worker.run_loop. cbv zeta.
  rewrite (loop_count_shaped _ Hs).
  apply (fold_left_related (fun a b => data a = data b)); [| reflexivity].
  intros a b i. apply WorkerCode_step_data.
Qed.

Lemma WorkerCode_step_progress (pixels : list Z) (s : settings) (count : nat)
    (interval : Z) (st : loop_state) (i : nat) :
  progress (WorkerCode.step pixels s count interval st i)
  = if (Z.of_nat i mod interval =? 0)%Z
    then js_round ((inject_Z (Z.of_nat i) / inject_Z (Z.of_nat count)) * 100)
         :: progress st
    else progress st.
Proof.
  unfold WorkerCode.step. cbv zeta.
  destruct (get pixels (i * 4 + 3) =? 0)%Z; reflexivity.
Qed.

(** The notifications of the inlined worker, in posting order. *)
Lemma WorkerCode_posted (pixels : list Z) (s : settings) :
  let count := (length pixels / 4)%nat in
  fst (WorkerCode.processImage pixels s)
  = map (fun i => js_round ((inject_Z (Z.of_nat i) / inject_Z (Z.of_nat count)) * 100))
      (List.filter (fun i => (Z.of_nat i mod Z.max 1 (Z.of_nat (count / 20)) =? 0)%Z)
         (seq 0 count)).
Proof.
  cbv zeta. unfold WorkerCode.processImage. cbv zeta. cbn [fst].
  unfold WorkerCode.run_loop. cbv zeta.
  set (count := (length pixels / 4)%nat).
  set (interval := Z.max 1 (Z.of_nat (count / 20))).
  assert (G : forall l st,
             progress (fold_left (WorkerCode.step pixels s count interval) l st)
             = rev (map (fun i => js_round ((inject_Z (Z.of_nat i)
                                             / inject_Z (Z.of_nat count)) * 100))
                      (List.filter (fun i => (Z.of_nat i mod interval =? 0)%Z) l))
               ++ progress st).
  { induction l as [| i l IH]; intros st; [reflexivity |].
    cbn [fold_left List.filter]. rewrite IH, WorkerCode_step_progress.
    destruct (Z.of_nat i mod interval =? 0)%Z; [| reflexivity].
    cbn [map rev]. rewrite <- app_assoc. reflexivity. }
  rewrite G. unfold initial. cbn [progress]. rewrite app_nil_r. apply rev_involutive.
Qed.

(** X26: the worker inlined in main.js and worker.js.  On an RGBA buffer
    the two copies of [processImage] return the same output buffer, the
    same overlay buffer and the same statistics, with the same level and
    label of the verdict; the message of the verdict differs only for
    danger, where worker.js appends a sentence.  They post the same
    progress notifications from 20 pixels on; below 20 pixels worker.js
    posts none and the inlined worker posts one per pixel. *)
Theorem X26_inlined_worker_agrees (pixels : list Z) (s : settings) :
  rgba_shaped pixels ->
  let code := WorkerCode.processImage pixels s in
  let file := Worker.processImage pixels s in
  (res_outputPixels (snd code) = res_outputPixels (snd file)
   /\ res_gamutPixels (snd code) = res_gamutPixels (snd file))
  /\ (st_avgTAC (res_stats (snd code)) = st_avgTAC (res_stats (snd file))
      /\ st_maxTAC (res_stats (snd code)) = st_maxTAC (res_stats (snd file))
      /\ st_outOfGamutCount (res_stats (snd code))
         = st_outOfGamutCount (res_stats (snd file))
      /\ st_outOfGamutPercent (res_stats (snd code))
         = st_outOfGamutPercent (res_stats (snd file))
      /\ st_dominantColors (res_stats (snd code))
         = st_dominantColors (res_stats (snd file))
      /\ st_inkLimit (res_stats (snd code)) = st_inkLimit (res_stats (snd file)))
  /\ (risk_level (st_risk (res_stats (snd code)))
      = risk_level (st_risk (res_stats (snd file)))
      /\ risk_label (st_risk (res_stats (snd code)))
         = risk_label (st_risk (res_stats (snd file)))
      /\ risk_message (st_risk (res_stats (snd file)))
         = match risk_level (st_risk (res_stats (snd file))) with
           | danger =>
               (risk_message (st_risk (res_stats (snd code)))
                ++ " Printer may reject the file.")%string
           | _ => risk_message (st_risk (res_stats (snd code)))
           end)
  /\ ((80 <= length pixels)%nat -> fst code = fst file)
  /\ ((length pixels < 80)%nat ->
      fst file = [] /\ length (fst code) = (length pixels / 4)%nat).
Proof.
  intros Hs. cbv zeta.
  split; [| split; [| split; [| split]]].
  4: { intros L. rewrite WorkerCode_posted, Worker_posted. cbv zeta.
       rewrite interval_of_length, (loop_count_shaped _ Hs), (interval_shaped _ Hs).
       unfold rgba_shaped in Hs.
       pose proof (Nat.div_mod_eq (length pixels) 4) as E4.
       set (n := (length pixels / 4)%nat) in *.
       assert (N : (20 <= n)%nat) by lia.
       assert (K : (1 <= Z.of_nat (n / 20))%Z).
       { pose proof (Nat.div_mod_eq n 20). pose proof (Nat.mod_upper_bound n 20). lia. }
       replace (Z.max 1 (Z.of_nat (n / 20))) with (Z.of_nat (n / 20)) by lia.
       assert (F : forall l,
                  List.filter (fun i => Worker.progress_due i (Z.of_nat (n / 20))) l
                  = List.filter (fun i => (Z.of_nat i mod Z.of_nat (n / 20) =? 0)%Z) l).
       { intros l. apply filter_ext. intros i. unfold Worker.progress_due.
         replace (Z.of_nat (n / 20) =? 0)%Z with false
           by (symmetry; apply Z.eqb_neq; lia).
         reflexivity. }
       rewrite F. apply map_ext. intros i. apply js_round_comp.
       assert (B : inject_Z (Z.of_nat (length pixels)) / 4 == inject_Z (Z.of_nat n)).
       { assert (D : Z.of_nat (length pixels) = (4 * Z.of_nat n)%Z) by lia.
         rewrite D, inject_Z_mult. change (inject_Z 4) with 4. field. }
       rewrite B. reflexivity. }
  4: { intros L. split; [apply Worker_posts_nothing, L |].
       rewrite WorkerCode_posted. cbv zeta. rewrite length_map.
       unfold rgba_shaped in Hs.
       pose proof (Nat.div_mod_eq (length pixels) 4) as E4.
       set (n := (length pixels / 4)%nat) in *.
       assert (N : (n < 20)%nat) by lia.
       replace (n / 20)%nat with 0%nat by (symmetry; apply Nat.div_small; exact N).
       change (Z.max 1 (Z.of_nat 0)) with 1%Z.
       assert (F : forall l, List.filter (fun i => (Z.of_nat i mod 1 =? 0)%Z) l = l).
       { induction l as [| i l IH]; [reflexivity |]. cbn [List.filter].
         rewrite Z.mod_1_r. cbn [Z.eqb]. rewrite IH. reflexivity. }
       rewrite F. apply length_seq. }
  all: pose proof (WorkerCode_run_loop_data pixels s Hs) as D;
    destruct (data_inv _ _ D) as (O & G & A);
    pose proof (aggregates_average _ _ A) as Av;
    pose proof (aggregates_gamutPercent _ _ A) as Gp;
    pose proof (aggregates_maxTAC _ _ A) as X;
    assert (Oc : outOfGamutCount (WorkerCode.run_loop pixels s)
                 = outOfGamutCount (Worker.run_loop pixels s))
      by exact (f_equal (fun a => snd (fst a)) A);
    unfold WorkerCode.processImage, Worker.processImage, Worker.assess; cbv zeta;
    cbn [snd res_outputPixels res_gamutPixels res_stats st_avgTAC st_maxTAC
         st_outOfGamutCount st_outOfGamutPercent st_dominantColors st_risk st_inkLimit];
    rewrite ?O, ?G, ?Av, ?Gp, ?X, ?Oc, ?WorkerCode_PAPER_PROFILES_fun,
      ?WorkerCode_extractDominantColors_eq.
  - split; reflexivity.
  - repeat split; reflexivity.
  - destruct (Qgtb (maxTAC (Worker.run_loop pixels s))
                (inject_Z (inkLimit (Worker.PAPER_PROFILES (paperType s))) + 30)
              || Qgtb (gamutPercent (Worker.run_loop pixels s)) 25);
      [| destruct (Qgtb (maxTAC (Worker.run_loop pixels s))
                     (inject_Z (inkLimit (Worker.PAPER_PROFILES (paperType s))))
                   || Qgtb (gamutPercent (Worker.run_loop pixels s)) 10)];
      cbn [risk_level risk_label risk_message]; repeat split; try reflexivity.
    rewrite !append_assoc. reflexivity.
Qed.

(** ** Requests and answers *)

Lemma answered_error (text : string) : answered [Worker.Error text].
Proof.
  exists [], (Worker.Error text). split; [reflexivity |]. split; [constructor | reflexivity].
Qed.

Lemma answered_result (percents : list Z) (r : result Worker.dominant) :
  answered (map Worker.Progress percents ++ [Worker.Result r]).
Proof.
  exists (map Worker.Progress percents), (Worker.Result r).
  split; [reflexivity |]. split; [| reflexivity].
  apply Forall_map. apply List.Forall_forall. intros p _. reflexivity.
Qed.

(** X27: one answer per request.  The handler of worker.js and the handler
    of the worker inlined in main.js post nothing for a message whose type
    is not 'process'; for a 'process' message they post progress
    notifications followed by exactly one terminal message, a result or an
    error, and nothing after it. *)
Theorem X27_one_answer_per_request (e : Worker.request) (ie : InlineWorker.request) :
  (if String.eqb (Worker.req_type e) "process" then answered (Worker.onmessage e)
   else Worker.onmessage e = [])
  /\ (if String.eqb (InlineWorker.req_type ie) "process"
      then answered (WorkerCode.onmessage ie)
      else WorkerCode.onmessage ie = []).
Proof.
  split.
  - unfold Worker.onmessage, Worker.try_block.
    destruct (String.eqb (Worker.req_type e) "process"); cbn [negb]; [| reflexivity].
    cbv zeta.
    destruct (length (Worker.pixelArray (Worker.req_pixels e)) =? 0)%nat.
    + apply answered_error.
    + destruct (Worker.processImage (Worker.pixelArray (Worker.req_pixels e))
                  (Worker.req_settings e)) as [percents r].
      apply answered_result.
  - unfold WorkerCode.onmessage, InlineWorker.onmessage, InlineWorker.try_block.
    destruct (String.eqb (InlineWorker.req_type ie) "process"); cbn [negb];
      [| reflexivity].
    destruct (InlineWorker.req_pixels ie) as [px |]; [| apply answered_error].
    destruct (length px =? 0)%nat; [apply answered_error |].
    destruct (WorkerCode.processImage px (InlineWorker.req_settings ie)) as [percents r].
    apply answered_result.
Qed.

(** Progress notifications change nothing on the page but the percentage
    shown. *)
Lemma Main_progress_only (percents : list Z) (st : Main.page) :
  let st' := fold_left Main.handleWorkerMessage (map Worker.Progress percents) st in
  Main.isProcessing st' = Main.isProcessing st
  /\ Main.processedPixels st' = Main.processedPixels st
  /\ Main.shownOverlay st' = Main.shownOverlay st
  /\ Main.shownStats st' = Main.shownStats st
  /\ Main.progressHidden st' = Main.progressHidden st
  /\ Main.errorText st' = Main.errorText st.
Proof.
  cbv zeta. revert st. induction percents as [| p l IH]; intros st; cbn [map fold_left].
  - repeat split.
  - destruct (IH (Main.handleWorkerMessage st (Worker.Progress p)))
      as (A & B & C & D & E & F).
    rewrite A, B, C, D, E, F. repeat split.
Qed.

Lemma settings_copy (s : settings) :
  {| paperType := paperType s; set_dotGain := set_dotGain s; showC := showC s;
     showM := showM s; showY := showY s; showK := showK s;
     gamutOverlay := gamutOverlay s |} = s.
Proof. destruct s. reflexivity. Qed.

(** X28: one round trip between the page of main.js and its worker.
    [processWithCurrentSettings] marks the page as processing and posts the
    pixels; once [handleWorkerMessage] has handled every message of the
    worker's answer the page is no longer processing and the progress
    overlay is hidden.  For an empty buffer the page shows the error text
    and keeps what it showed before; otherwise it shows the buffers and the
    statistics that [processImage] returns for the pixels and the settings
    of the page, and the error banner is untouched. *)
Theorem X28_page_after_one_request (st : Main.page) (src : list Z) (s : settings) :
  let busy := fst (Main.processWithCurrentSettings st src s) in
  let request := snd (Main.processWithCurrentSettings st src s) in
  let after := fold_left Main.handleWorkerMessage (WorkerCode.onmessage request) busy in
  Main.isProcessing busy = true
  /\ Main.isProcessing after = false /\ Main.progressHidden after = true
  /\ (src = [] ->
      Main.errorText after = Some "No pixel data received."%string
      /\ Main.processedPixels after = Main.processedPixels st
      /\ Main.shownOverlay after = Main.shownOverlay st
      /\ Main.shownStats after = Main.shownStats st)
  /\ (src <> [] ->
      let r := snd (WorkerCode.processImage src s) in
      Main.processedPixels after = Some (res_outputPixels r)
      /\ Main.shownOverlay after = Some (res_gamutPixels r)
      /\ Main.shownStats after = Some (res_stats r)
      /\ Main.errorText after = Main.errorText st).
Proof.
  cbv zeta. unfold Main.processWithCurrentSettings. cbn [fst snd].
  rewrite settings_copy.
  unfold WorkerCode.onmessage, InlineWorker.onmessage, InlineWorker.try_block.
  cbn [InlineWorker.req_type InlineWorker.req_pixels InlineWorker.req_settings].
  change (String.eqb "process" "process") with true. cbn [negb].
  split; [reflexivity |].
  destruct src as [| v src].
  - cbn [length Nat.eqb fold_left Main.handleWorkerMessage Main.isProcessing
         Main.progressHidden Main.errorText Main.processedPixels Main.shownOverlay
         Main.shownStats].
    change (String.eqb "No pixel data received." EmptyString) with false. cbv iota.
    split; [reflexivity |]. split; [reflexivity |].
    split; [intros _; repeat split | intros C; contradiction C; reflexivity].
  - replace (length (v :: src) =? 0)%nat with false by reflexivity.
    destruct (WorkerCode.processImage (v :: src) s) as [percents r]. cbn [snd].
    rewrite fold_left_app.
    match goal with |- context [fold_left _ (map Worker.Progress percents) ?b] =>
      destruct (Main_progress_only percents b) as (A & B & C & D & E & F) end.
    cbv zeta in A, B, C, D, E, F.
    cbn [fold_left Main.handleWorkerMessage Main.isProcessing Main.progressHidden
         Main.errorText Main.processedPixels Main.shownOverlay Main.shownStats]
      in A, B, C, D, E, F |- *.
    split; [reflexivity |]. split; [reflexivity |].
    split; [intros C'; discriminate C' | intros _; rewrite F; repeat split].
Qed.

End Inlined.

(** The two copies of the worker on the sample buffer. *)
Lemma X26_witness :
  res_outputPixels (snd (@WorkerCode.processImage bhaskara sample_pixels black_only))
  = res_outputPixels (snd (@Worker.processImage bhaskara sample_pixels black_only)).
Proof.
  refine (proj1 (proj1 (@X26_inlined_worker_agrees bhaskara sample_pixels black_only _))).
  reflexivity.
Defined.

(** ** colorEngine.js and worker.js side by side *)





Section TwoEngines.
Context {M : MathLib}.







End TwoEngines.


(** ** The simulation only darkens *)

Lemma bhaskara_not_negative : sine_not_negative bhaskara.
Proof.
  intros v [L U]. unfold sin_pi, bhaskara.
  apply Qle_shift_div_l; nra.
Qed.

Section Darkens.
Context {M : MathLib}.
Hypothesis sine : sine_not_negative M.

Lemma Worker_applyDotGain_grows (v gain sg hg : Q) :
  0 <= gain -> 0 <= sg -> 0 <= hg -> 0 <= v <= 1 ->
  v <= Worker.applyDotGain v gain sg hg.
Proof.
  intros G Sg Hg [L U]. unfold Worker.applyDotGain. cbv zeta.
  destruct (Qle_bool_spec v 0) as [A | A]; [lra |].
  unfold Qgeb. destruct (Qle_bool_spec 1 v) as [B | B]; [lra |].
  pose proof (sine v (conj L U)) as S.
  set (mb := sin_pi v) in *.
  set (pw := if Qltb v 0.5 then hg + (sg - hg) * (v * 2)
             else sg - (sg - hg) * ((v - 0.5) * 2)).
  assert (P : 0 <= pw).
  { unfold pw. destruct (Qltb_spec v 0.5) as [C | C]; nra. }
  assert (Q0 : 0 <= gain * mb * pw).
  { assert (0 <= gain * mb) by nra. nra. }
  destruct (js_max_cases 0 (v + gain * mb * pw)) as [[_ ->] | [C _]]; [| lra].
  destruct (js_min_cases 1 (v + gain * mb * pw)) as [[_ ->] | [_ ->]]; lra.
Qed.

Lemma Worker_inflate_grows (x gr f : Q) :
  0 <= x <= 1 -> 0 <= gr -> 0 <= f -> x <= js_min 1 (x + x * gr * f).
Proof.
  intros [L U] G F. assert (P : 0 <= x * gr) by nra.
  destruct (js_min_cases 1 (x + x * gr * f)) as [[_ ->] | [_ ->]]; nra.
Qed.

(** The inks of the pixel loop are at least those of the plain conversion. *)
Lemma Worker_inks_grow (r g b : Z) (s : settings) :
  0 <= set_dotGain s ->
  (0 <= r <= 255)%Z -> (0 <= g <= 255)%Z -> (0 <= b <= 255)%Z ->
  let raw := Worker.converted r g b in
  let ink := Worker.inks r g b s in
  ch_c raw <= ch_c ink /\ ch_m raw <= ch_m ink /\ ch_y raw <= ch_y ink
  /\ ch_k raw <= ch_k ink.
Proof.
  intros G Hr Hg Hb. cbv zeta.
  destruct (Worker_converted_unit r g b Hr Hg Hb) as (Uc & Um & Uy & Uk).
  unfold Worker.inks. cbv zeta.
  set (p := Worker.PAPER_PROFILES (paperType s)).
  assert (Pg : 0 <= shadowGain p /\ 0 <= highlightGain p /\ 0 <= gamutReduction p)
    by (unfold p; destruct (paperType s); cbn; repeat split; lra).
  destruct Pg as (Ps & Ph & Pr).
  pose proof (Worker_shifted_unit (set_dotGain s) p (Worker.converted r g b))
    as (Sc & Sm & Sy & Sk).
  set (raw := Worker.converted r g b) in *.
  pose proof (Worker_applyDotGain_grows (ch_c raw) _ _ _ G Ps Ph Uc) as Gc.
  pose proof (Worker_applyDotGain_grows (ch_m raw) _ _ _ G Ps Ph Um) as Gm.
  pose proof (Worker_applyDotGain_grows (ch_y raw) _ _ _ G Ps Ph Uy) as Gy.
  pose proof (Worker_applyDotGain_grows (ch_k raw) _ _ _ G Ps Ph Uk) as Gk.
  unfold Worker.inflated.
  destruct (Qgtb (gamutReduction p) 0).
  - cbn [ch_c ch_m ch_y ch_k].
    unfold Worker.shifted in *. cbn [ch_c ch_m ch_y ch_k] in *.
    assert (F5 : 0 <= 0.5) by lra.
    assert (F3 : 0 <= 0.3) by lra.
    pose proof (Worker_inflate_grows _ _ _ Sc Pr F5) as Ic.
    pose proof (Worker_inflate_grows _ _ _ Sm Pr F3) as Im.
    pose proof (Worker_inflate_grows _ _ _ Sy Pr F3) as Iy.
    repeat split; lra.
  - unfold Worker.shifted. cbn [ch_c ch_m ch_y ch_k]. repeat split; assumption.
Qed.

Lemma unrounded_falls (x x' k k' : Q) :
  0 <= x <= x' -> x' <= 1 -> 0 <= k <= k' -> k' <= 1 ->
  255 * (1 - x') * (1 - k') <= 255 * (1 - x) * (1 - k).
Proof. intros [X0 X1] X2 [K0 K1] K2. nra. Qed.

(** X30: the simulation only darkens.  For a sine that is not negative
    between 0 and 1, a dot gain that is not negative and a pixel of bytes,
    the tone shift of worker.js returns at least its argument, the four
    inks of the pixel loop are at least those of the plain conversion, and
    with the four channels shown no channel of the output pixel is brighter
    than the same channel of the input pixel. *)
Theorem X30_simulation_only_darkens (r g b : Z) (s : settings) (v : Q) :
  0 <= set_dotGain s ->
  (0 <= r <= 255)%Z -> (0 <= g <= 255)%Z -> (0 <= b <= 255)%Z -> 0 <= v <= 1 ->
  let p := Worker.PAPER_PROFILES (paperType s) in
  let ink := Worker.inks r g b s in
  let out := Worker.cmykToRgb (ch_c ink) (ch_m ink) (ch_y ink) (ch_k ink) in
  v <= Worker.applyDotGain v (set_dotGain s) (shadowGain p) (highlightGain p)
  /\ (ch_c (Worker.converted r g b) <= ch_c ink
      /\ ch_m (Worker.converted r g b) <= ch_m ink
      /\ ch_y (Worker.converted r g b) <= ch_y ink
      /\ ch_k (Worker.converted r g b) <= ch_k ink)
  /\ ((ch_r out <= r)%Z /\ (ch_g out <= g)%Z /\ (ch_b out <= b)%Z).
Proof.
  intros G Hr Hg Hb Hv. cbv zeta.
  split.
  { apply Worker_applyDotGain_grows; [exact G | | | exact Hv];
      destruct (paperType s); cbn; lra. }
  pose proof (Worker_inks_grow r g b s G Hr Hg Hb) as Gr. cbv zeta in Gr.
  split; [exact Gr |].
  destruct Gr as (Gc & Gm & Gy & Gk).
  destruct (Worker_converted_unit r g b Hr Hg Hb) as (Uc & Um & Uy & Uk).
  assert (In : in_unit (Worker.inks r g b s)).
  { unfold Worker.inks. cbv zeta. apply Worker_inflated_unit, Worker_shifted_unit. }
  destruct In as (Ic & Im & Iy & Ik).
  destruct (Worker_round_trip_exact (inject_Z r / 255) (inject_Z g / 255)
              (inject_Z b / 255) (byte_unit r Hr) (byte_unit g Hg) (byte_unit b Hb))
    as (Er & Eg & Eb).
  cbv zeta in Er, Eg, Eb. unfold unrounded in Er, Eg, Eb.
  fold (Worker.converted r g b) in Er, Eg, Eb.
  set (raw := Worker.converted r g b) in *.
  set (ink := Worker.inks r g b s) in *.
  unfold Worker.cmykToRgb. cbn [ch_r ch_g ch_b].
  assert (Back : forall z : Z, forall x : Q,
             x <= 255 * (inject_Z z / 255) -> (js_round x <= z)%Z).
  { intros z x Hx. rewrite <- (js_round_inject z). apply js_round_le.
    assert (E : 255 * (inject_Z z / 255) == inject_Z z) by field. lra. }
  split; [| split]; apply Back.
  - rewrite <- Er. apply unrounded_falls; lra.
  - rewrite <- Eg. apply unrounded_falls; lra.
  - rewrite <- Eb. apply unrounded_falls; lra.
Qed.

End Darkens.

(** A dark red pixel on newsprint, all channels shown. *)
Lemma X30_witness :
  (ch_r (@Worker.cmykToRgb (ch_c (@Worker.inks bhaskara 200 30 30 all_shown))
           (ch_m (@Worker.inks bhaskara 200 30 30 all_shown))
           (ch_y (@Worker.inks bhaskara 200 30 30 all_shown))
           (ch_k (@Worker.inks bhaskara 200 30 30 all_shown))) <= 200)%Z.
Proof.
  refine (proj1 (proj2 (proj2 (@X30_simulation_only_darkens bhaskara
                                 bhaskara_not_negative 200 30 30 all_shown (1 # 2)
                                 _ _ _ _ _)))).
  - unfold all_shown. cbn [set_dotGain]. lra.
  - lia.
  - lia.
  - lia.
  - lra.
Defined.
